(** * chess-tracker: the spaced-repetition scheduler of [src/compute_srs.py]

    A shallow embedding of the scheduling engine ([_next_interval_days],
    [_seed_offset_days], [_calc_update]) and of the recomputation driver
    ([run]), followed by the properties of the specification that concern
    them.  The embedding also covers what surrounds the engine: the reading
    of the configuration from the environment ([_env_bool], [_env_str],
    [_env_int], [_parse_cadence]), the caller [_recompute_srs_single] of
    [src/serve.py] and the [.env] loader [load_dotenv] of [src/update.py],
    with further properties of the code after those of the specification.

    Conventions of the embedding:
    - Python [int] is [Z]; [str] is [string], a character being a code point
      below 256; [None]-able values are [option];
    - a raised exception is the [Raise] result of the [res] monad;
    - the [srs] table is a finite map from puzzle identifier to row;
    - a calendar date (the text [%Y-%m-%d] the program passes around) is
      the record [date] of its three fields, on the proleptic Gregorian
      calendar; the platform is one where [strftime] does not pad the year
      (glibc), so SQLite reads the text as a date from the year 1000 on;
    - the columns of [srs] accept what the program writes: integers of 64
      bits, texts and NULL. *)

From Stdlib Require Import ZArith String Ascii List Bool Lia.
From stdpp Require Import base option list strings gmap.

Local Open Scope string_scope.
Local Open Scope Z_scope.

(** ** Python primitives *)

Module Py.

(** The exceptions the scheduler can raise. *)
Inductive exn : Type :=
| ValueError      (* datetime.fromisoformat on a malformed text, int(...) *)
| AttributeError  (* None.replace(...) *)
| IndexError      (* list index out of range *)
| OverflowError.  (* a datetime out of range, an integer sqlite3 cannot bind *)

(** A computation that returns a value or raises. *)
Inductive res (A : Type) : Type :=
| Ok (a : A)
| Raise (e : exn).
Arguments Ok {A} a.
Arguments Raise {A} e.

Definition bind {A B : Type} (c : res A) (k : A -> res B) : res B :=
  match c with
  | Ok a => k a
  | Raise e => Raise e
  end.

(** [l[i]] on a Python list: negative indices count from the end, anything
    outside [-len .. len-1] raises [IndexError]. *)
Definition index (l : list Z) (i : Z) : res Z :=
  let n := Z.of_nat (length l) in
  let j := if i <? 0 then n + i else i in
  if (0 <=? j) && (j <? n) then
    match l !! Z.to_nat j with
    | Some x => Ok x
    | None => Raise IndexError
    end
  else Raise IndexError.

(** [x or y] on integers: [0] is falsy. *)
Definition or_int (x y : Z) : Z := if x =? 0 then y else x.

(** [x or y] where [x] is an integer column that may be NULL. *)
Definition or_none_int (x : option Z) (y : Z) : Z :=
  match x with
  | None => y
  | Some v => or_int v y
  end.

(** [x or y] where [x] is a text column that may be NULL: [None] and the
    empty text are falsy. *)
Definition or_none_str (x : option string) (y : string) : string :=
  match x with
  | None => y
  | Some EmptyString => y
  | Some s => s
  end.

(** [ord(ch)]. *)
Definition ord (ch : ascii) : Z := Z.of_nat (nat_of_ascii ch).

(** [str.lower()] for the code points below 256: the capital letters
    [A-Z] and the accented capitals (192 to 222, the multiplication sign
    215 apart) are 32 below their small letters. *)
Definition lower_char (ch : ascii) : ascii :=
  let c := nat_of_ascii ch in
  if ((Nat.leb 65 c && Nat.leb c 90)
      || (Nat.leb 192 c && Nat.leb c 222 && negb (Nat.eqb c 215)))%bool
  then ascii_of_nat (c + 32)%nat else ch.

Fixpoint lower (s : string) : string :=
  match s with
  | EmptyString => EmptyString
  | String ch s' => String (lower_char ch) (lower s')
  end.

(** [s.replace("Z", "+00:00")]: every occurrence is replaced. *)
Fixpoint replace_Z (s : string) : string :=
  match s with
  | EmptyString => EmptyString
  | String ch s' =>
      if Ascii.eqb ch "Z"%char then "+00:00" ++ replace_Z s'
      else String ch (replace_Z s')
  end.

(** [ch.isspace()] for the code points below 256. *)
Definition isspace (ch : ascii) : bool :=
  let c := nat_of_ascii ch in
  ((Nat.leb 9 c && Nat.leb c 13) || (Nat.leb 28 c && Nat.leb c 32)
   || Nat.eqb c 133 || Nat.eqb c 160)%bool.

Fixpoint lstrip (s : string) : string :=
  match s with
  | EmptyString => EmptyString
  | String ch s' => if isspace ch then lstrip s' else s
  end.

Fixpoint rstrip (s : string) : string :=
  match s with
  | EmptyString => EmptyString
  | String ch s' =>
      match rstrip s' with
      | EmptyString => if isspace ch then EmptyString else String ch EmptyString
      | t => String ch t
      end
  end.

(** [s.strip()]. *)
Definition strip (s : string) : string := rstrip (lstrip s).

(** [s.split(",")]: never empty, [""] splits into [[""]]. *)
Fixpoint split_comma (s : string) : list string :=
  match s with
  | EmptyString => [EmptyString]
  | String ch s' =>
      match split_comma s' with
      | [] => [String ch EmptyString]
      | hd :: tl =>
          if Ascii.eqb ch ","%char then EmptyString :: hd :: tl
          else String ch hd :: tl
      end
  end.

(** The decimal digits [0-9]. *)
Definition decimal (ch : ascii) : option Z :=
  let c := nat_of_ascii ch in
  if (Nat.leb 48 c && Nat.leb c 57)%bool then Some (Z.of_nat c - 48) else None.

(** [ch.isdigit()] for the code points below 256: the decimal digits and
    the superscripts two, three and one. *)
Definition isdigit_char (ch : ascii) : bool :=
  let c := nat_of_ascii ch in
  (Nat.leb 48 c && Nat.leb c 57 || Nat.eqb c 178 || Nat.eqb c 179
   || Nat.eqb c 185)%bool.

(** [s.isdigit()]: at least one character, all of them digits. *)
Definition isdigit (s : string) : bool :=
  match s with
  | EmptyString => false
  | _ => forallb isdigit_char (list_ascii_of_string s)
  end.

(** The number a text of decimal digits writes, after [acc]: the
    superscripts are digits for [isdigit] and a [ValueError] for [int]. *)
Fixpoint digits_value (acc : Z) (s : string) : res Z :=
  match s with
  | EmptyString => Ok acc
  | String ch s' =>
      match decimal ch with
      | Some d => digits_value (acc * 10 + d) s'
      | None => Raise ValueError
      end
  end.

(** The number of decimal digits in a text. *)
Fixpoint count_digits (s : string) : Z :=
  match s with
  | EmptyString => 0
  | String ch s' =>
      (match decimal ch with Some _ => 1 | None => 0 end) + count_digits s'
  end.

(** [sys.int_info.default_max_str_digits]: [int] and [str] refuse more
    digits than this (Python 3.11). *)
Definition max_str_digits : Z := 4300.

(** [int(s)] on a text of digits. *)
Definition int_digits (s : string) : res Z :=
  if max_str_digits <? count_digits s then Raise ValueError
  else digits_value 0 s.

(** [x in l] on a list of texts. *)
Definition contains (l : list string) (x : string) : bool :=
  existsb (String.eqb x) l.

End Py.

Import Py.

#[global] Instance res_ret : MRet res := @Ok.
#[global] Instance res_bind : MBind res := fun A B k c => Py.bind c k.

(** ** Calendar dates

    The program holds a date as the text [%Y-%m-%d] and lets SQLite's
    [date(base, '+N day')] advance it.  Both are modelled on the proleptic
    Gregorian calendar through the day number of a date (days since
    1970-01-01). *)

Module Calendar.

Record date : Type := mkDate { year : Z; month : Z; day : Z }.

(** Day number of a civil date. *)
Definition days_from_civil (d : date) : Z :=
  let y := if month d <=? 2 then year d - 1 else year d in
  let era := y / 400 in
  let yoe := y - era * 400 in
  let mp := if month d >? 2 then month d - 3 else month d + 9 in
  let doy := (153 * mp + 2) / 5 + (day d - 1) in
  let doe := yoe * 365 + yoe / 4 - yoe / 100 + doy in
  era * 146097 + doe - 719468.

(** Year of the 400-year era from the day of the era. *)
Definition yoe_of_doe (doe : Z) : Z :=
  (doe - doe / 1460 + doe / 36524 - doe / 146096) / 365.

Definition doy_of_doe (doe : Z) : Z :=
  let yoe := yoe_of_doe doe in
  doe - (365 * yoe + yoe / 4 - yoe / 100).

(** Civil date of a day number. *)
Definition civil_from_days (z : Z) : date :=
  let z := z + 719468 in
  let era := z / 146097 in
  let doe := z - era * 146097 in
  let yoe := yoe_of_doe doe in
  let y := yoe + era * 400 in
  let doy := doy_of_doe doe in
  let mp := (5 * doy + 2) / 153 in
  let d := doy - (153 * mp + 2) / 5 + 1 in
  let m := if mp <? 10 then mp + 3 else mp - 9 in
  mkDate (if m <=? 2 then y + 1 else y) m d.

(** The date [n] calendar days after [d]. *)
Definition add_days (d : date) (n : Z) : date :=
  civil_from_days (days_from_civil d + n).

Definition is_leap (y : Z) : bool :=
  ((y mod 4 =? 0) && negb (y mod 100 =? 0)) || (y mod 400 =? 0).

Definition days_in_month (y m : Z) : Z :=
  if m =? 2 then (if is_leap y then 29 else 28)
  else if (m =? 4) || (m =? 6) || (m =? 9) || (m =? 11) then 30
  else 31.

(** A date of the calendar: month and day in range. *)
Definition valid (d : date) : bool :=
  (1 <=? month d) && (month d <=? 12) &&
  (1 <=? day d) && (day d <=? days_in_month (year d) (month d)).

End Calendar.

Import Calendar.

(** ** Timestamps

    [datetime.fromisoformat] returns a [datetime]: the wall-clock reading (in
    seconds counted from 1970-01-01T00:00:00 on the same clock) and, when the
    text carries one, the UTC offset in seconds. *)

Record datetime : Type := mkDatetime { wall : Z; tzinfo : option Z }.

(** A parser for the canonical texts [YYYY-MM-DD], [YYYY-MM-DDTHH:MM:SS] and
    [YYYY-MM-DDTHH:MM:SS+HH:MM] (the separator [T] may be any character that
    is not a digit), the seconds with or without a fraction of three or six
    digits: what [datetime.isoformat] writes, and so what the program
    stores.  Every
    version of [datetime.fromisoformat] accepts these and reads them as
    below (the clock reading is in whole seconds, the fraction is not kept:
    the date does not depend on it); it is the instance the examples run the
    engine with, the engine itself being stated for any parser. *)

Module Iso.

Fixpoint number (n : nat) (s : string) (acc : Z) : option (Z * string) :=
  match n with
  | O => Some (acc, s)
  | S n' =>
      match s with
      | EmptyString => None
      | String c s' => d ← Py.decimal c; number n' s' (acc * 10 + d)
      end
  end.

Definition expect (c : ascii) (s : string) : option string :=
  match s with
  | EmptyString => None
  | String c' s' => if Ascii.eqb c c' then Some s' else None
  end.

Definition parse_date (s : string) : option (date * string) :=
  '(y, s) ← number 4 s 0;
  s ← expect "-" s;
  '(m, s) ← number 2 s 0;
  s ← expect "-" s;
  '(d, s) ← number 2 s 0;
  let dt := mkDate y m d in
  if (1 <=? y) && valid dt then Some (dt, s) else None.

(** The fraction of the seconds, if any: a point and three or six digits. *)
Definition parse_fraction (s : string) : option string :=
  match s with
  | String "." s' =>
      '(_, s3) ← number 3 s' 0;
      match number 3 s3 0 with
      | Some (_, s6) => Some s6
      | None => Some s3
      end
  | _ => Some s
  end.

Definition parse_time (s : string) : option (Z * string) :=
  '(h, s) ← number 2 s 0;
  s ← expect ":" s;
  '(mi, s) ← number 2 s 0;
  s ← expect ":" s;
  '(sec, s) ← number 2 s 0;
  s ← parse_fraction s;
  if (h <? 24) && (mi <? 60) && (sec <? 60)
  then Some (h * 3600 + mi * 60 + sec, s) else None.

Definition parse_offset (s : string) : option (option Z) :=
  match s with
  | EmptyString => Some None
  | String c s' =>
      sign ← (if Ascii.eqb c "+" then Some 1
              else if Ascii.eqb c "-" then Some (-1) else None);
      '(h, s) ← number 2 s' 0;
      s ← expect ":" s;
      '(mi, s) ← number 2 s 0;
      match s with
      | EmptyString =>
          if (h <? 24) && (mi <? 60)
          then Some (Some (sign * (h * 3600 + mi * 60))) else None
      | String _ _ => None
      end
  end.

Definition fromisoformat (s : string) : option datetime :=
  '(d, s) ← parse_date s;
  match s with
  | EmptyString => Some (mkDatetime (days_from_civil d * 86400) None)
  | String sep s' =>
      match Py.decimal sep with
      | None =>
          '(t, s) ← parse_time s';
          tz ← parse_offset s;
          Some (mkDatetime (days_from_civil d * 86400 + t) tz)
      | Some _ => None
      end
  end.

(** The offset of a process whose local zone is UTC. *)
Definition utc (instant : Z) : Z := 0.

End Iso.

(** ** Data model *)

(** The configuration, read once from the environment. *)
Record config : Type := mkConfig {
  TRACK_WINS : bool;
  LOSS_CADENCE : list Z;
  WIN_CADENCE : list Z;
  RESET_ON_FAIL : bool;
  SEED_MODE : string;
  STAGGER_BUCKETS : Z
}.

(** The configuration of an empty environment. *)
Definition default_config : config :=
  mkConfig false [1; 2; 4; 7; 14; 30; 60; 90] [2; 4; 7; 14; 30; 60; 90]
           true "tomorrow" 7.

(** [_parse_cadence]: the entries of [s] that are texts of digits, or
    [fallback] when there is none. *)
Fixpoint parse_cadence_parts (parts : list string) : res (list Z) :=
  match parts with
  | [] => Ok []
  | part :: rest =>
      let part := Py.strip part in
      if Py.isdigit part then
        n ← Py.int_digits part;
        out ← parse_cadence_parts rest;
        Ok (n :: out)
      else parse_cadence_parts rest
  end.

Definition _parse_cadence (s : option string) (fallback : list Z) : res (list Z) :=
  out ← parse_cadence_parts (Py.split_comma (default "" s));
  Ok (match out with [] => fallback | _ => out end).

(** The cadence [_next_interval_days] reads (its local [cad]). *)
Definition cadence (cfg : config) (for_win : bool) : list Z :=
  if for_win && TRACK_WINS cfg then WIN_CADENCE cfg else LOSS_CADENCE cfg.

(** A row of the [srs] table (the key [puzzle_id] is the key of the map).
    [success_streak] may be NULL: the engine reads it under [or 0].
    [due_date] is what SQLite's [date] answered, which may be NULL. *)
Record srs_row : Type := mkRow {
  success_streak : option Z;
  interval_days : Z;
  last_result : string;
  last_reviewed : date;
  due_date : option date
}.

(** A row of [SQL_LAST_ATTEMPT]: one per puzzle that has attempts. *)
Record attempt_row : Type := mkAttempt {
  puzzle_id : string;
  last_attempt : option string;   (* MAX(attempted_at), ISO text *)
  last_result_col : option string (* result of the latest attempt, may be NULL *)
}.

(** The SQLite modifier [f"+{interval} day"]. *)
Inductive modifier : Type := PlusDay (n : Z).

(** The first and the last day a [datetime] can hold: 0001-01-01 and
    9999-12-31, as day numbers. *)
Definition min_day : Z := Eval vm_compute in days_from_civil (mkDate 1 1 1).
Definition max_day : Z := Eval vm_compute in days_from_civil (mkDate 9999 12 31).

(** SQLite reads the text of [base] as a date: a text [YYYY-MM-DD] with a
    year of four digits, a month from 01 to 12 and a day from 01 to 31.
    [strftime("%Y-%m-%d")] writes the year without padding (as glibc does),
    so the year has four digits from the year 1000 on. *)
Definition sql_reads (base : date) : bool :=
  (1000 <=? year base) && (year base <=? 9999)
  && (1 <=? month base) && (month base <=? 12)
  && (1 <=? day base) && (day base <=? 31).

(** [SELECT date(:base, :plus)]: the date [n] days after [base] on the
    calendar (a day past the end of its month counting into the next), or
    NULL: when SQLite does not read [base]; when [n] is negative, the
    modifier [+-n day] not being one; and when the date would be after
    9999-12-31 (which also keeps [n] below the 5373485 days the modifier
    accepts). *)
Definition sql_date (base : date) (plus : modifier) : option date :=
  match plus with
  | PlusDay n =>
      if sql_reads base && (0 <=? n) && (days_from_civil base + n <=? max_day)
      then Some (add_days base n) else None
  end.

(** What [run] does to the row of one puzzle. *)
Inductive action : Type :=
| UPSERT (e : srs_row)
| DELETE
| NOOP.

(** The state [run] threads through its loop: the [srs] table and the two
    counters. *)
Record run_state : Type := mkState {
  srs : gmap string srs_row;
  updated : Z;
  deleted : Z
}.

(** How [run] ends: the transaction commits and the counts are printed, or
    an exception leaves the [with eng.begin()] block and the transaction is
    rolled back. *)
Inductive outcome : Type :=
| Committed (st : run_state)
| RolledBack (e : exn).

(** The [srs] table once [run] has ended, started from [s0]. *)
Definition srs_after (s0 : gmap string srs_row) (o : outcome) : gmap string srs_row :=
  match o with
  | Committed st => srs st
  | RolledBack _ => s0
  end.



(** An integer sqlite3 binds: one of 64 bits. *)
Definition int64 (n : Z) : bool :=
  (- 9223372036854775808 <=? n) && (n <=? 9223372036854775807).

(** Every entry of a cadence is an integer of 64 bits. *)
Definition int64_cadence (cad : list Z) : bool := forallb int64 cad.

(** The streak of a row is one the engine can add 1 to and still bind: NULL,
    or an integer of 64 bits that is not the largest. *)
Definition streak_fits (row : srs_row) : bool :=
  match success_streak row with
  | Some v => int64 v && (v <? 9223372036854775807)
  | None => true
  end.


(** ** The engine *)

Section Engine.

(** [datetime.fromisoformat]: [None] when it raises [ValueError]. *)
Variable fromisoformat : string -> option datetime.
(** The UTC offset (seconds) of the process's local zone at an instant. *)
Variable local_utcoffset : Z -> Z.

Variable cfg : config.

(** A clock reading (in seconds) a [datetime] can hold: from 0001-01-01 to
    9999-12-31. *)
Definition in_datetime_range (seconds : Z) : bool :=
  (min_day <=? seconds / 86400) && (seconds / 86400 <=? max_day).

(** [_local_date_of_iso].  [astimezone] subtracts the offset of the
    timestamp, then adds the local one: each step raises [OverflowError]
    when it leaves the years 1 to 9999. *)
Definition _local_date_of_iso (iso_ts : option string) : res date :=
  match iso_ts with
  | None => Raise AttributeError
  | Some ts =>
      match fromisoformat (replace_Z ts) with
      | None => Raise ValueError
      | Some dt =>
          let offset := match tzinfo dt with None => 0 | Some o => o end in
          let instant := wall dt - offset in
          if negb (in_datetime_range instant) then Raise OverflowError
          else
            let local := instant + local_utcoffset instant in
            if negb (in_datetime_range local) then Raise OverflowError
            else Ok (civil_from_days (local / 86400))
      end
  end.

Definition _next_interval_days (streak : Z) (for_win : bool) : res Z :=
  let cad := cadence cfg for_win in
  let idx := Z.min (Z.max streak 1 - 1) (Z.of_nat (length cad) - 1) in
  Py.index cad idx.

(** The loop of [_seed_offset_days]. *)
Fixpoint seed_hash (base : Z) (puzzle_id : string) : Z :=
  match puzzle_id with
  | EmptyString => base
  | String ch rest => seed_hash (Z.land (base * 131 + ord ch) 2147483647) rest
  end.

Definition _seed_offset_days (puzzle_id : string) : Z :=
  if String.eqb (SEED_MODE cfg) "stagger" then
    let base := seed_hash 0 puzzle_id in
    or_int (base mod (Z.max (STAGGER_BUCKETS cfg) 1)) 1
  else 1.

(** [_calc_update]: [None] for no update, else
    [(streak, interval_days, base_date, plus_expr, for_win)]. *)
Definition _calc_update (existing : option srs_row) (last_result : string)
    (last_attempt_local_date : date) (puzzle_id : string)
  : res (option (Z * Z * date * modifier * bool)) :=
  let is_win := String.eqb last_result "win" in
  match existing with
  | Some row =>
      let streak := or_none_int (success_streak row) 0 in
      let finish (streak : Z) :=
        interval ← _next_interval_days
                     (if is_win && TRACK_WINS cfg then streak
                      else if is_win then 1 else or_int streak 1)
                     is_win;
        Ok (Some (streak, interval, last_attempt_local_date,
                  PlusDay interval, is_win)) in
      if is_win then
        if TRACK_WINS cfg then finish (streak + 1)
        else Ok None
      else
        finish (if RESET_ON_FAIL cfg then 0 else Z.max (streak - 1) 0)
  | None =>
      if is_win && negb (TRACK_WINS cfg) then Ok None
      else
        let streak := if is_win then 1 else 0 in
        interval ← (if negb is_win then Ok (_seed_offset_days puzzle_id)
                    else _next_interval_days (or_int streak 1) true);
        Ok (Some (streak, interval, last_attempt_local_date,
                  PlusDay interval, is_win))
  end.

(** The decision [run] takes for one puzzle once the date of its latest
    attempt is known (the body of the loop from the win test on). *)
Definition decide_action (existing : option srs_row) (last_result : string)
    (last_attempt_date : date) (pid : string) : res action :=
  if String.eqb last_result "win" && negb (TRACK_WINS cfg) then
    Ok (match existing with Some _ => DELETE | None => NOOP end)
  else
    r ← _calc_update existing last_result last_attempt_date pid;
    match r with
    | None => Ok NOOP
    | Some (streak, interval, base_date, plus, is_win) =>
        let due_val := sql_date base_date plus in
        Ok (UPSERT (mkRow (Some streak) interval last_result base_date due_val))
    end.

(** The effect of a decision on the table and the counters. *)
Definition apply_action (pid : string) (a : action) (st : run_state) : run_state :=
  match a with
  | UPSERT e => mkState (<[pid := e]> (srs st)) (updated st + 1) (deleted st)
  | DELETE => mkState (delete pid (srs st)) (updated st) (deleted st + 1)
  | NOOP => st
  end.

(** sqlite3 binds the parameters of [SQL_UPSERT_SRS]: the streak and the
    interval must be integers of 64 bits. *)
Definition upsert_binds (e : srs_row) : bool :=
  int64 (default 0 (success_streak e)) && int64 (interval_days e).

(** The statement [run] executes for a decision: the upsert raises
    [OverflowError] when sqlite3 cannot bind the row. *)
Definition execute_action (pid : string) (a : action) (st : run_state)
  : res run_state :=
  match a with
  | UPSERT e =>
      if upsert_binds e then Ok (apply_action pid a st) else Raise OverflowError
  | _ => Ok (apply_action pid a st)
  end.

(** [pid not in changed_pids], under [changed_pids is not None]. *)
Definition skipped (changed_pids : option (list string)) (pid : string) : bool :=
  match changed_pids with
  | None => false
  | Some l => negb (Py.contains l pid)
  end.

(** One turn of the loop of [run]. *)
Definition run_row (changed_pids : option (list string)) (r : attempt_row)
    (st : run_state) : res run_state :=
  let pid := puzzle_id r in
  if skipped changed_pids pid then Ok st
  else
    let last_result := Py.lower (or_none_str (last_result_col r) "loss") in
    last_attempt_date ← _local_date_of_iso (last_attempt r);
    let existing := srs st !! pid in
    a ← decide_action existing last_result last_attempt_date pid;
    execute_action pid a st.

Fixpoint run_rows (changed_pids : option (list string)) (rows : list attempt_row)
    (st : run_state) : res run_state :=
  match rows with
  | [] => Ok st
  | r :: rows' => st' ← run_row changed_pids r st; run_rows changed_pids rows' st'
  end.

(** [run]: [rows] is the result of [SQL_LAST_ATTEMPT], [s0] the [srs] table
    when the transaction begins. *)
Definition run (rows : list attempt_row) (s0 : gmap string srs_row)
    (changed_pids : option (list string)) : outcome :=
  match run_rows changed_pids rows (mkState s0 0 0) with
  | Ok st => Committed st
  | Raise e => RolledBack e
  end.

End Engine.


(** ** Sample data

    The configurations, rows and tables the examples below evaluate the
    engine on. *)

Module Sample.

(** The default configuration with [SRS_TRACK_WINS=true]. *)
Definition tracking : config :=
  mkConfig true [1; 2; 4; 7; 14; 30; 60; 90] [2; 4; 7; 14; 30; 60; 90]
           true "tomorrow" 7.

(** The default configuration with [SRS_SEED_MODE=stagger]. *)
Definition staggered : config :=
  mkConfig false [1; 2; 4; 7; 14; 30; 60; 90] [2; 4; 7; 14; 30; 60; 90]
           true "stagger" 7.

(** The default configuration with [SRS_RESET_ON_FAIL=false]. *)
Definition no_reset : config :=
  mkConfig false [1; 2; 4; 7; 14; 30; 60; 90] [2; 4; 7; 14; 30; 60; 90]
           false "tomorrow" 7.


Definition jan1 : date := mkDate 2024 1 1.
Definition jan2 : date := mkDate 2024 1 2.
Definition jan5 : date := mkDate 2024 1 5.

(** Latest attempts as [SQL_LAST_ATTEMPT] returns them. *)
Definition loss_p1 : attempt_row :=
  mkAttempt "p1" (Some "2024-01-01T10:00:00Z") (Some "loss").
Definition win_p1 : attempt_row :=
  mkAttempt "p1" (Some "2024-01-02T09:30:00+00:00") (Some "win").
Definition loss_p2 : attempt_row :=
  mkAttempt "p2" (Some "2024-01-05T18:45:10Z") (Some "loss").
Definition null_p3 : attempt_row :=
  mkAttempt "p3" (Some "2024-01-05") None.
Definition malformed_p4 : attempt_row :=
  mkAttempt "p4" (Some "not-a-timestamp") (Some "loss").

(** Rows of the [srs] table. *)
Definition seeded (d : date) : srs_row :=
  mkRow (Some 0) 1 "loss" d (Some (add_days d 1)).
Definition streak5 : srs_row :=
  mkRow (Some 5) 30 "win" (mkDate 2023 12 1) (Some (mkDate 2023 12 31)).
Definition won_once : srs_row :=
  mkRow (Some 1) 2 "win" jan2 (Some (mkDate 2024 1 4)).
Definition won_twice : srs_row :=
  mkRow (Some 2) 4 "win" jan2 (Some (mkDate 2024 1 6)).



(** The state after the first losses of "p1", "p2" and "p3". *)
Definition three_seeded : run_state :=
  mkState (<["p1" := seeded jan1]> (<["p2" := seeded jan5]> (<["p3" := seeded jan5]> ∅)))
          3 0.

End Sample.

(** ** The environment

    [os.environ] is a finite map from names to texts; [os.getenv(name)] is
    its lookup. *)

Module PyEnv.


(** The character of a decimal digit. *)
Definition digit_char (d : Z) : ascii := ascii_of_nat (Z.to_nat d + 48).

(** The decimal digits of [n >= 0], most significant first, before [acc];
    [fuel] bounds the number of digits. *)
Fixpoint str_nat (fuel : nat) (n : Z) (acc : string) : string :=
  match fuel with
  | O => acc
  | S fuel' =>
      let acc' := String (digit_char (n mod 10)) acc in
      if n <? 10 then acc' else str_nat fuel' (n / 10) acc'
  end.

(** [str(n)] on an integer. *)
Definition str_int (n : Z) : string :=
  if n <? 0 then String "-" (str_nat (S (Z.to_nat (Z.log2 (- n)))) (- n) "")
  else str_nat (S (Z.to_nat (Z.log2 n))) n "".

(** The digits of an [int(...)] literal: decimal digits, with single
    underscores between digits. [after_digit] tells whether the character
    before was a digit. *)
Fixpoint int_body (acc : Z) (after_digit : bool) (s : string) : option Z :=
  match s with
  | EmptyString => if after_digit then Some acc else None
  | String ch s' =>
      match Py.decimal ch with
      | Some d => int_body (acc * 10 + d) true s'
      | None =>
          if Ascii.eqb ch "_" && after_digit then int_body acc false s'
          else None
      end
  end.

(** The blanks [int] skips around a literal: those of [isspace] but the
    separators 28 to 31. *)
Definition int_space (ch : ascii) : bool :=
  let c := nat_of_ascii ch in
  ((Nat.leb 9 c && Nat.leb c 13) || Nat.eqb c 32 || Nat.eqb c 133
   || Nat.eqb c 160)%bool.

(** [s.strip(chars)], the characters given by a predicate. *)
Fixpoint lstrip_by (p : ascii -> bool) (s : string) : string :=
  match s with
  | EmptyString => EmptyString
  | String ch s' => if p ch then lstrip_by p s' else s
  end.

Fixpoint rstrip_by (p : ascii -> bool) (s : string) : string :=
  match s with
  | EmptyString => EmptyString
  | String ch s' =>
      match rstrip_by p s' with
      | EmptyString => if p ch then EmptyString else String ch EmptyString
      | t => String ch t
      end
  end.

Definition strip_by (p : ascii -> bool) (s : string) : string :=
  rstrip_by p (lstrip_by p s).

(** The literal [int] converts: at most [max_str_digits] digits. *)
Definition int_literal (s : string) : option Z :=
  if max_str_digits <? count_digits s then None else int_body 0 false s.

(** [int(s)] on a text, base 10: blanks around, an optional sign, digits;
    [None] when it raises [ValueError]. *)
Definition int_text (s : string) : option Z :=
  match strip_by int_space s with
  | String "+" r => int_literal r
  | String "-" r => Z.opp <$> int_literal r
  | t => int_literal t
  end.

(** [s.split("#", 1)[0]]: the text before the first ["#"]. *)
Fixpoint before_hash (s : string) : string :=
  match s with
  | EmptyString => EmptyString
  | String ch s' =>
      if Ascii.eqb ch "#" then EmptyString else String ch (before_hash s')
  end.

End PyEnv.

Import PyEnv.



(** [_env_int]: an inline comment is dropped, and anything [int] refuses
    gives the default. *)
Definition _env_int (environ : gmap string string) (name : string)
    (default : Z) : Z :=
  let v := from_option id (str_int default) (environ !! name) in
  let v := Py.strip (before_hash v) in
  match int_text v with
  | Some n => n
  | None => default
  end.


(** ** Words for the statements about [run] *)

(** The latest result [run] computes for a row of [SQL_LAST_ATTEMPT]. *)
Definition result_of (r : attempt_row) : string :=
  Py.lower (or_none_str (last_result_col r) "loss").

(** The latest result is a win and wins are not tracked. *)
Definition untracked_win (cfg : config) (r : attempt_row) : bool :=
  String.eqb (result_of r) "win" && negb (TRACK_WINS cfg).

(** The row is one [run] processes: [changed_pids] does not pass over it. *)
Definition selected (changed_pids : option (list string)) (r : attempt_row) : bool :=
  negb (skipped changed_pids (puzzle_id r)).

(** The tables reached from the empty one by runs whose configurations
    satisfy [ok]. *)
Inductive table_under (fromisoformat : string -> option datetime)
    (local_utcoffset : Z -> Z) (ok : config -> Prop)
  : gmap string srs_row -> Prop :=
| under_empty : table_under fromisoformat local_utcoffset ok ∅
| under_run (cfg : config) (rows : list attempt_row)
    (changed_pids : option (list string)) (s : gmap string srs_row) :
    ok cfg ->
    table_under fromisoformat local_utcoffset ok s ->
    table_under fromisoformat local_utcoffset ok
      (srs_after s (run fromisoformat local_utcoffset cfg rows s changed_pids)).

(** ** The caller in [serve.py] *)

(** [_recompute_srs_single]: nothing when [compute_srs] could not be
    imported, else [run(changed_pids=[puzzle_id] if puzzle_id else None)].
    [run] raises no [TypeError], so the fallbacks behind [except TypeError]
    are not reached and what [run] raises leaves this function too. *)
Definition _recompute_srs_single (fromisoformat : string -> option datetime)
    (local_utcoffset : Z -> Z) (cfg : config) (compute_imported : bool)
    (rows : list attempt_row) (s0 : gmap string srs_row)
    (puzzle_id : option string) : option outcome :=
  if compute_imported then
    Some (run fromisoformat local_utcoffset cfg rows s0
            (match puzzle_id with
             | Some (String ch rest) => Some [String ch rest]
             | _ => None
             end))
  else None.

(** Two computations agree: both return the same value, or both raise. *)
Definition agree {A : Type} (x y : res A) : Prop :=
  match x, y with
  | Ok a, Ok b => a = b
  | Raise _, Raise _ => True
  | _, _ => False
  end.

(** The polynomial [base * 131^n + c1 * 131^(n-1) + ... + cn] over the
    characters of an identifier, without the mask of [_seed_offset_days]. *)
Fixpoint seed_poly (base : Z) (puzzle_id : string) : Z :=
  match puzzle_id with
  | EmptyString => base
  | String ch rest => seed_poly (base * 131 + ord ch) rest
  end.

(** The streak and the dates of a row are well formed: a streak that is
    not NULL nor negative, at least 1 on a win, and of 64 bits as the
    interval is; a date of review of the calendar, in the years 1 to 9999;
    a due date that is NULL or the date of the calendar [interval_days]
    days after the review, not after 9999-12-31; a result in lower case. *)
Definition row_wellformed (e : srs_row) : Prop :=
  (exists n, success_streak e = Some n /\ 0 <= n <= 9223372036854775807
             /\ (last_result e = "win" -> 1 <= n))
  /\ int64 (interval_days e) = true
  /\ valid (last_reviewed e) = true
  /\ min_day <= days_from_civil (last_reviewed e) <= max_day
  /\ (forall due, due_date e = Some due ->
        valid due = true
        /\ 0 <= interval_days e
        /\ days_from_civil due
           = days_from_civil (last_reviewed e) + interval_days e
        /\ days_from_civil due <= max_day)
  /\ Py.lower (last_result e) = last_result e.

(** ** Words for the statements about the environment *)

(** Every character is a decimal digit. *)
Fixpoint digits_only (s : string) : bool :=
  match s with
  | EmptyString => true
  | String ch r => bool_decide (is_Some (Py.decimal ch)) && digits_only r
  end.

(** Every character is a blank of [str.strip]. *)
Fixpoint blanks (s : string) : bool :=
  match s with
  | EmptyString => true
  | String ch r => Py.isspace ch && blanks r
  end.

(** Every character is an ASCII character (a code point below 128). *)
Fixpoint ascii_only (s : string) : bool :=
  match s with
  | EmptyString => true
  | String ch r => Nat.ltb (nat_of_ascii ch) 128 && ascii_only r
  end.

(** [",".join(l)]. *)
Fixpoint join_commas (l : list string) : string :=
  match l with
  | [] => EmptyString
  | [x] => x
  | x :: rest => x ++ String "," (join_commas rest)
  end.

(** An integer [str] and [int] convert: one of at most [max_str_digits]
    digits. *)
Definition convertible (n : Z) : Prop := Z.abs n < 10 ^ max_str_digits.

(** ** [load_dotenv] of [update.py] *)

Module Dotenv.

(** The line boundaries of [str.splitlines] among the code points below
    256. *)
Definition linebreak (ch : ascii) : bool :=
  let c := nat_of_ascii ch in
  ((Nat.leb 10 c && Nat.leb c 13) || (Nat.leb 28 c && Nat.leb c 30)
   || Nat.eqb c 133)%bool.

(** [s.splitlines()]: [cur] holds the characters of the current line, last
    first; a carriage return followed by a line feed is one boundary, and a
    boundary at the end opens no further line. *)
Fixpoint splitlines_from (cur : list ascii) (s : string) : list string :=
  match s with
  | EmptyString =>
      match cur with
      | [] => []
      | _ => [string_of_list_ascii (rev cur)]
      end
  | String ch s' =>
      if linebreak ch then
        string_of_list_ascii (rev cur)
        :: match s' with
           | String ch' s'' =>
               if Ascii.eqb ch "013" && Ascii.eqb ch' "010"
               then splitlines_from [] s''
               else splitlines_from [] s'
           | EmptyString => splitlines_from [] s'
           end
      else splitlines_from (ch :: cur) s'
  end.

Definition splitlines (s : string) : list string := splitlines_from [] s.

(** [line.startswith("#")]. *)
Definition startswith_hash (s : string) : bool :=
  match s with
  | String ch _ => Ascii.eqb ch "#"
  | EmptyString => false
  end.

(** ["=" in line]. *)
Fixpoint has_eq (s : string) : bool :=
  match s with
  | EmptyString => false
  | String ch s' => Ascii.eqb ch "=" || has_eq s'
  end.

(** [line.split("=", 1)] on a line that holds ["="]: what is before the
    first one, and what is after. *)
Fixpoint split_eq (s : string) : string * string :=
  match s with
  | EmptyString => (EmptyString, EmptyString)
  | String ch s' =>
      if Ascii.eqb ch "=" then (EmptyString, s')
      else let '(k, v) := split_eq s' in (String ch k, v)
  end.

(** The text holds the character NUL, which [os.environ] refuses. *)
Fixpoint has_nul (s : string) : bool :=
  match s with
  | EmptyString => false
  | String ch s' => Ascii.eqb ch "000" || has_nul s'
  end.

Definition squote (ch : ascii) : bool := Ascii.eqb ch "'".
Definition dquote (ch : ascii) : bool := Ascii.eqb ch "034".

End Dotenv.

(** The loop of [load_dotenv] over the lines of the file. *)
Fixpoint dotenv_lines (lines : list string) (environ : gmap string string)
  : res (gmap string string) :=
  match lines with
  | [] => Ok environ
  | line :: rest =>
      let line := Py.strip line in
      if match line with EmptyString => true | _ => Dotenv.startswith_hash line end
      then dotenv_lines rest environ
      else if negb (Dotenv.has_eq line) then dotenv_lines rest environ
      else
        let '(k, v) := Dotenv.split_eq line in
        let k := Py.strip k in
        let v := strip_by Dotenv.dquote (strip_by Dotenv.squote (Py.strip v)) in
        match k, environ !! k with
        | String _ _, None =>
            if Dotenv.has_nul k || Dotenv.has_nul v then Raise ValueError
            else dotenv_lines rest (<[k := v]> environ)
        | _, _ => dotenv_lines rest environ
        end
  end.

(** [load_dotenv]: [content] is the text of the file, [None] when the file
    does not exist; the result is [os.environ] afterwards. *)
Definition load_dotenv (content : option string) (environ : gmap string string)
  : res (gmap string string) :=
  match content with
  | None => Ok environ
  | Some text => dotenv_lines (Dotenv.splitlines text) environ
  end.

(** The assignment a line of the file makes, if any: [None] for a blank
    line, a comment, a line without ["="] and a line whose name is empty. *)
Definition dotenv_assignment (line : string) : option (string * string) :=
  let line := Py.strip line in
  if match line with EmptyString => true | _ => Dotenv.startswith_hash line end
  then None
  else if negb (Dotenv.has_eq line) then None
  else
    let '(k, v) := Dotenv.split_eq line in
    match Py.strip k with
    | EmptyString => None
    | k' => Some (k', strip_by Dotenv.dquote (strip_by Dotenv.squote (Py.strip v)))
    end.

(** The value of the first assignment of [name] among the lines, if any. *)
Fixpoint first_assignment (lines : list string) (name : string) : option string :=
  match lines with
  | [] => None
  | line :: rest =>
      match dotenv_assignment line with
      | Some (k, v) =>
          if String.eqb k name then Some v else first_assignment rest name
      | None => first_assignment rest name
      end
  end.

(** The text holds no line boundary. *)
Fixpoint one_line (s : string) : bool :=
  match s with
  | EmptyString => true
  | String ch s' => negb (Dotenv.linebreak ch) && one_line s'
  end.

(** A name as a line of the file can give it: not empty, no blank at
    either end, no ["="], not starting a comment, and without NUL. *)
Definition dotenv_name (k : string) : Prop :=
  k <> EmptyString /\ Py.strip k = k /\ Dotenv.has_eq k = false
  /\ Dotenv.startswith_hash k = false /\ Dotenv.has_nul k = false.

(** A value as a line of the file can give it: no blank and no quote at
    either end, and without NUL. *)
Definition dotenv_value (v : string) : Prop :=
  Py.strip v = v /\ strip_by Dotenv.squote v = v
  /\ strip_by Dotenv.dquote v = v /\ Dotenv.has_nul v = false.

(** ** Sample environments and tables *)

Module SampleEnv.

(** [SRS_STAGGER_BUCKETS] with blanks and an inline comment. *)
Definition buckets_env : gmap string string :=
  <["SRS_STAGGER_BUCKETS" := " 5 # buckets"]> ∅.

(** An environment without any [SRS_*] variable. *)
Definition home_env : gmap string string := <["HOME" := "/root"]> ∅.

(** A file of two assignments, and an environment that defines the second. *)
Definition two_lines : string := "A=1" ++ String "010" "B=2".
Definition b_old : gmap string string := <["B" := "old"]> ∅.
Definition a_added : gmap string string := <["A" := "1"]> (<["B" := "old"]> ∅).

(** A file that assigns [A] twice, and the environment it gives. *)
Definition a_twice : string := "A=1" ++ String "010" "A=2".
Definition a_first : gmap string string := <["A" := "1"]> ∅.

(** The environment after [DB_PATH = './db/x.sqlite3']. *)
Definition db_path_env : gmap string string :=
  <["DB_PATH" := "./db/x.sqlite3"]> ∅.

(** A table that holds a row for "p3" only. *)
Definition p3_table : gmap string srs_row :=
  <["p3" := Sample.seeded Sample.jan5]> ∅.

(** The state after the first loss of "p1" alone. *)
Definition p1_seeded : run_state :=
  mkState (<["p1" := Sample.seeded Sample.jan1]> ∅) 1 0.

(** The state after the first losses of "p1" and "p2". *)
Definition two_seeded : run_state :=
  mkState (<["p1" := Sample.seeded Sample.jan1]>
             (<["p2" := Sample.seeded Sample.jan5]> ∅)) 2 0.

(** A process two hours east of Greenwich. *)
Definition east2 (instant : Z) : Z := 7200.

End SampleEnv.
(** * Properties *)

(** ** The calendar *)

Lemma yoe_of_doe_range (doe : Z) :
  0 <= doe < 146097 -> 0 <= yoe_of_doe doe <= 399.
Proof.
  intros H. unfold yoe_of_doe. Z.div_mod_to_equations. lia.
Qed.

Lemma doy_of_doe_range (doe : Z) :
  0 <= doe < 146097 -> 0 <= doy_of_doe doe <= 365.
Proof.
  intros H. unfold doy_of_doe, yoe_of_doe. Z.div_mod_to_equations. lia.
Qed.

(** The day number of the civil date of a day number is that day number. *)
Lemma days_from_civil_from_days (z : Z) :
  days_from_civil (civil_from_days z) = z.
Proof.
  unfold civil_from_days.
  set (z' := z + 719468).
  set (era := z' / 146097).
  set (doe := z' - era * 146097).
  assert (Hdoe : 0 <= doe < 146097).
  { subst doe era. Z.div_mod_to_equations. lia. }
  pose proof (yoe_of_doe_range doe Hdoe) as Hyoe.
  pose proof (doy_of_doe_range doe Hdoe) as Hdoy.
  set (yoe := yoe_of_doe doe) in *.
  set (doy := doy_of_doe doe) in *.
  set (mp := (5 * doy + 2) / 153).
  assert (Hmp : 0 <= mp <= 11).
  { subst mp. Z.div_mod_to_equations. lia. }
  assert (Hdoy' : doy = doe - (365 * yoe + yoe / 4 - yoe / 100)) by reflexivity.
  clearbody yoe doy mp.
  unfold days_from_civil. cbn [year month day].
  destruct (Z.ltb_spec mp 10) as [Hlt | Hge].
  - assert (Hm : (mp + 3 <=? 2) = false) by lia.
    assert (Hm' : (mp + 3 >? 2) = true) by lia.
    rewrite Hm, Hm'.
    replace ((yoe + era * 400) / 400) with era
      by (Z.div_mod_to_equations; lia).
    replace (mp + 3 - 3) with mp by lia.
    subst doe z'. Z.div_mod_to_equations. lia.
  - assert (Hm : (mp - 9 <=? 2) = true) by lia.
    assert (Hm' : (mp - 9 >? 2) = false) by lia.
    rewrite Hm, Hm'.
    replace ((yoe + era * 400 + 1 - 1) / 400) with era
      by (Z.div_mod_to_equations; lia).
    replace (mp - 9 + 9) with mp by lia.
    subst doe z'. Z.div_mod_to_equations. lia.
Qed.

(** [add_days] advances the day number by exactly [n]. *)
Lemma days_from_civil_add_days (d : date) (n : Z) :
  days_from_civil (add_days d n) = days_from_civil d + n.
Proof. unfold add_days. apply days_from_civil_from_days. Qed.

Lemma yoe_of_doe_inv (yoe doy : Z) :
  0 <= yoe <= 399 ->
  0 <= doy <= 365 ->
  (doy = 365 -> (yoe + 1) mod 4 = 0 /\ ((yoe + 1) mod 100 <> 0 \/ yoe = 399)) ->
  yoe_of_doe (yoe * 365 + yoe / 4 - yoe / 100 + doy) = yoe.
Proof.
  intros Hy Hd Hleap. unfold yoe_of_doe.
  Z.div_mod_to_equations; lia.
Qed.

Lemma doy_365_leap (doe : Z) :
  0 <= doe < 146097 ->
  doy_of_doe doe = 365 ->
  (yoe_of_doe doe + 1) mod 4 = 0
  /\ ((yoe_of_doe doe + 1) mod 100 <> 0 \/ yoe_of_doe doe = 399).
Proof.
  intros Hdoe. unfold doy_of_doe, yoe_of_doe.
  Z.div_mod_to_equations; lia.
Qed.

(** The leap years, seen from the year of the era that starts in March. *)
Lemma is_leap_shifted (era yoe : Z) :
  0 <= yoe <= 399 ->
  is_leap (yoe + era * 400 + 1) = true
  <-> (yoe + 1) mod 4 = 0 /\ ((yoe + 1) mod 100 <> 0 \/ yoe = 399).
Proof.
  intros Hy. unfold is_leap.
  rewrite orb_true_iff, andb_true_iff, negb_true_iff, !Z.eqb_eq, Z.eqb_neq.
  Z.div_mod_to_equations; lia.
Qed.

Lemma valid_iff (y m d : Z) :
  valid (mkDate y m d) = true
  <-> 1 <= m <= 12 /\ 1 <= d <= days_in_month y m.
Proof.
  unfold valid. cbn [year month day].
  rewrite !andb_true_iff, !Z.leb_le. tauto.
Qed.

(** The length of the month that starts [mp] months after March. *)
Lemma days_in_month_shifted (y mp : Z) :
  0 <= mp <= 10 ->
  days_in_month y (if mp <? 10 then mp + 3 else mp - 9)
  = (153 * (mp + 1) + 2) / 5 - (153 * mp + 2) / 5.
Proof.
  intros Hmp.
  assert (Hc : mp = 0 \/ mp = 1 \/ mp = 2 \/ mp = 3 \/ mp = 4 \/ mp = 5 \/ mp = 6
               \/ mp = 7 \/ mp = 8 \/ mp = 9 \/ mp = 10) by lia.
  repeat (destruct Hc as [-> | Hc]); [.. | subst mp]; reflexivity.
Qed.

(** Every day number is the day number of a date of the calendar. *)
Lemma civil_from_days_valid (z : Z) : valid (civil_from_days z) = true.
Proof.
  unfold civil_from_days.
  set (z' := z + 719468).
  set (era := z' / 146097).
  set (doe := z' - era * 146097).
  assert (Hdoe : 0 <= doe < 146097).
  { subst doe era. Z.div_mod_to_equations. lia. }
  pose proof (yoe_of_doe_range doe Hdoe) as Hyoe.
  pose proof (doy_of_doe_range doe Hdoe) as Hdoy.
  pose proof (doy_365_leap doe Hdoe) as Hleap.
  set (yoe := yoe_of_doe doe) in *.
  set (doy := doy_of_doe doe) in *.
  clearbody yoe doy.
  set (mp := (5 * doy + 2) / 153).
  assert (Hmp : 0 <= mp <= 11 /\ 153 * mp <= 5 * doy + 2 < 153 * mp + 153)
    by (subst mp; Z.div_mod_to_equations; lia).
  clearbody mp. destruct Hmp as [Hmp Hmpd].
  apply valid_iff. split; [destruct (Z.ltb_spec mp 10); lia |].
  destruct (Z.eq_dec mp 11) as [-> | Hne].
  - (* February *)
    change (if 11 <? 10 then 11 + 3 else 11 - 9) with 2.
    change (2 <=? 2) with true. cbv iota.
    unfold days_in_month. change (2 =? 2) with true. cbv iota.
    change ((153 * 11 + 2) / 5) with 337.
    destruct (is_leap (yoe + era * 400 + 1)) eqn:Hl; [lia |].
    assert (Hn : doy <> 365).
    { intros H365. apply Hleap in H365.
      apply (is_leap_shifted era yoe Hyoe) in H365. congruence. }
    lia.
  - rewrite days_in_month_shifted by lia.
    Z.div_mod_to_equations. lia.
Qed.

(** The civil date of the day number of a date of the calendar is that
    date: day numbers and dates of the calendar are in bijection. *)
Lemma civil_from_days_from_civil (d : date) :
  valid d = true -> civil_from_days (days_from_civil d) = d.
Proof.
  destruct d as [y m dd]. intros Hv. apply valid_iff in Hv as [Hm Hd].
  unfold days_from_civil. cbn [year month day].
  set (y' := if m <=? 2 then y - 1 else y).
  set (era := y' / 400).
  set (yoe := y' - era * 400).
  assert (Hyoe : 0 <= yoe <= 399) by (subst yoe era; Z.div_mod_to_equations; lia).
  set (mp := if m >? 2 then m - 3 else m + 9).
  assert (Hmp : 0 <= mp <= 11) by (subst mp; destruct (Z.gtb_spec m 2); lia).
  assert (Hm' : m = if mp <? 10 then mp + 3 else mp - 9).
  { subst mp. destruct (Z.gtb_spec m 2); destruct (Z.ltb_spec (m - 3) 10);
      destruct (Z.ltb_spec (m + 9) 10); lia. }
  assert (Hy : y = if m <=? 2 then yoe + era * 400 + 1 else yoe + era * 400).
  { subst yoe y'. destruct (m <=? 2); lia. }
  set (doy := (153 * mp + 2) / 5 + (dd - 1)).
  assert (Hdoy : 0 <= doy <= 365
                 /\ (doy = 365 ->
                     (yoe + 1) mod 4 = 0 /\ ((yoe + 1) mod 100 <> 0 \/ yoe = 399))
                 /\ (5 * doy + 2) / 153 = mp).
  { destruct (Z.eq_dec mp 11) as [Hmp11 | Hne].
    - assert (Hm2 : m = 2)
        by (revert Hmp11; unfold mp; destruct (Z.gtb_spec m 2); lia).
      clear Hm'. clearbody mp. subst m.
      unfold days_in_month in Hd. change (2 =? 2) with true in Hd. cbv iota in Hd.
      change (2 <=? 2) with true in Hy. cbv iota in Hy.
      subst doy. rewrite Hmp11. change ((153 * 11 + 2) / 5) with 337.
      destruct (is_leap y) eqn:Hl.
      + rewrite Hy in Hl. apply (is_leap_shifted era yoe Hyoe) in Hl.
        split; [lia |]. split; [intros _; exact Hl |].
        Z.div_mod_to_equations. lia.
      + split; [lia |]. split; [lia |]. Z.div_mod_to_equations. lia.
    - rewrite Hm' in Hd. rewrite days_in_month_shifted in Hd by lia.
      subst doy. clearbody mp. split; [| split];
        Z.div_mod_to_equations; lia. }
  destruct Hdoy as (Hdoy & Hleap & Hmpd).
  set (doe := yoe * 365 + yoe / 4 - yoe / 100 + doy).
  assert (Hdoe : 0 <= doe < 146097).
  { subst doe. clearbody doy yoe. Z.div_mod_to_equations. lia. }
  unfold civil_from_days.
  replace (era * 146097 + doe - 719468 + 719468) with (era * 146097 + doe) by lia.
  replace ((era * 146097 + doe) / 146097) with era
    by (Z.div_mod_to_equations; lia).
  replace (era * 146097 + doe - era * 146097) with doe by lia.
  assert (Hyoe' : yoe_of_doe doe = yoe) by (apply yoe_of_doe_inv; assumption).
  assert (Hdoy' : doy_of_doe doe = doy).
  { unfold doy_of_doe. rewrite Hyoe'. subst doe. lia. }
  rewrite Hyoe', Hdoy', Hmpd. rewrite <- Hm'.
  f_equal.
  - rewrite Hy. reflexivity.
  - subst doy. lia.
Qed.

(** Advancing a date of the calendar by no day gives it back, and advancing
    any date gives a date of the calendar. *)
Lemma add_days_valid (d : date) (n : Z) : valid (add_days d n) = true.
Proof. apply civil_from_days_valid. Qed.

Lemma add_days_0 (d : date) : valid d = true -> add_days d 0 = d.
Proof.
  intros Hv. unfold add_days. rewrite Z.add_0_r.
  apply civil_from_days_from_civil. exact Hv.
Qed.

(** ** SQLite's [date]

    What [sql_date] answers: the date [n] days later exactly when SQLite
    reads the base, [n] is not negative and the date is not after
    9999-12-31; NULL otherwise. *)

Lemma sql_date_some (base : date) (n : Z) (due : date) :
  sql_date base (PlusDay n) = Some due
  <-> sql_reads base = true /\ 0 <= n
      /\ days_from_civil base + n <= max_day /\ due = add_days base n.
Proof.
  unfold sql_date.
  destruct (sql_reads base); cbn [andb].
  - destruct (Z.leb_spec 0 n) as [Hn | Hn]; cbn [andb].
    + destruct (Z.leb_spec (days_from_civil base + n) max_day) as [Hm | Hm].
      * split; [intros H; injection H as <-; repeat split; assumption |].
        intros (_ & _ & _ & ->). reflexivity.
      * split; [discriminate | intros (_ & _ & H' & _); lia].
    + split; [discriminate | intros (_ & H' & _); lia].
  - split; [discriminate | intros (H' & _); discriminate].
Qed.


(** A date that is not NULL is a date of the calendar, [n] days after the
    base and not after 9999-12-31. *)
Lemma sql_date_days (base : date) (n : Z) (due : date) :
  sql_date base (PlusDay n) = Some due ->
  valid due = true /\ 0 <= n
  /\ days_from_civil due = days_from_civil base + n
  /\ days_from_civil due <= max_day.
Proof.
  intros H. apply sql_date_some in H as (_ & Hn & Hmax & ->).
  rewrite days_from_civil_add_days.
  split; [apply add_days_valid |]. repeat split; assumption.
Qed.

(** In range, the answer is the date [n] days later. *)
Lemma sql_date_in_range (base : date) (n : Z) :
  sql_reads base = true -> 0 <= n -> days_from_civil base + n <= max_day ->
  sql_date base (PlusDay n) = Some (add_days base n)
  /\ days_from_civil (add_days base n) = days_from_civil base + n.
Proof.
  intros Hr Hn Hmax. split; [| apply days_from_civil_add_days].
  apply sql_date_some. repeat split; assumption.
Qed.

(** The years of the day numbers: a date of the calendar is not after
    9999-12-31 exactly when its year is at most 9999. *)
Lemma days_from_civil_year (d : date) :
  1 <= month d <= 12 -> 1 <= day d <= 31 ->
  (days_from_civil d <= max_day -> year d <= 9999)
  /\ (min_day <= days_from_civil d -> 1 <= year d).
Proof.
  intros Hm Hd. unfold days_from_civil, max_day, min_day.
  destruct (Z.leb_spec (month d) 2) as [Hle | Hgt];
    destruct (Z.gtb_spec (month d) 2) as [Hgt' | Hle']; try lia;
    split; intros H; Z.div_mod_to_equations; lia.
Qed.

Lemma valid_month_day (d : date) :
  valid d = true -> 1 <= month d <= 12 /\ 1 <= day d <= 31.
Proof.
  unfold valid, days_in_month. intros H.
  apply andb_prop in H as [H H4]. apply andb_prop in H as [H H3].
  apply andb_prop in H as [H1 H2].
  apply Z.leb_le in H1, H2, H3, H4.
  split; [lia |]. split; [lia |].
  destruct (month d =? 2); [destruct (is_leap (year d)); lia |].
  destruct ((month d =? 4) || (month d =? 6) || (month d =? 9) || (month d =? 11));
    lia.
Qed.

(** SQLite reads a date of the calendar in the years 1000 to 9999. *)
Lemma sql_reads_valid (d : date) :
  valid d = true -> days_from_civil d <= max_day ->
  sql_reads d = (1000 <=? year d).
Proof.
  intros Hv Hmax. destruct (valid_month_day d Hv) as [Hm Hd].
  pose proof (proj1 (days_from_civil_year d Hm Hd) Hmax) as Hy.
  unfold sql_reads.
  destruct (Z.leb_spec 1000 (year d)); cbn [andb]; [| reflexivity].
  repeat (match goal with
          | |- context [?a <=? ?b] =>
              let H := fresh in
              destruct (Z.leb_spec a b) as [H | H]; [cbn [andb] | lia]
          end).
  reflexivity.
Qed.

(** ** Python primitives *)

Lemma index_in_range (l : list Z) (i : Z) :
  0 <= i < Z.of_nat (length l) ->
  exists x, l !! Z.to_nat i = Some x /\ Py.index l i = Ok x.
Proof.
  intros Hi. unfold Py.index.
  assert (Hneg : (i <? 0) = false) by lia. rewrite Hneg.
  assert (Hin : (0 <=? i) && (i <? Z.of_nat (length l)) = true) by lia.
  rewrite Hin.
  destruct (l !! Z.to_nat i) as [x |] eqn:Hx.
  - exists x. split; reflexivity.
  - apply lookup_ge_None in Hx. lia.
Qed.

Lemma index_last (l : list Z) :
  l <> [] ->
  exists x, last l = Some x /\ Py.index l (Z.of_nat (length l) - 1) = Ok x.
Proof.
  intros Hne.
  assert (Hlen : (0 < length l)%nat) by (destruct l; [congruence | simpl; lia]).
  destruct (index_in_range l (Z.of_nat (length l) - 1)) as [x [Hx Hi]]; [lia |].
  exists x. split; [| exact Hi].
  rewrite last_lookup.
  replace (Nat.pred (length l)) with (Z.to_nat (Z.of_nat (length l) - 1)) by lia.
  exact Hx.
Qed.

Lemma index_head (l : list Z) :
  match l with
  | [] => Py.index l 0 = Raise IndexError
  | x :: _ => Py.index l 0 = Ok x
  end.
Proof.
  destruct l as [| x l']; [reflexivity |].
  destruct (index_in_range (x :: l') 0) as [y [Hy Hi]].
  - cbn [length]. lia.
  - cbn in Hy. injection Hy as <-. exact Hi.
Qed.

Lemma index_empty (i : Z) : Py.index [] i = Raise IndexError.
Proof.
  unfold Py.index. change (Z.of_nat (length (@nil Z))) with 0.
  generalize (if i <? 0 then 0 + i else i). intros j.
  destruct (Z.leb_spec 0 j) as [H0 | H0]; [| reflexivity].
  destruct (Z.ltb_spec j 0) as [H1 | H1]; [lia | reflexivity].
Qed.


Lemma contains_elem_of (l : list string) (x : string) :
  Py.contains l x = true <-> x ∈ l.
Proof.
  unfold Py.contains. rewrite existsb_exists. split.
  - intros [y [Hin Heq]]. apply String.eqb_eq in Heq. subst y.
    apply list_elem_of_In. exact Hin.
  - intros Hin. exists x. split; [apply list_elem_of_In; exact Hin |].
    apply String.eqb_refl.
Qed.

Lemma or_int_nonneg (s : Z) : 0 <= s -> or_int s 1 = Z.max s 1.
Proof. intros H. unfold or_int. destruct (Z.eqb_spec s 0); lia. Qed.

(** ** Configuration: a parsed cadence is never empty *)

(** What [int] returns on a text of digits: its value, the text having no
    more digits than [int] converts. *)
Lemma int_digits_inv (s : string) (n : Z) :
  Py.int_digits s = Ok n ->
  Py.digits_value 0 s = Ok n /\ count_digits s <= max_str_digits.
Proof.
  unfold Py.int_digits.
  destruct (Z.ltb_spec max_str_digits (count_digits s)) as [Hlt | Hle];
    [discriminate |].
  intros H. split; [exact H | lia].
Qed.

Lemma count_digits_nonneg (s : string) : 0 <= count_digits s.
Proof.
  induction s as [| ch s IH]; [cbn; lia |]. cbn [count_digits].
  destruct (Py.decimal ch); lia.
Qed.

Lemma digits_value_bound (s : string) :
  forall acc n, 0 <= acc -> Py.digits_value acc s = Ok n ->
    0 <= n < (acc + 1) * 10 ^ count_digits s.
Proof.
  induction s as [| ch s IH]; intros acc n Hacc H; cbn [Py.digits_value] in H.
  - injection H as <-. cbn [count_digits]. lia.
  - cbn [count_digits]. unfold Py.decimal in *.
    destruct (Nat.leb 48 (nat_of_ascii ch) && Nat.leb (nat_of_ascii ch) 57)%bool eqn:Hd;
      [| discriminate].
    apply andb_prop in Hd as [H1 H2]. apply Nat.leb_le in H1, H2.
    pose proof (count_digits_nonneg s) as Hc.
    specialize (IH (acc * 10 + (Z.of_nat (nat_of_ascii ch) - 48)) n ltac:(lia) H).
    rewrite Z.pow_add_r, Z.pow_1_r by lia.
    assert (Hp : 0 < 10 ^ count_digits s) by (apply Z.pow_pos_nonneg; lia).
    nia.
Qed.

(** The numbers [int] returns on a text of digits. *)
Lemma int_digits_bound (s : string) (n : Z) :
  Py.int_digits s = Ok n -> 0 <= n < 10 ^ max_str_digits.
Proof.
  intros H. apply int_digits_inv in H as [H Hc].
  apply digits_value_bound in H; [| lia].
  pose proof (count_digits_nonneg s) as H0.
  assert (Hle : 10 ^ count_digits s <= 10 ^ max_str_digits)
    by (apply Z.pow_le_mono_r; lia).
  lia.
Qed.

Lemma parse_cadence_parts_bounded (parts : list string) (out : list Z) :
  parse_cadence_parts parts = Ok out ->
  Forall (fun n => 0 <= n < 10 ^ max_str_digits) out.
Proof.
  revert out. induction parts as [| part rest IH]; intros out H; cbn in H.
  - injection H as <-. constructor.
  - destruct (Py.isdigit (Py.strip part)).
    + destruct (Py.int_digits (Py.strip part)) as [n |] eqn:Hn; [| discriminate].
      cbn in H.
      destruct (parse_cadence_parts rest) as [out' |]; [| discriminate].
      cbn in H. injection H as <-. constructor.
      * exact (int_digits_bound _ _ Hn).
      * apply IH. reflexivity.
    + apply IH. exact H.
Qed.

Lemma parse_cadence_parts_nonneg (parts : list string) (out : list Z) :
  parse_cadence_parts parts = Ok out -> Forall (fun n => 0 <= n) out.
Proof.
  intros H. apply parse_cadence_parts_bounded in H.
  eapply Forall_impl; [exact H |]. cbn. intros n Hn. lia.
Qed.

Lemma parse_cadence_nonempty (s : option string) (fallback cad : list Z) :
  fallback <> [] -> _parse_cadence s fallback = Ok cad -> cad <> [].
Proof.
  intros Hfb. unfold _parse_cadence.
  destruct (parse_cadence_parts (Py.split_comma (default "" s))) as [out |];
    [| discriminate].
  cbn. intros H. injection H as <-. destruct out; [exact Hfb | discriminate].
Qed.

(** ** The interval of a streak *)

Lemma next_interval_days_index (cfg : config) (streak : Z) (for_win : bool) :
  _next_interval_days cfg streak for_win
  = Py.index (cadence cfg for_win)
      (Z.min (Z.max streak 1 - 1) (Z.of_nat (length (cadence cfg for_win)) - 1)).
Proof. reflexivity. Qed.


(** With a cadence that is not empty the lookup returns. *)
Lemma next_interval_days_total (cfg : config) (streak : Z) (for_win : bool) :
  cadence cfg for_win <> [] ->
  exists x, _next_interval_days cfg streak for_win = Ok x.
Proof.
  intros Hne. rewrite next_interval_days_index.
  assert (Hlen : (0 < length (cadence cfg for_win))%nat)
    by (destruct (cadence cfg for_win); [congruence | simpl; lia]).
  destruct (index_in_range (cadence cfg for_win)
              (Z.min (Z.max streak 1 - 1) (Z.of_nat (length (cadence cfg for_win)) - 1)))
    as [x [_ Hx]]; [lia |].
  exists x. exact Hx.
Qed.

(** From the length of the cadence on, the lookup returns its last entry. *)
Lemma next_interval_days_last (cfg : config) (s : Z) (for_win : bool) :
  cadence cfg for_win <> [] ->
  Z.of_nat (length (cadence cfg for_win)) <= s ->
  exists x, last (cadence cfg for_win) = Some x
            /\ _next_interval_days cfg s for_win = Ok x.
Proof.
  intros Hne Hs.
  assert (Hlen : (0 < length (cadence cfg for_win))%nat)
    by (destruct (cadence cfg for_win); [congruence | simpl; lia]).
  rewrite next_interval_days_index.
  replace (Z.min (Z.max s 1 - 1) (Z.of_nat (length (cadence cfg for_win)) - 1))
    with (Z.of_nat (length (cadence cfg for_win)) - 1) by lia.
  apply index_last. exact Hne.
Qed.

(** The cadences the program configures are parsed by [_parse_cadence] with
    a fallback that is not empty: they saturate without raising. *)
Lemma parsed_cadence_saturates (cfg : config) (env : option string)
    (fallback : list Z) (s : Z) (for_win : bool) :
  fallback <> [] ->
  _parse_cadence env fallback = Ok (cadence cfg for_win) ->
  Z.of_nat (length (cadence cfg for_win)) <= s ->
  exists x, last (cadence cfg for_win) = Some x
            /\ _next_interval_days cfg s for_win = Ok x.
Proof.
  intros Hfb Hparse. apply next_interval_days_last.
  exact (parse_cadence_nonempty env fallback _ Hfb Hparse).
Qed.

(** C6. Saturation: for a streak [s] larger than the length of the cadence
    table, [_next_interval_days] answers as for [s = len(cadence)]; on a
    table that is not empty (what [_parse_cadence] guarantees, see
    [parsed_cadence_saturates]) that answer is the last entry of the table,
    returned without raising. *)
Theorem next_interval_days_saturates (cfg : config) (for_win : bool) (s : Z) :
  Z.of_nat (length (cadence cfg for_win)) < s ->
  _next_interval_days cfg s for_win
  = _next_interval_days cfg (Z.of_nat (length (cadence cfg for_win))) for_win
  /\ (cadence cfg for_win <> [] ->
      exists x, last (cadence cfg for_win) = Some x
                /\ _next_interval_days cfg s for_win = Ok x
                /\ _next_interval_days cfg (Z.of_nat (length (cadence cfg for_win)))
                     for_win = Ok x).
Proof.
  intros Hs. split.
  - rewrite !next_interval_days_index. f_equal. lia.
  - intros Hne.
    destruct (next_interval_days_last cfg s for_win Hne ltac:(lia)) as (x & Hx & Hs').
    destruct (next_interval_days_last cfg _ for_win Hne (Z.le_refl _)) as (y & Hy & Hn).
    exists x. split; [exact Hx |]. split; [exact Hs' |].
    rewrite Hn. congruence.
Qed.

(** ** The seed interval *)


Lemma seed_offset_days_positive (cfg : config) (puzzle_id : string) :
  1 <= _seed_offset_days cfg puzzle_id.
Proof.
  unfold _seed_offset_days.
  destruct (String.eqb (SEED_MODE cfg) "stagger"); [| lia].
  unfold or_int.
  pose proof (Z.mod_pos_bound (seed_hash 0 puzzle_id) (Z.max (STAGGER_BUCKETS cfg) 1)
                ltac:(lia)) as Hb.
  destruct (Z.eqb_spec (seed_hash 0 puzzle_id mod Z.max (STAGGER_BUCKETS cfg) 1) 0); lia.
Qed.

(** C10. Stagger seeding: with [SEED_MODE = "stagger"] and [b] buckets the
    seed interval is the hash modulo [b] with 0 remapped to 1; for [b >= 2]
    it lies in [1 .. b-1] and is never [b]; for [b <= 1] it is 1. *)
Theorem seed_offset_days_stagger_range (cfg : config) (puzzle_id : string) :
  SEED_MODE cfg = "stagger" ->
  (2 <= STAGGER_BUCKETS cfg ->
     _seed_offset_days cfg puzzle_id
     = or_int (seed_hash 0 puzzle_id mod STAGGER_BUCKETS cfg) 1
     /\ 1 <= _seed_offset_days cfg puzzle_id <= STAGGER_BUCKETS cfg - 1
     /\ _seed_offset_days cfg puzzle_id <> STAGGER_BUCKETS cfg)
  /\ (STAGGER_BUCKETS cfg <= 1 -> _seed_offset_days cfg puzzle_id = 1).
Proof.
  intros Hmode. unfold _seed_offset_days. rewrite Hmode. cbn [String.eqb Ascii.eqb Bool.eqb].
  split.
  - intros Hb. replace (Z.max (STAGGER_BUCKETS cfg) 1) with (STAGGER_BUCKETS cfg) by lia.
    pose proof (Z.mod_pos_bound (seed_hash 0 puzzle_id) (STAGGER_BUCKETS cfg) ltac:(lia)) as Hm.
    unfold or_int.
    destruct (Z.eqb_spec (seed_hash 0 puzzle_id mod STAGGER_BUCKETS cfg) 0);
      (split; [reflexivity | lia]).
  - intros Hb. replace (Z.max (STAGGER_BUCKETS cfg) 1) with 1 by lia.
    rewrite Z.mod_1_r. reflexivity.
Qed.

(** ** The decision for one puzzle *)

Lemma decide_action_calc_update (cfg : config) (existing : option srs_row)
    (last_result : string) (d : date) (pid : string) :
  (String.eqb last_result "win" && negb (TRACK_WINS cfg)) = false ->
  decide_action cfg existing last_result d pid
  = (r ← _calc_update cfg existing last_result d pid;
     match r with
     | None => Ok NOOP
     | Some (streak, interval, base_date, plus, _) =>
         Ok (UPSERT (mkRow (Some streak) interval last_result base_date
                       (sql_date base_date plus)))
     end).
Proof. intros H. unfold decide_action. rewrite H. reflexivity. Qed.

(** [streak or 0] reads a NULL streak as 0 and any other as it is. *)
Lemma or_none_int_0 (x : option Z) :
  or_none_int x 0 = match x with Some v => v | None => 0 end.
Proof.
  destruct x as [v |]; [| reflexivity]. cbn. unfold or_int.
  destruct (Z.eqb_spec v 0); congruence.
Qed.

(** C3. Mastery removal: when the latest result is a win and [TRACK_WINS] is
    false, the decision is DELETE if a row exists, whatever it holds, and
    NO-OP otherwise; [_calc_update] itself returns no update; and the turn of
    the loop of [run] for such a puzzle deletes the row (counting it) or
    leaves the state as it is. *)
Theorem untracked_win_deletes (cfg : config) (fromisoformat : string -> option datetime)
    (local_utcoffset : Z -> Z) :
  TRACK_WINS cfg = false ->
  (forall (existing : option srs_row) (d : date) (pid : string),
      decide_action cfg existing "win" d pid
      = Ok (match existing with Some _ => DELETE | None => NOOP end)
      /\ _calc_update cfg existing "win" d pid = Ok None)
  /\ (forall (changed_pids : option (list string)) (r : attempt_row)
        (st : run_state) (d : date),
        Py.lower (or_none_str (last_result_col r) "loss") = "win" ->
        skipped changed_pids (puzzle_id r) = false ->
        _local_date_of_iso fromisoformat local_utcoffset (last_attempt r) = Ok d ->
        run_row fromisoformat local_utcoffset cfg changed_pids r st
        = Ok (match srs st !! puzzle_id r with
              | Some _ => mkState (delete (puzzle_id r) (srs st)) (updated st)
                            (deleted st + 1)
              | None => st
              end)).
Proof.
  intros Htw. split.
  - intros existing d pid. unfold decide_action, _calc_update. rewrite Htw. cbn.
    destruct existing; split; reflexivity.
  - intros changed_pids r st d Hwin Hskip Hdate.
    unfold run_row. rewrite Hskip, Hdate, Hwin. cbn.
    unfold decide_action. rewrite Htw. cbn.
    destruct (srs st !! puzzle_id r); reflexivity.
Qed.


(** The decision for a loss on an existing row, as one equation. *)
Lemma decide_action_existing_loss (cfg : config) (row : srs_row)
    (last_result : string) (d : date) (pid : string) :
  String.eqb last_result "win" = false ->
  let s := match success_streak row with Some v => v | None => 0 end in
  let s' := if RESET_ON_FAIL cfg then 0 else Z.max (s - 1) 0 in
  let idx := Z.min (Z.max s' 1 - 1) (Z.of_nat (length (LOSS_CADENCE cfg)) - 1) in
  decide_action cfg (Some row) last_result d pid
  = (interval ← Py.index (LOSS_CADENCE cfg) idx;
     Ok (UPSERT (mkRow (Some s') interval last_result d
                   (sql_date d (PlusDay interval))))).
Proof.
  intros Hloss s s' idx.
  assert (Hs' : 0 <= s') by (subst s'; destruct (RESET_ON_FAIL cfg); lia).
  unfold decide_action, _calc_update. rewrite Hloss. cbn [andb negb].
  rewrite or_none_int_0. fold s. fold s'. rewrite (or_int_nonneg s' Hs').
  rewrite next_interval_days_index. unfold cadence. cbn [andb].
  replace (Z.max (Z.max s' 1) 1) with (Z.max s' 1) by lia. fold idx.
  destruct (Py.index (LOSS_CADENCE cfg) idx); reflexivity.
Qed.

(** C5. Loss on an existing row whose streak is [s] (a NULL streak counts as
    0): the new streak is 0 under [RESET_ON_FAIL] and [max(s-1, 0)]
    otherwise, the new interval is [LOSS_CADENCE[min(max(new,1)-1, len-1)]],
    [last_reviewed] is the attempt's date and [due_date] is what SQLite's
    [date] answers for that date and the new interval: the date that many
    calendar days later when it exists for SQLite.  With a cadence that is
    not empty the entry exists and the row is upserted. *)
Theorem existing_loss_update (cfg : config) (row : srs_row) (last_result : string)
    (d : date) (pid : string) :
  String.eqb last_result "win" = false ->
  let s := match success_streak row with Some v => v | None => 0 end in
  let s' := if RESET_ON_FAIL cfg then 0 else Z.max (s - 1) 0 in
  let idx := Z.min (Z.max s' 1 - 1) (Z.of_nat (length (LOSS_CADENCE cfg)) - 1) in
  decide_action cfg (Some row) last_result d pid
  = (interval ← Py.index (LOSS_CADENCE cfg) idx;
     Ok (UPSERT (mkRow (Some s') interval last_result d
                   (sql_date d (PlusDay interval)))))
  /\ (LOSS_CADENCE cfg <> [] ->
      exists interval,
        LOSS_CADENCE cfg !! Z.to_nat idx = Some interval
        /\ decide_action cfg (Some row) last_result d pid
           = Ok (UPSERT (mkRow (Some s') interval last_result d
                           (sql_date d (PlusDay interval))))
        /\ (sql_reads d = true -> 0 <= interval ->
            days_from_civil d + interval <= max_day ->
            sql_date d (PlusDay interval) = Some (add_days d interval)
            /\ days_from_civil (add_days d interval)
               = days_from_civil d + interval)).
Proof.
  intros Hloss s s' idx.
  pose proof (decide_action_existing_loss cfg row last_result d pid Hloss) as Hdec.
  cbv zeta in Hdec. fold s in Hdec. fold s' in Hdec. fold idx in Hdec.
  split; [exact Hdec |].
  intros Hne.
  assert (Hlen : (0 < length (LOSS_CADENCE cfg))%nat)
    by (destruct (LOSS_CADENCE cfg); [congruence | simpl; lia]).
  assert (Hs' : 0 <= s') by (subst s'; destruct (RESET_ON_FAIL cfg); lia).
  destruct (index_in_range (LOSS_CADENCE cfg) idx) as [x [Hx Hi]];
    [subst idx; lia |].
  exists x. split; [exact Hx |]. split.
  - rewrite Hdec, Hi. reflexivity.
  - apply sql_date_in_range.
Qed.

(** What an upsert decision holds: the result and the date it was given, a
    streak and an interval that is the seed interval or a cadence entry, and
    the due date [sql_date] computes from them. *)
Lemma decide_action_upsert_inv (cfg : config) (existing : option srs_row)
    (last_result : string) (d : date) (pid : string) (e : srs_row) :
  decide_action cfg existing last_result d pid = Ok (UPSERT e) ->
  exists streak interval,
    e = mkRow (Some streak) interval last_result d (sql_date d (PlusDay interval))
    /\ (String.eqb last_result "win" && negb (TRACK_WINS cfg)) = false
    /\ _calc_update cfg existing last_result d pid
       = Ok (Some (streak, interval, d, PlusDay interval, String.eqb last_result "win"))
    /\ (interval = _seed_offset_days cfg pid
        \/ exists s for_win, _next_interval_days cfg s for_win = Ok interval).
Proof.
  unfold decide_action.
  destruct (String.eqb last_result "win" && negb (TRACK_WINS cfg)) eqn:Hgate.
  - destruct existing; discriminate.
  - unfold _calc_update.
    destruct existing as [row |]; destruct (String.eqb last_result "win") eqn:Hwin;
      destruct (TRACK_WINS cfg) eqn:Htw; try discriminate; cbn [andb negb].
    + destruct (_next_interval_days cfg (or_none_int (success_streak row) 0 + 1) true)
        as [iv |] eqn:Hiv; cbn; [| discriminate].
      intros H. injection H as <-. exists (or_none_int (success_streak row) 0 + 1), iv.
      repeat split; eauto.
    + match goal with
      | |- context [_next_interval_days cfg ?s false] =>
          destruct (_next_interval_days cfg s false) as [iv |] eqn:Hiv
      end; cbn; [| discriminate].
      intros H. injection H as <-. eexists _, iv. repeat split; eauto.
    + match goal with
      | |- context [_next_interval_days cfg ?s false] =>
          destruct (_next_interval_days cfg s false) as [iv |] eqn:Hiv
      end; cbn; [| discriminate].
      intros H. injection H as <-. eexists _, iv. repeat split; eauto.
    + destruct (_next_interval_days cfg (or_int 1 1) true) as [iv |] eqn:Hiv;
        cbn; [| discriminate].
      intros H. injection H as <-. exists 1, iv. repeat split; eauto.
    + cbn. intros H. injection H as <-. eexists 0, _. repeat split; eauto.
    + cbn. intros H. injection H as <-. eexists 0, _. repeat split; eauto.
Qed.

(** A decision for a puzzle that has a row is never NO-OP. *)
Lemma decide_action_existing_not_noop (cfg : config) (row : srs_row)
    (last_result : string) (d : date) (pid : string) :
  decide_action cfg (Some row) last_result d pid <> Ok NOOP.
Proof.
  unfold decide_action, _calc_update.
  destruct (String.eqb last_result "win"); destruct (TRACK_WINS cfg);
    cbn [andb negb]; try discriminate;
    match goal with
    | |- context [_next_interval_days cfg ?s ?w] =>
        destruct (_next_interval_days cfg s w)
    end; cbn; discriminate.
Qed.

(** The date of an attempt is a date of the calendar, in the years 1 to
    9999. *)
Lemma local_date_of_iso_range (fromisoformat : string -> option datetime)
    (local_utcoffset : Z -> Z) (iso_ts : option string) (d : date) :
  _local_date_of_iso fromisoformat local_utcoffset iso_ts = Ok d ->
  valid d = true /\ min_day <= days_from_civil d <= max_day.
Proof.
  unfold _local_date_of_iso.
  destruct iso_ts as [ts |]; [| discriminate].
  destruct (fromisoformat (replace_Z ts)) as [dt |]; [| discriminate].
  cbv zeta.
  destruct (in_datetime_range _); cbn [negb]; [| discriminate].
  match goal with
  | |- context [in_datetime_range ?x] => destruct (in_datetime_range x) eqn:Hr
  end; cbn [negb]; [| discriminate].
  intros H. injection H as <-.
  split; [apply civil_from_days_valid |].
  rewrite days_from_civil_from_days.
  unfold in_datetime_range in Hr. apply andb_prop in Hr as [H1 H2].
  apply Z.leb_le in H1, H2. lia.
Qed.

Lemma local_date_of_iso_valid (fromisoformat : string -> option datetime)
    (local_utcoffset : Z -> Z) (iso_ts : option string) (d : date) :
  _local_date_of_iso fromisoformat local_utcoffset iso_ts = Ok d -> valid d = true.
Proof. intros H. exact (proj1 (local_date_of_iso_range _ _ _ _ H)). Qed.

(** SQLite reads the date of an attempt from the year 1000 on. *)
Lemma local_date_sql_reads (fromisoformat : string -> option datetime)
    (local_utcoffset : Z -> Z) (iso_ts : option string) (d : date) :
  _local_date_of_iso fromisoformat local_utcoffset iso_ts = Ok d ->
  sql_reads d = (1000 <=? year d).
Proof.
  intros H. destruct (local_date_of_iso_range _ _ _ _ H) as [Hv [_ Hmax]].
  apply sql_reads_valid; assumption.
Qed.

(** ** The integers sqlite3 binds *)

Lemma land_mask (x : Z) : Z.land x 2147483647 = x mod 2147483648.
Proof. exact (Z.land_ones x 31 ltac:(lia)). Qed.

Lemma seed_hash_range (s : string) :
  forall base : Z,
    0 <= base < 2147483648 -> 0 <= seed_hash base s < 2147483648.
Proof.
  induction s as [| ch s IH]; intros base Hb; [exact Hb |].
  cbn [seed_hash]. apply IH. rewrite land_mask. apply Z.mod_pos_bound. lia.
Qed.

Lemma index_elem (l : list Z) (i x : Z) : Py.index l i = Ok x -> x ∈ l.
Proof.
  unfold Py.index. intros Hidx.
  destruct ((0 <=? (if i <? 0 then Z.of_nat (length l) + i else i))
            && ((if i <? 0 then Z.of_nat (length l) + i else i) <? Z.of_nat (length l)));
    [| discriminate].
  destruct (l !! Z.to_nat (if i <? 0 then Z.of_nat (length l) + i else i)) as [y |] eqn:Hy;
    [| discriminate].
  injection Hidx as <-. exact (list_elem_of_lookup_2 _ _ _ Hy).
Qed.

Lemma int64_spec (n : Z) :
  int64 n = true <-> - 9223372036854775808 <= n <= 9223372036854775807.
Proof. unfold int64. lia. Qed.

Lemma seed_offset_days_int64 (cfg : config) (pid : string) :
  int64 (_seed_offset_days cfg pid) = true.
Proof.
  pose proof (seed_offset_days_positive cfg pid) as Hp.
  apply int64_spec. split; [lia |].
  unfold _seed_offset_days in *.
  destruct (String.eqb (SEED_MODE cfg) "stagger"); [| lia].
  pose proof (seed_hash_range pid 0 ltac:(lia)) as Hr.
  pose proof (Z.mod_pos_bound (seed_hash 0 pid) (Z.max (STAGGER_BUCKETS cfg) 1)
                ltac:(lia)) as Hb.
  pose proof (Z.mod_le (seed_hash 0 pid) (Z.max (STAGGER_BUCKETS cfg) 1)
                ltac:(lia) ltac:(lia)) as Hle.
  unfold or_int.
  destruct (Z.eqb_spec (seed_hash 0 pid mod Z.max (STAGGER_BUCKETS cfg) 1) 0); lia.
Qed.


(** ** One turn of the loop *)

Lemma run_row_skipped (fromisoformat : string -> option datetime)
    (local_utcoffset : Z -> Z) (cfg : config) (changed_pids : option (list string))
    (r : attempt_row) (st : run_state) :
  skipped changed_pids (puzzle_id r) = true ->
  run_row fromisoformat local_utcoffset cfg changed_pids r st = Ok st.
Proof. intros H. unfold run_row. rewrite H. reflexivity. Qed.

(** A statement that returns has the effect of its decision, and an upsert
    that returns was bound. *)
Lemma execute_action_inv (pid : string) (a : action) (st st' : run_state) :
  execute_action pid a st = Ok st' ->
  st' = apply_action pid a st
  /\ forall e, a = UPSERT e -> upsert_binds e = true.
Proof.
  destruct a as [e | |]; cbn [execute_action].
  - destruct (upsert_binds e) eqn:Hb; [| discriminate].
    intros H. injection H as <-. split; [reflexivity |].
    intros e' He'. injection He' as <-. exact Hb.
  - intros H. injection H as <-. split; [reflexivity | discriminate].
  - intros H. injection H as <-. split; [reflexivity | discriminate].
Qed.

Lemma execute_action_ok (pid : string) (a : action) (st : run_state) :
  (forall e, a = UPSERT e -> upsert_binds e = true) ->
  execute_action pid a st = Ok (apply_action pid a st).
Proof.
  destruct a as [e | |]; cbn [execute_action]; [| reflexivity | reflexivity].
  intros H. rewrite (H e eq_refl). reflexivity.
Qed.

(** The only exception a statement raises is [OverflowError], on an upsert
    that sqlite3 cannot bind. *)
Lemma execute_action_raise (pid : string) (a : action) (st : run_state) (err : exn) :
  execute_action pid a st = Raise err ->
  err = OverflowError /\ exists e, a = UPSERT e /\ upsert_binds e = false.
Proof.
  destruct a as [e | |]; cbn [execute_action]; [| discriminate | discriminate].
  destruct (upsert_binds e) eqn:Hb; [discriminate |].
  intros H. injection H as <-. split; [reflexivity |]. exists e. split; reflexivity || exact Hb.
Qed.

Lemma run_row_unfold (fromisoformat : string -> option datetime)
    (local_utcoffset : Z -> Z) (cfg : config) (changed_pids : option (list string))
    (r : attempt_row) (st : run_state) :
  run_row fromisoformat local_utcoffset cfg changed_pids r st
  = if skipped changed_pids (puzzle_id r) then Ok st
    else
      match _local_date_of_iso fromisoformat local_utcoffset (last_attempt r) with
      | Raise e => Raise e
      | Ok d =>
          match decide_action cfg (srs st !! puzzle_id r)
                  (Py.lower (or_none_str (last_result_col r) "loss")) d (puzzle_id r)
          with
          | Raise e => Raise e
          | Ok a => execute_action (puzzle_id r) a st
          end
      end.
Proof.
  unfold run_row. destruct (skipped changed_pids (puzzle_id r)); [reflexivity |].
  destruct (_local_date_of_iso fromisoformat local_utcoffset (last_attempt r));
    [| reflexivity].
  cbn. destruct (decide_action cfg _ _ _ _); reflexivity.
Qed.

Lemma run_row_inv (fromisoformat : string -> option datetime)
    (local_utcoffset : Z -> Z) (cfg : config) (changed_pids : option (list string))
    (r : attempt_row) (st st' : run_state) :
  run_row fromisoformat local_utcoffset cfg changed_pids r st = Ok st' ->
  (skipped changed_pids (puzzle_id r) = true /\ st' = st)
  \/ (skipped changed_pids (puzzle_id r) = false
      /\ exists d a,
          _local_date_of_iso fromisoformat local_utcoffset (last_attempt r) = Ok d
          /\ decide_action cfg (srs st !! puzzle_id r)
               (Py.lower (or_none_str (last_result_col r) "loss")) d (puzzle_id r)
             = Ok a
          /\ st' = apply_action (puzzle_id r) a st).
Proof.
  rewrite run_row_unfold.
  destruct (skipped changed_pids (puzzle_id r)).
  - intros H. injection H as <-. left. split; reflexivity.
  - destruct (_local_date_of_iso fromisoformat local_utcoffset (last_attempt r))
      as [d |]; [| discriminate].
    destruct (decide_action cfg (srs st !! puzzle_id r)
                (Py.lower (or_none_str (last_result_col r) "loss")) d (puzzle_id r))
      as [a |] eqn:Ha; [| discriminate].
    intros H. apply execute_action_inv in H as [-> _].
    right. split; [reflexivity |].
    exists d, a. repeat split; assumption.
Qed.

(** The row a turn upserts was bound: its streak and its interval are
    integers of 64 bits. *)
Lemma run_row_binds (fromisoformat : string -> option datetime)
    (local_utcoffset : Z -> Z) (cfg : config) (changed_pids : option (list string))
    (r : attempt_row) (st st' : run_state) (d : date) (e : srs_row) :
  run_row fromisoformat local_utcoffset cfg changed_pids r st = Ok st' ->
  skipped changed_pids (puzzle_id r) = false ->
  _local_date_of_iso fromisoformat local_utcoffset (last_attempt r) = Ok d ->
  decide_action cfg (srs st !! puzzle_id r)
    (Py.lower (or_none_str (last_result_col r) "loss")) d (puzzle_id r)
  = Ok (UPSERT e) ->
  upsert_binds e = true.
Proof.
  rewrite run_row_unfold. intros H Hskip Hd Ha. rewrite Hskip, Hd, Ha in H.
  apply execute_action_inv in H as [_ H]. exact (H e eq_refl).
Qed.

Lemma run_rows_cons (fromisoformat : string -> option datetime)
    (local_utcoffset : Z -> Z) (cfg : config) (changed_pids : option (list string))
    (r : attempt_row) (rows : list attempt_row) (st : run_state) :
  run_rows fromisoformat local_utcoffset cfg changed_pids (r :: rows) st
  = match run_row fromisoformat local_utcoffset cfg changed_pids r st with
    | Ok st1 => run_rows fromisoformat local_utcoffset cfg changed_pids rows st1
    | Raise e => Raise e
    end.
Proof. reflexivity. Qed.

(** A turn of the loop reads and writes the row of its own puzzle only. *)
Lemma apply_action_other (pid pid' : string) (a : action) (st : run_state) :
  pid <> pid' -> srs (apply_action pid a st) !! pid' = srs st !! pid'.
Proof.
  intros Hne. destruct a; cbn.
  - apply lookup_insert_ne. exact Hne.
  - apply lookup_delete_ne. exact Hne.
  - reflexivity.
Qed.

Lemma apply_action_same (pid : string) (a : action) (st : run_state) :
  srs (apply_action pid a st) !! pid
  = match a with
    | UPSERT e => Some e
    | DELETE => None
    | NOOP => srs st !! pid
    end.
Proof.
  destruct a; cbn.
  - apply lookup_insert_eq.
  - apply lookup_delete_eq.
  - reflexivity.
Qed.

(** ** The row invariant *)





(** C9. A NULL result: the turn of the loop for a puzzle whose latest attempt
    has no result is the turn for the same puzzle with result "loss"; when
    the date of the attempt is read and [LOSS_CADENCE] is not empty it does
    not skip the puzzle but executes the upsert of the row the decision for
    a loss gives, recorded with [last_result = "loss"] (the upsert raising
    only if sqlite3 cannot bind the row, as for a loss). *)
Theorem null_result_is_loss (fromisoformat : string -> option datetime)
    (local_utcoffset : Z -> Z) (cfg : config) (changed_pids : option (list string))
    (r : attempt_row) (st : run_state) :
  last_result_col r = None ->
  run_row fromisoformat local_utcoffset cfg changed_pids r st
  = run_row fromisoformat local_utcoffset cfg changed_pids
      (mkAttempt (puzzle_id r) (last_attempt r) (Some "loss")) st
  /\ (forall d : date,
        skipped changed_pids (puzzle_id r) = false ->
        _local_date_of_iso fromisoformat local_utcoffset (last_attempt r) = Ok d ->
        LOSS_CADENCE cfg <> [] ->
        exists e : srs_row,
          decide_action cfg (srs st !! puzzle_id r) "loss" d (puzzle_id r) = Ok (UPSERT e)
          /\ last_result e = "loss"
          /\ success_streak e
             = Some (match srs st !! puzzle_id r with
                     | None => 0
                     | Some row =>
                         if RESET_ON_FAIL cfg then 0
                         else Z.max (match success_streak row with
                                     | Some v => v
                                     | None => 0
                                     end - 1) 0
                     end)
          /\ run_row fromisoformat local_utcoffset cfg changed_pids r st
             = (if upsert_binds e
                then Ok (mkState (<[puzzle_id r := e]> (srs st)) (updated st + 1)
                           (deleted st))
                else Raise OverflowError)
          /\ (int64_cadence (LOSS_CADENCE cfg) = true ->
              (forall row, srs st !! puzzle_id r = Some row ->
                           streak_fits row = true) ->
              run_row fromisoformat local_utcoffset cfg changed_pids r st
              = Ok (mkState (<[puzzle_id r := e]> (srs st)) (updated st + 1)
                      (deleted st)))).
Proof.
  intros Hnull. split.
  - unfold run_row. cbn [puzzle_id last_attempt last_result_col].
    rewrite Hnull. reflexivity.
  - intros d Hskip Hdate Hne.
    assert (Hdec : exists e, decide_action cfg (srs st !! puzzle_id r) "loss" d (puzzle_id r)
                             = Ok (UPSERT e)
                             /\ last_result e = "loss"
                             /\ success_streak e
                                = Some (match srs st !! puzzle_id r with
                                        | None => 0
                                        | Some row =>
                                            if RESET_ON_FAIL cfg then 0
                                            else Z.max (match success_streak row with
                                                        | Some v => v
                                                        | None => 0
                                                        end - 1) 0
                                        end)
                             /\ (int64_cadence (LOSS_CADENCE cfg) = true ->
                                 int64 (interval_days e) = true)).
    { destruct (srs st !! puzzle_id r) as [row |].
      - pose proof (decide_action_existing_loss cfg row "loss" d (puzzle_id r) eq_refl)
          as Hd. cbv zeta in Hd.
        set (s' := if RESET_ON_FAIL cfg then 0
                   else Z.max (match success_streak row with
                               | Some v => v
                               | None => 0
                               end - 1) 0) in *.
        destruct (next_interval_days_total cfg (Z.max s' 1) false Hne) as [iv Hiv].
        rewrite next_interval_days_index in Hiv. unfold cadence in Hiv.
        cbn [andb] in Hiv.
        replace (Z.max (Z.max s' 1) 1) with (Z.max s' 1) in Hiv by lia.
        rewrite Hiv in Hd. eexists. split; [exact Hd |].
        split; [reflexivity |]. split; [reflexivity |].
        intros Hc. cbn [interval_days].
        apply index_elem, list_elem_of_In in Hiv.
        unfold int64_cadence in Hc. rewrite forallb_forall in Hc. exact (Hc _ Hiv).
      - unfold decide_action, _calc_update. cbn. eexists. split; [reflexivity |].
        split; [reflexivity |]. split; [reflexivity |].
        intros _. apply seed_offset_days_int64. }
    destruct Hdec as (e & Hd & Hlr & Hst & Hint). exists e.
    split; [exact Hd |]. split; [exact Hlr |]. split; [exact Hst |].
    assert (Hrun : run_row fromisoformat local_utcoffset cfg changed_pids r st
                   = (if upsert_binds e
                      then Ok (mkState (<[puzzle_id r := e]> (srs st)) (updated st + 1)
                                 (deleted st))
                      else Raise OverflowError)).
    { rewrite run_row_unfold, Hskip, Hdate, Hnull.
      change (Py.lower (or_none_str None "loss")) with "loss".
      rewrite Hd. reflexivity. }
    split; [exact Hrun |].
    intros Hc Hfit. rewrite Hrun.
    assert (Hb : upsert_binds e = true); [| rewrite Hb; reflexivity].
    unfold upsert_binds. rewrite (Hint Hc), Hst, andb_true_r.
    cbn [default from_option id]. apply int64_spec.
    destruct (srs st !! puzzle_id r) as [row |]; [| lia].
    destruct (RESET_ON_FAIL cfg); [lia |].
    specialize (Hfit row eq_refl). unfold streak_fits in Hfit.
    destruct (success_streak row) as [v |]; [| lia].
    apply andb_prop in Hfit as [Hv _]. apply int64_spec in Hv. lia.
Qed.

(** ** Applying the decision again *)

(** C2 (as amended). When a first application upserts [E], a second
    application with [E] as the existing row and the same latest attempt is
    never a NO-OP, and it upserts [E] again exactly when the latest result is
    not a win, the streak of [E] is 0 and the interval of [E] is
    [LOSS_CADENCE[0]]; in every other case it differs from [E]. *)
Theorem reapplication_fixed_point (cfg : config) (existing : option srs_row)
    (last_result : string) (d : date) (pid : string) (E : srs_row) :
  decide_action cfg existing last_result d pid = Ok (UPSERT E) ->
  decide_action cfg (Some E) last_result d pid <> Ok NOOP
  /\ (decide_action cfg (Some E) last_result d pid = Ok (UPSERT E)
      <-> String.eqb last_result "win" = false
          /\ success_streak E = Some 0
          /\ Py.index (LOSS_CADENCE cfg) 0 = Ok (interval_days E)).
Proof.
  intros H1. split; [apply decide_action_existing_not_noop |].
  destruct (decide_action_upsert_inv _ _ _ _ _ _ H1) as (s1 & i1 & -> & Hgate & _ & _).
  cbn [success_streak interval_days].
  destruct (String.eqb last_result "win") eqn:Hwin.
  - (* a tracked win: the streak grows at each application *)
    destruct (TRACK_WINS cfg) eqn:Htw; [| discriminate].
    split; [| intros [Hc _]; discriminate].
    intros H2. exfalso.
    destruct (decide_action_upsert_inv _ _ _ _ _ _ H2) as (s2 & i2 & Heq & _ & Hcu & _).
    apply (f_equal success_streak) in Heq. cbn [success_streak] in Heq.
    injection Heq as <-.
    unfold _calc_update in Hcu. rewrite Hwin, Htw in Hcu.
    cbn [success_streak or_none_int andb] in Hcu.
    destruct (_next_interval_days cfg (or_int s1 0 + 1) true) as [iv |];
      cbn in Hcu; [| discriminate].
    injection Hcu as Hs _. unfold or_int in Hs.
    destruct (Z.eqb_spec s1 0); lia.
  - (* a loss *)
    pose proof (decide_action_existing_loss cfg
                  (mkRow (Some s1) i1 last_result d (sql_date d (PlusDay i1)))
                  last_result d pid Hwin) as H2.
    cbv zeta in H2. cbn [success_streak] in H2.
    set (s' := if RESET_ON_FAIL cfg then 0 else Z.max (s1 - 1) 0) in H2.
    assert (Hs'0 : s' = s1 -> s1 = 0).
    { subst s'. destruct (RESET_ON_FAIL cfg); lia. }
    assert (Hs'1 : s1 = 0 -> s' = 0).
    { intros ->. subst s'. destruct (RESET_ON_FAIL cfg); reflexivity. }
    rewrite H2. split.
    + intros H3.
      destruct (Py.index (LOSS_CADENCE cfg)
                  (Z.min (Z.max s' 1 - 1) (Z.of_nat (length (LOSS_CADENCE cfg)) - 1)))
        as [iv |] eqn:Hiv; cbn in H3; [| discriminate].
      assert (Hs : s' = s1 /\ iv = i1).
      { pose proof (f_equal (fun x => match x with
                                      | Ok (UPSERT e) => success_streak e
                                      | _ => None
                                      end) H3) as Hst.
        pose proof (f_equal (fun x => match x with
                                      | Ok (UPSERT e) => interval_days e
                                      | _ => 0
                                      end) H3) as Hint.
        cbn [success_streak interval_days] in Hst, Hint.
        injection Hst as Hst. split; assumption. }
      destruct Hs as [Hs ->].
      pose proof (Hs'0 Hs) as ->. rewrite (Hs'1 eq_refl) in Hiv.
      split; [reflexivity |]. split; [reflexivity |].
      destruct (LOSS_CADENCE cfg) as [| x l].
      * rewrite index_empty in Hiv. discriminate.
      * rewrite <- Hiv. f_equal. cbn [length]. lia.
    + intros (_ & Hs & Hi). injection Hs as ->. rewrite (Hs'1 eq_refl).
      destruct (LOSS_CADENCE cfg) as [| x l] eqn:Hcad.
      * rewrite index_empty in Hi. discriminate.
      * replace (Z.min (Z.max 0 1 - 1) (Z.of_nat (length (x :: l)) - 1)) with 0
          by (cbn [length]; lia).
        rewrite Hi. reflexivity.
Qed.

(** ** The whole run *)

Lemma run_row_ok (fromisoformat : string -> option datetime)
    (local_utcoffset : Z -> Z) (cfg : config) (changed_pids : option (list string))
    (r : attempt_row) (st : run_state) (d : date) (a : action) :
  skipped changed_pids (puzzle_id r) = false ->
  _local_date_of_iso fromisoformat local_utcoffset (last_attempt r) = Ok d ->
  decide_action cfg (srs st !! puzzle_id r)
    (Py.lower (or_none_str (last_result_col r) "loss")) d (puzzle_id r) = Ok a ->
  (forall e, a = UPSERT e -> upsert_binds e = true) ->
  run_row fromisoformat local_utcoffset cfg changed_pids r st
  = Ok (apply_action (puzzle_id r) a st).
Proof.
  intros Hskip Hdate Ha Hb. rewrite run_row_unfold, Hskip, Hdate, Ha.
  apply execute_action_ok. exact Hb.
Qed.

Lemma run_row_malformed (fromisoformat : string -> option datetime)
    (local_utcoffset : Z -> Z) (cfg : config) (changed_pids : option (list string))
    (r : attempt_row) (st : run_state) (e : exn) :
  skipped changed_pids (puzzle_id r) = false ->
  _local_date_of_iso fromisoformat local_utcoffset (last_attempt r) = Raise e ->
  run_row fromisoformat local_utcoffset cfg changed_pids r st = Raise e.
Proof. intros Hskip Hdate. unfold run_row. rewrite Hskip, Hdate. reflexivity. Qed.

(** The decision returns when neither cadence is empty. *)
Lemma decide_action_total (cfg : config) (existing : option srs_row)
    (last_result : string) (d : date) (pid : string) :
  LOSS_CADENCE cfg <> [] -> WIN_CADENCE cfg <> [] ->
  exists a, decide_action cfg existing last_result d pid = Ok a.
Proof.
  intros Hloss Hwin.
  assert (Hcad : forall s w, exists x, _next_interval_days cfg s w = Ok x).
  { intros s w. apply next_interval_days_total. unfold cadence.
    destruct (w && TRACK_WINS cfg); assumption. }
  unfold decide_action, _calc_update.
  destruct (String.eqb last_result "win"); destruct (TRACK_WINS cfg);
    destruct existing as [row |]; cbn [andb negb]; eauto;
    try (match goal with
         | |- context [_next_interval_days cfg ?s ?w] =>
             destruct (Hcad s w) as [x ->]
         end; cbn; eauto).
Qed.

(** C1 (as amended). If the latest attempt of a puzzle the run does not skip
    has a malformed timestamp, the run raises: the transaction is rolled
    back and the [srs] table is what it was before the run; nothing counts
    the puzzle as skipped. *)
Theorem malformed_timestamp_rolls_back (fromisoformat : string -> option datetime)
    (local_utcoffset : Z -> Z) (cfg : config) (rows : list attempt_row)
    (s0 : gmap string srs_row) (changed_pids : option (list string))
    (r : attempt_row) (e : exn) :
  r ∈ rows ->
  skipped changed_pids (puzzle_id r) = false ->
  _local_date_of_iso fromisoformat local_utcoffset (last_attempt r) = Raise e ->
  (exists e', run fromisoformat local_utcoffset cfg rows s0 changed_pids = RolledBack e')
  /\ srs_after s0 (run fromisoformat local_utcoffset cfg rows s0 changed_pids) = s0.
Proof.
  intros Hin Hskip Hdate.
  assert (Hraise : forall st, exists e',
             run_rows fromisoformat local_utcoffset cfg changed_pids rows st = Raise e').
  { induction rows as [| r0 rows IH]; intros st.
    - inversion Hin.
    - rewrite run_rows_cons.
      destruct (run_row fromisoformat local_utcoffset cfg changed_pids r0 st)
        as [st1 | e0] eqn:Hrow; [| exists e0; reflexivity].
      apply elem_of_cons in Hin as [-> | Hin].
      + rewrite (run_row_malformed _ _ _ _ _ _ _ Hskip Hdate) in Hrow. discriminate.
      + apply IH. exact Hin. }
  unfold run. destruct (Hraise (mkState s0 0 0)) as [e' ->].
  split; [exists e' |]; reflexivity.
Qed.

(** ** Incremental and full recomputation *)

(** The turn of a record depends on the table through the row of its puzzle
    only: on two states that hold the same row for it, it raises the same
    exception or applies the same decision. *)
Lemma run_row_congr (fromisoformat : string -> option datetime)
    (local_utcoffset : Z -> Z) (cfg : config) (changed_pids : option (list string))
    (r : attempt_row) (st1 st2 : run_state) :
  srs st1 !! puzzle_id r = srs st2 !! puzzle_id r ->
  match run_row fromisoformat local_utcoffset cfg changed_pids r st1 with
  | Raise e => run_row fromisoformat local_utcoffset cfg changed_pids r st2 = Raise e
  | Ok st1' =>
      (skipped changed_pids (puzzle_id r) = true /\ st1' = st1
       /\ run_row fromisoformat local_utcoffset cfg changed_pids r st2 = Ok st2)
      \/ exists a,
          st1' = apply_action (puzzle_id r) a st1
          /\ run_row fromisoformat local_utcoffset cfg changed_pids r st2
             = Ok (apply_action (puzzle_id r) a st2)
  end.
Proof.
  intros Heq. rewrite !run_row_unfold, Heq.
  destruct (skipped changed_pids (puzzle_id r)); [left; repeat split |].
  destruct (_local_date_of_iso fromisoformat local_utcoffset (last_attempt r))
    as [d | e]; [| reflexivity].
  destruct (decide_action cfg (srs st2 !! puzzle_id r)
              (Py.lower (or_none_str (last_result_col r) "loss")) d (puzzle_id r))
    as [a | e]; [| reflexivity].
  destruct a as [e | |]; cbn [execute_action].
  - destruct (upsert_binds e); [| reflexivity].
    right. exists (UPSERT e). split; reflexivity.
  - right. exists DELETE. split; reflexivity.
  - right. exists NOOP. split; reflexivity.
Qed.

(** Passing over the records outside [S] is running over the records of [S]
    alone. *)
Lemma run_rows_filter (fromisoformat : string -> option datetime)
    (local_utcoffset : Z -> Z) (cfg : config) (S : list string)
    (rows : list attempt_row) :
  forall st : run_state,
    run_rows fromisoformat local_utcoffset cfg (Some S) rows st
    = run_rows fromisoformat local_utcoffset cfg None
        (List.filter (fun r => Py.contains S (puzzle_id r)) rows) st.
Proof.
  induction rows as [| r rows IH]; intros st; [reflexivity |].
  rewrite run_rows_cons. cbn [List.filter].
  destruct (Py.contains S (puzzle_id r)) eqn:Hmem.
  - rewrite run_rows_cons.
    assert (Hrow : run_row fromisoformat local_utcoffset cfg (Some S) r st
                   = run_row fromisoformat local_utcoffset cfg None r st).
    { rewrite !run_row_unfold. cbn [skipped]. rewrite Hmem. reflexivity. }
    rewrite Hrow.
    destruct (run_row fromisoformat local_utcoffset cfg None r st); [apply IH | reflexivity].
  - rewrite run_row_skipped by (cbn [skipped]; rewrite Hmem; reflexivity).
    apply IH.
Qed.

(** A full run over all the records against the full runs over the records
    of [S] and over the others, from tables that agree with it on [S] and
    outside [S]: while the records outside [S] are processed without an
    exception, the full run does on [S] what the run over the records of [S]
    does. *)
Lemma run_rows_split (fromisoformat : string -> option datetime)
    (local_utcoffset : Z -> Z) (cfg : config) (S : list string)
    (rows : list attempt_row) :
  forall st sti sto sto' : run_state,
    (forall pid, pid ∈ S -> srs st !! pid = srs sti !! pid) ->
    (forall pid, pid ∉ S -> srs st !! pid = srs sto !! pid) ->
    run_rows fromisoformat local_utcoffset cfg None
      (List.filter (fun r => negb (Py.contains S (puzzle_id r))) rows) sto = Ok sto' ->
    match run_rows fromisoformat local_utcoffset cfg None
            (List.filter (fun r => Py.contains S (puzzle_id r)) rows) sti with
    | Raise e => run_rows fromisoformat local_utcoffset cfg None rows st = Raise e
    | Ok sti' =>
        exists st',
          run_rows fromisoformat local_utcoffset cfg None rows st = Ok st'
          /\ forall pid, pid ∈ S -> srs st' !! pid = srs sti' !! pid
    end.
Proof.
  induction rows as [| r rows IH]; intros st sti sto sto' HS Hout Hrun.
  - cbn. exists st. split; [reflexivity | exact HS].
  - cbn [List.filter] in *. rewrite (run_rows_cons _ _ _ _ r rows st).
    destruct (Py.contains S (puzzle_id r)) eqn:Hmem; cbn [negb] in Hrun.
    + assert (HinS : puzzle_id r ∈ S) by (apply contains_elem_of; exact Hmem).
      rewrite run_rows_cons.
      pose proof (run_row_congr fromisoformat local_utcoffset cfg None r sti st
                    (eq_sym (HS _ HinS))) as Hc.
      destruct (run_row fromisoformat local_utcoffset cfg None r sti) as [sti1 | e];
        [| rewrite Hc; reflexivity].
      destruct Hc as [(Hsk & _) | (a & -> & ->)]; [discriminate |].
      apply (IH (apply_action (puzzle_id r) a st) (apply_action (puzzle_id r) a sti)
               sto sto'); [| | exact Hrun].
      * intros pid Hpid. destruct (decide (puzzle_id r = pid)) as [<- | Hne].
        -- rewrite !apply_action_same. destruct a; auto.
        -- rewrite !apply_action_other by exact Hne. auto.
      * intros pid Hpid. rewrite <- (Hout _ Hpid).
        apply apply_action_other. intros Heq. subst pid. contradiction.
    + assert (HninS : puzzle_id r ∉ S).
      { intros Hc. apply contains_elem_of in Hc. congruence. }
      rewrite run_rows_cons in Hrun.
      pose proof (run_row_congr fromisoformat local_utcoffset cfg None r sto st
                    (eq_sym (Hout _ HninS))) as Hc.
      destruct (run_row fromisoformat local_utcoffset cfg None r sto) as [sto1 | e];
        [| discriminate].
      destruct Hc as [(Hsk & _) | (a & -> & ->)]; [discriminate |].
      apply (IH (apply_action (puzzle_id r) a st) sti
               (apply_action (puzzle_id r) a sto) sto'); [| | exact Hrun].
      * intros pid Hpid. rewrite <- (HS _ Hpid).
        apply apply_action_other. intros Heq. subst pid. contradiction.
      * intros pid Hpid. destruct (decide (puzzle_id r = pid)) as [<- | Hne].
        -- rewrite !apply_action_same. destruct a; auto.
        -- rewrite !apply_action_other by exact Hne. auto.
Qed.

(** When the run over the records of [S] raises, so does the full run; and
    when the run over the other records raises, so does the full run. *)
Lemma run_rows_part_raises (fromisoformat : string -> option datetime)
    (local_utcoffset : Z -> Z) (cfg : config) (keep : attempt_row -> bool)
    (P : string -> Prop) (rows : list attempt_row) :
  (forall r, keep r = true <-> P (puzzle_id r)) ->
  forall (st stp : run_state) (e : exn),
    (forall pid, P pid -> srs st !! pid = srs stp !! pid) ->
    run_rows fromisoformat local_utcoffset cfg None (List.filter keep rows) stp
    = Raise e ->
    exists e', run_rows fromisoformat local_utcoffset cfg None rows st = Raise e'.
Proof.
  intros Hkeep.
  induction rows as [| r rows IH]; intros st stp e HP Hrun; [discriminate |].
  cbn [List.filter] in Hrun. rewrite run_rows_cons.
  destruct (keep r) eqn:Hk.
  - assert (Hin : P (puzzle_id r)) by (apply Hkeep; exact Hk).
    rewrite run_rows_cons in Hrun.
    pose proof (run_row_congr fromisoformat local_utcoffset cfg None r stp st
                  (eq_sym (HP _ Hin))) as Hc.
    destruct (run_row fromisoformat local_utcoffset cfg None r stp) as [stp1 | e0].
    + destruct Hc as [(Hsk & _) | (a & -> & ->)]; [discriminate |].
      apply (IH (apply_action (puzzle_id r) a st) (apply_action (puzzle_id r) a stp) e);
        [| exact Hrun].
      intros pid Hpid. destruct (decide (puzzle_id r = pid)) as [<- | Hne].
      * rewrite !apply_action_same. destruct a; auto.
      * rewrite !apply_action_other by exact Hne. auto.
    + rewrite Hc. exists e0. reflexivity.
  - assert (Hnin : ~ P (puzzle_id r)).
    { intros Hc. apply Hkeep in Hc. congruence. }
    destruct (run_row fromisoformat local_utcoffset cfg None r st) as [st1 | e0] eqn:Hrow;
      [| exists e0; reflexivity].
    apply (IH st1 stp e); [| exact Hrun].
    intros pid Hpid.
    destruct (run_row_inv _ _ _ _ _ _ _ Hrow) as [[Hsk _] | (_ & d & a & _ & _ & ->)];
      [discriminate |].
    rewrite <- (HP _ Hpid). apply apply_action_other.
    intros Heq. subst pid. contradiction.
Qed.

(** An incremental run leaves the rows outside [S] as they were. *)
Lemma run_rows_outside (fromisoformat : string -> option datetime)
    (local_utcoffset : Z -> Z) (cfg : config) (S : list string)
    (rows : list attempt_row) :
  forall st st' : run_state,
    run_rows fromisoformat local_utcoffset cfg (Some S) rows st = Ok st' ->
    forall pid, pid ∉ S -> srs st' !! pid = srs st !! pid.
Proof.
  induction rows as [| r rows IH]; intros st st' Hrun pid Hpid.
  - injection Hrun as <-. reflexivity.
  - rewrite run_rows_cons in Hrun.
    destruct (run_row fromisoformat local_utcoffset cfg (Some S) r st) as [st1 |] eqn:Hrow;
      [| discriminate].
    rewrite (IH _ _ Hrun _ Hpid).
    destruct (run_row_inv _ _ _ _ _ _ _ Hrow) as [[_ ->] | (Hsk & d & a & _ & _ & ->)];
      [reflexivity |].
    apply apply_action_other. intros Heq. subst pid.
    cbn [skipped] in Hsk. apply negb_false_iff in Hsk.
    apply contains_elem_of in Hsk. contradiction.
Qed.

(** C7 (as amended). The incremental recomputation restricted to [S] leaves
    every puzzle outside [S] as it was, always.  Unless a record outside [S]
    makes the recomputation raise (that is, when the full recomputation over
    the records outside [S] alone commits), the two modes end alike: both
    commit, with the same row or absence of row for every puzzle of [S], or
    both raise the same exception and leave the table as it was.  When the
    incremental recomputation raises, the full one raises too; and when a
    record outside [S] raises, the full one raises whatever the incremental
    one does. *)
Theorem incremental_matches_full (fromisoformat : string -> option datetime)
    (local_utcoffset : Z -> Z) (cfg : config) (rows : list attempt_row)
    (s0 : gmap string srs_row) (S : list string) :
  let full := run fromisoformat local_utcoffset cfg rows s0 None in
  let incremental := run fromisoformat local_utcoffset cfg rows s0 (Some S) in
  let outside :=
    run fromisoformat local_utcoffset cfg
      (List.filter (fun r => negb (Py.contains S (puzzle_id r))) rows) s0 None in
  (forall pid, pid ∉ S -> srs_after s0 incremental !! pid = s0 !! pid)
  /\ ((exists st, outside = Committed st) ->
      (forall pid, pid ∈ S ->
         srs_after s0 incremental !! pid = srs_after s0 full !! pid)
      /\ (forall e, incremental = RolledBack e <-> full = RolledBack e)
      /\ (forall sti, incremental = Committed sti ->
            exists stf, full = Committed stf
                        /\ forall pid, pid ∈ S -> srs sti !! pid = srs stf !! pid))
  /\ ((exists e, incremental = RolledBack e) -> exists e', full = RolledBack e')
  /\ ((exists e, outside = RolledBack e) -> exists e', full = RolledBack e').
Proof.
  intros full incremental outside. subst full incremental outside. unfold run.
  rewrite (run_rows_filter _ _ _ S rows).
  split; [| split; [| split]].
  - intros pid Hpid.
    pose proof (run_rows_outside fromisoformat local_utcoffset cfg S rows
                  (mkState s0 0 0)) as Hout.
    rewrite (run_rows_filter _ _ _ S rows) in Hout.
    destruct (run_rows fromisoformat local_utcoffset cfg None
                (List.filter (fun r => Py.contains S (puzzle_id r)) rows) (mkState s0 0 0))
      as [sti |]; [| reflexivity].
    exact (Hout sti eq_refl pid Hpid).
  - intros [sto Hsto].
    destruct (run_rows fromisoformat local_utcoffset cfg None
                (List.filter (fun r => negb (Py.contains S (puzzle_id r))) rows)
                (mkState s0 0 0)) as [sto' |] eqn:Hout; [| discriminate].
    pose proof (run_rows_split fromisoformat local_utcoffset cfg S rows
                  (mkState s0 0 0) (mkState s0 0 0) (mkState s0 0 0) sto'
                  (fun _ _ => eq_refl) (fun _ _ => eq_refl) Hout) as Hsplit.
    destruct (run_rows fromisoformat local_utcoffset cfg None
                (List.filter (fun r => Py.contains S (puzzle_id r)) rows) (mkState s0 0 0))
      as [sti | e].
    + destruct Hsplit as (stf & -> & Hagree).
      split; [| split].
      * intros pid Hpid. cbn [srs_after]. symmetry. exact (Hagree pid Hpid).
      * intros e. split; discriminate.
      * intros sti' Hsti. injection Hsti as <-. exists stf.
        split; [reflexivity |]. intros pid Hpid. symmetry. exact (Hagree pid Hpid).
    + rewrite Hsplit. split; [| split].
      * intros pid Hpid. reflexivity.
      * intros e'. split; intros H; exact H.
      * intros sti Hsti. discriminate.
  - intros [e He].
    destruct (run_rows fromisoformat local_utcoffset cfg None
                (List.filter (fun r => Py.contains S (puzzle_id r)) rows) (mkState s0 0 0))
      as [sti | e0] eqn:Hin; [discriminate |].
    destruct (run_rows_part_raises fromisoformat local_utcoffset cfg
                (fun r => Py.contains S (puzzle_id r)) (fun pid => pid ∈ S) rows
                (fun r => contains_elem_of S (puzzle_id r))
                (mkState s0 0 0) (mkState s0 0 0) e0 (fun _ _ => eq_refl) Hin)
      as [e' ->].
    exists e'. reflexivity.
  - intros [e He].
    destruct (run_rows fromisoformat local_utcoffset cfg None
                (List.filter (fun r => negb (Py.contains S (puzzle_id r))) rows)
                (mkState s0 0 0)) as [sto | e0] eqn:Hout; [discriminate |].
    assert (Hkeep : forall r, negb (Py.contains S (puzzle_id r)) = true
                              <-> puzzle_id r ∉ S).
    { intros r. rewrite <- contains_elem_of.
      destruct (Py.contains S (puzzle_id r)); cbn [negb]; split; intros H;
        try discriminate; try reflexivity.
      exfalso. apply H. reflexivity. }
    destruct (run_rows_part_raises fromisoformat local_utcoffset cfg
                (fun r => negb (Py.contains S (puzzle_id r))) (fun pid => pid ∉ S) rows
                Hkeep (mkState s0 0 0) (mkState s0 0 0) e0 (fun _ _ => eq_refl) Hout)
      as [e' ->].
    exists e'. reflexivity.
Qed.
(** * Examples, witnesses and counterexamples *)

(** The timestamps of the samples, read in a process whose zone is UTC, and
    what leaves the years 1 to 9999 on the way to the local date. *)
Example local_date_samples :
  _local_date_of_iso Iso.fromisoformat Iso.utc (last_attempt Sample.loss_p1)
  = Ok Sample.jan1
  /\ _local_date_of_iso Iso.fromisoformat Iso.utc (last_attempt Sample.win_p1)
     = Ok Sample.jan2
  /\ _local_date_of_iso Iso.fromisoformat Iso.utc (last_attempt Sample.malformed_p4)
     = Raise ValueError
  /\ _local_date_of_iso Iso.fromisoformat (fun _ => -8 * 3600)
       (Some "2024-01-01T03:00:00Z")
     = Ok (mkDate 2023 12 31)
  /\ _local_date_of_iso Iso.fromisoformat Iso.utc
       (Some "2024-01-01T23:59:59.123456Z")
     = Ok Sample.jan1
  /\ _local_date_of_iso Iso.fromisoformat Iso.utc
       (Some "0001-01-01T00:00:00+05:00")
     = Raise OverflowError
  /\ _local_date_of_iso Iso.fromisoformat (fun _ => 9 * 3600)
       (Some "9999-12-31T20:00:00Z")
     = Raise OverflowError
  /\ _local_date_of_iso Iso.fromisoformat Iso.utc None = Raise AttributeError.
Proof. repeat split; vm_compute; reflexivity. Qed.

(** The scenario of the specification: a first loss on 2024-01-01 seeds
    the row due 2024-01-02; a win on 2024-01-02, wins not tracked, deletes
    it; a loss on 2024-01-05 creates it again with interval
    [LOSS_CADENCE[0]]. *)
Example scenario :
  decide_action default_config None "loss" Sample.jan1 "P"
  = Ok (UPSERT (mkRow (Some 0) 1 "loss" Sample.jan1 (Some Sample.jan2)))
  /\ decide_action default_config (Some (Sample.seeded Sample.jan1)) "win" Sample.jan2 "P"
     = Ok DELETE
  /\ decide_action default_config None "loss" Sample.jan5 "P"
     = Ok (UPSERT (mkRow (Some 0) 1 "loss" Sample.jan5 (Some (mkDate 2024 1 6)))).
Proof. repeat split; vm_compute; reflexivity. Qed.

(** [add_days] crosses the ends of months and years and leap days. *)
Example add_days_samples :
  add_days (mkDate 2023 12 31) 1 = mkDate 2024 1 1
  /\ add_days (mkDate 2024 2 28) 2 = mkDate 2024 3 1
  /\ add_days (mkDate 2023 2 28) 1 = mkDate 2023 3 1
  /\ add_days (mkDate 2024 1 1) 90 = mkDate 2024 3 31
  /\ days_from_civil (mkDate 1970 1 1) = 0
  /\ min_day = days_from_civil (mkDate 1 1 1)
  /\ max_day = days_from_civil (mkDate 9999 12 31).
Proof. repeat split; vm_compute; reflexivity. Qed.

(** What SQLite's [date] answers at the ends of its range. *)
Example sql_date_samples :
  sql_date (mkDate 2024 12 31) (PlusDay 366) = Some (mkDate 2026 1 1)
  /\ sql_date (mkDate 9999 12 30) (PlusDay 1) = Some (mkDate 9999 12 31)
  /\ sql_date (mkDate 9999 12 31) (PlusDay 1) = None
  /\ sql_date (mkDate 1000 1 1) (PlusDay 3287181) = Some (mkDate 9999 12 31)
  /\ sql_date (mkDate 1000 1 1) (PlusDay 3287182) = None
  /\ sql_date (mkDate 999 12 31) (PlusDay 1) = None
  /\ sql_date (mkDate 2024 1 1) (PlusDay (-5)) = None
  /\ sql_date (mkDate 2024 1 1) (PlusDay 99999999999) = None
  /\ sql_date (mkDate 2024 1 1) (PlusDay 0) = Some (mkDate 2024 1 1).
Proof. repeat split; vm_compute; reflexivity. Qed.

(** [_parse_cadence] keeps the texts of digits and falls back otherwise. *)
Example parse_cadence_samples :
  _parse_cadence (Some " 3, 5 ,x,, 07 ,1e3,-4") [1; 2] = Ok [3; 5; 7]
  /\ _parse_cadence (Some "a,b") [1; 2] = Ok [1; 2]
  /\ _parse_cadence None [1; 2] = Ok [1; 2].
Proof. repeat split; vm_compute; reflexivity. Qed.

(** C6, on the default loss cadence (eight entries) and a streak of 20. *)
Lemma next_interval_days_saturates_witness :
  Z.of_nat (length (cadence default_config false)) < 20
  /\ _next_interval_days default_config 20 false
     = _next_interval_days default_config 8 false
  /\ _next_interval_days default_config 20 false = Ok 90.
Proof.
  assert (H : Z.of_nat (length (cadence default_config false)) < 20)
    by (vm_compute; reflexivity).
  split; [exact H |].
  split; [exact (proj1 (next_interval_days_saturates default_config false 20 H)) |].
  destruct (proj2 (next_interval_days_saturates default_config false 20 H)
              ltac:(vm_compute; discriminate)) as (x & Hx & -> & _).
  vm_compute in Hx. injection Hx as <-. reflexivity.
Defined.

(** C10, on seven buckets and on one bucket. *)
Lemma seed_offset_days_stagger_range_witness :
  SEED_MODE Sample.staggered = "stagger"
  /\ 2 <= STAGGER_BUCKETS Sample.staggered
  /\ 1 <= _seed_offset_days Sample.staggered "p4" <= 6.
Proof.
  split; [reflexivity |]. split; [vm_compute; discriminate |].
  apply (proj1 (seed_offset_days_stagger_range Sample.staggered "p4" eq_refl)).
  vm_compute; discriminate.
Defined.

(** C3, on the default configuration and a row with streak 5. *)
Lemma untracked_win_deletes_witness :
  TRACK_WINS default_config = false
  /\ decide_action default_config (Some Sample.streak5) "win" Sample.jan2 "p1" = Ok DELETE
  /\ decide_action default_config None "win" Sample.jan2 "p1" = Ok NOOP.
Proof.
  split; [reflexivity |].
  pose proof (untracked_win_deletes default_config Iso.fromisoformat Iso.utc eq_refl)
    as [H _].
  split.
  - exact (proj1 (H (Some Sample.streak5) Sample.jan2 "p1")).
  - exact (proj1 (H None Sample.jan2 "p1")).
Defined.



(** C5, on the example of the specification ([RESET_ON_FAIL], streak 5, a
    loss: streak 0 and [LOSS_CADENCE[0]]) and, without [RESET_ON_FAIL], on
    the same row: streak 4 and [LOSS_CADENCE[3]], due a week later. *)
Lemma existing_loss_update_witness :
  String.eqb "loss" "win" = false
  /\ LOSS_CADENCE default_config <> []
  /\ decide_action default_config (Some Sample.streak5) "loss" Sample.jan5 "p1"
     = Ok (UPSERT (mkRow (Some 0) 1 "loss" Sample.jan5 (Some (mkDate 2024 1 6))))
  /\ decide_action Sample.no_reset (Some Sample.streak5) "loss" Sample.jan5 "p1"
     = Ok (UPSERT (mkRow (Some 4) 7 "loss" Sample.jan5 (Some (mkDate 2024 1 12)))).
Proof.
  split; [reflexivity |].
  assert (Hne : LOSS_CADENCE default_config <> []) by (vm_compute; discriminate).
  split; [exact Hne |]. split.
  - destruct (proj2 (existing_loss_update default_config Sample.streak5 "loss"
                       Sample.jan5 "p1" eq_refl) Hne) as (iv & Hiv & Hdec & _).
    rewrite Hdec. vm_compute in Hiv. injection Hiv as <-. vm_compute; reflexivity.
  - destruct (proj2 (existing_loss_update Sample.no_reset Sample.streak5 "loss"
                       Sample.jan5 "p1" eq_refl) Hne) as (iv & Hiv & Hdec & _).
    rewrite Hdec. vm_compute in Hiv. injection Hiv as <-. vm_compute; reflexivity.
Defined.



(** C9, on a puzzle whose latest attempt has no result and no row yet. *)
Lemma null_result_is_loss_witness :
  last_result_col Sample.null_p3 = None
  /\ run_row Iso.fromisoformat Iso.utc default_config None Sample.null_p3
       (mkState ∅ 0 0)
     = run_row Iso.fromisoformat Iso.utc default_config None
         (mkAttempt "p3" (Some "2024-01-05") (Some "loss")) (mkState ∅ 0 0)
  /\ run_row Iso.fromisoformat Iso.utc default_config None Sample.null_p3
       (mkState ∅ 0 0)
     = Ok (mkState (<["p3" := Sample.seeded Sample.jan5]> ∅) 1 0).
Proof.
  split; [reflexivity |].
  pose proof (null_result_is_loss Iso.fromisoformat Iso.utc default_config None
                Sample.null_p3 (mkState ∅ 0 0) eq_refl) as [H1 H2].
  split; [exact H1 |].
  assert (Hd : _local_date_of_iso Iso.fromisoformat Iso.utc
                 (last_attempt Sample.null_p3) = Ok Sample.jan5)
    by (vm_compute; reflexivity).
  assert (Hne : LOSS_CADENCE default_config <> []) by discriminate.
  destruct (H2 Sample.jan5 eq_refl Hd Hne) as (e & He & _ & _ & _ & Hrun).
  rewrite Hrun.
  - vm_compute in He. injection He as <-. reflexivity.
  - reflexivity.
  - intros row Hrow. cbn [srs] in Hrow. rewrite lookup_empty in Hrow. discriminate.
Defined.

(** C2 (as amended), on the default configuration: the seeded first loss
    is a fixed point. *)
Lemma reapplication_fixed_point_witness :
  decide_action default_config None "loss" Sample.jan1 "p1"
  = Ok (UPSERT (Sample.seeded Sample.jan1))
  /\ decide_action default_config (Some (Sample.seeded Sample.jan1)) "loss"
       Sample.jan1 "p1"
     = Ok (UPSERT (Sample.seeded Sample.jan1)).
Proof.
  assert (H1 : decide_action default_config None "loss" Sample.jan1 "p1"
               = Ok (UPSERT (Sample.seeded Sample.jan1))) by (vm_compute; reflexivity).
  split; [exact H1 |].
  apply (proj2 (reapplication_fixed_point default_config None "loss" Sample.jan1 "p1"
                  (Sample.seeded Sample.jan1) H1)).
  repeat split.
Defined.

(** C2, counterexample: with wins tracked, a first win seeds streak 1 and
    interval 2; applying the decision again to that row and the same attempt
    gives streak 2 and interval 4, neither a NO-OP nor the same row. *)
Lemma reapplication_drifts :
  decide_action Sample.tracking None "win" Sample.jan2 "p1"
  = Ok (UPSERT Sample.won_once)
  /\ decide_action Sample.tracking (Some Sample.won_once) "win" Sample.jan2 "p1"
     = Ok (UPSERT Sample.won_twice)
  /\ decide_action Sample.tracking (Some Sample.won_once) "win" Sample.jan2 "p1"
     <> Ok NOOP
  /\ decide_action Sample.tracking (Some Sample.won_once) "win" Sample.jan2 "p1"
     <> Ok (UPSERT Sample.won_once).
Proof.
  assert (H2 : decide_action Sample.tracking (Some Sample.won_once) "win" Sample.jan2 "p1"
               = Ok (UPSERT Sample.won_twice)) by (vm_compute; reflexivity).
  split; [vm_compute; reflexivity |]. split; [exact H2 |].
  rewrite H2. split; intros H; discriminate H.
Qed.

(** The same drift on whole runs: a second full run over the same latest
    attempt moves the row the first one wrote. *)
Example rerun_drifts :
  run Iso.fromisoformat Iso.utc Sample.tracking [Sample.win_p1] ∅ None
  = Committed (mkState (<["p1" := Sample.won_once]> ∅) 1 0)
  /\ run Iso.fromisoformat Iso.utc Sample.tracking [Sample.win_p1]
       (<["p1" := Sample.won_once]> ∅) None
     = Committed (mkState (<["p1" := Sample.won_twice]> ∅) 1 0).
Proof. split; vm_compute; reflexivity. Qed.

(** C1 (as amended), on a run that meets a malformed timestamp after a row
    it has already upserted. *)
Lemma malformed_timestamp_rolls_back_witness :
  Sample.malformed_p4 ∈ [Sample.loss_p1; Sample.malformed_p4; Sample.loss_p2]
  /\ skipped None (puzzle_id Sample.malformed_p4) = false
  /\ _local_date_of_iso Iso.fromisoformat Iso.utc (last_attempt Sample.malformed_p4)
     = Raise ValueError
  /\ srs_after ∅
       (run Iso.fromisoformat Iso.utc default_config
          [Sample.loss_p1; Sample.malformed_p4; Sample.loss_p2] ∅ None)
     = ∅.
Proof.
  assert (Hin : Sample.malformed_p4
                ∈ [Sample.loss_p1; Sample.malformed_p4; Sample.loss_p2])
    by (apply list_elem_of_further, list_elem_of_here).
  assert (Hdate : _local_date_of_iso Iso.fromisoformat Iso.utc
                    (last_attempt Sample.malformed_p4) = Raise ValueError)
    by (vm_compute; reflexivity).
  split; [exact Hin |]. split; [reflexivity |]. split; [exact Hdate |].
  exact (proj2 (malformed_timestamp_rolls_back Iso.fromisoformat Iso.utc default_config
                  _ ∅ None _ _ Hin eq_refl Hdate)).
Defined.

(** C1, counterexample: one malformed timestamp between two good records.
    The run raises [ValueError] and rolls back: the puzzles before and after
    the bad record end without a row, although the run over the two good
    records alone commits a row for each. *)
Lemma run_aborts_on_malformed_timestamp :
  run Iso.fromisoformat Iso.utc default_config
    [Sample.loss_p1; Sample.malformed_p4; Sample.loss_p2] ∅ None
  = RolledBack ValueError
  /\ srs_after ∅
       (run Iso.fromisoformat Iso.utc default_config
          [Sample.loss_p1; Sample.malformed_p4; Sample.loss_p2] ∅ None) !! "p1" = None
  /\ srs_after ∅
       (run Iso.fromisoformat Iso.utc default_config
          [Sample.loss_p1; Sample.malformed_p4; Sample.loss_p2] ∅ None) !! "p2" = None
  /\ run Iso.fromisoformat Iso.utc default_config
       [Sample.loss_p1; Sample.loss_p2] ∅ None
     = Committed (mkState (<["p1" := Sample.seeded Sample.jan1]>
                             (<["p2" := Sample.seeded Sample.jan5]> ∅)) 2 0).
Proof. repeat split; vm_compute; reflexivity. Qed.

(** C7 (as amended), on [S = ["p1"]]: with a good record outside [S] the two
    modes agree on "p1", and with the malformed record of "p4" inside [S]
    both raise [ValueError]. *)
Lemma incremental_matches_full_witness :
  (exists st,
      run Iso.fromisoformat Iso.utc default_config
        (List.filter (fun r => negb (Py.contains ["p1"] (puzzle_id r)))
           [Sample.loss_p1; Sample.loss_p2]) ∅ None = Committed st)
  /\ (forall pid, pid ∈ ["p1"] ->
        srs_after ∅ (run Iso.fromisoformat Iso.utc default_config
                       [Sample.loss_p1; Sample.loss_p2] ∅ (Some ["p1"])) !! pid
        = srs_after ∅ (run Iso.fromisoformat Iso.utc default_config
                         [Sample.loss_p1; Sample.loss_p2] ∅ None) !! pid)
  /\ (forall pid, pid ∉ ["p1"] ->
        srs_after ∅ (run Iso.fromisoformat Iso.utc default_config
                       [Sample.loss_p1; Sample.loss_p2] ∅ (Some ["p1"])) !! pid
        = (∅ : gmap string srs_row) !! pid)
  /\ (run Iso.fromisoformat Iso.utc default_config
        [Sample.loss_p2; Sample.malformed_p4] ∅ (Some ["p4"]) = RolledBack ValueError
      <-> run Iso.fromisoformat Iso.utc default_config
            [Sample.loss_p2; Sample.malformed_p4] ∅ None = RolledBack ValueError).
Proof.
  assert (Hout : exists st,
             run Iso.fromisoformat Iso.utc default_config
               (List.filter (fun r => negb (Py.contains ["p1"] (puzzle_id r)))
                  [Sample.loss_p1; Sample.loss_p2]) ∅ None = Committed st)
    by (eexists; vm_compute; reflexivity).
  assert (Hout' : exists st,
             run Iso.fromisoformat Iso.utc default_config
               (List.filter (fun r => negb (Py.contains ["p4"] (puzzle_id r)))
                  [Sample.loss_p2; Sample.malformed_p4]) ∅ None = Committed st)
    by (eexists; vm_compute; reflexivity).
  pose proof (incremental_matches_full Iso.fromisoformat Iso.utc default_config
                [Sample.loss_p1; Sample.loss_p2] ∅ ["p1"]) as H.
  pose proof (incremental_matches_full Iso.fromisoformat Iso.utc default_config
                [Sample.loss_p2; Sample.malformed_p4] ∅ ["p4"]) as H'.
  cbv zeta in H, H'. destruct H as (Houtside & Hagree & _).
  destruct H' as (_ & Hagree' & _).
  split; [exact Hout |]. split; [exact (proj1 (Hagree Hout)) |].
  split; [exact Houtside |].
  exact (proj1 (proj2 (Hagree' Hout')) ValueError).
Defined.

(** C7, counterexample: the latest attempt of "p4", outside [S = ["p1"]],
    has a malformed timestamp and is read first.  The incremental run passes
    over it and upserts the row of "p1"; the full run raises on it and
    leaves "p1" without a row. *)
Lemma incremental_differs_from_full :
  run Iso.fromisoformat Iso.utc default_config
    [Sample.malformed_p4; Sample.loss_p1] ∅ (Some ["p1"])
  = Committed (mkState (<["p1" := Sample.seeded Sample.jan1]> ∅) 1 0)
  /\ run Iso.fromisoformat Iso.utc default_config
       [Sample.malformed_p4; Sample.loss_p1] ∅ None
     = RolledBack ValueError
  /\ srs_after ∅ (run Iso.fromisoformat Iso.utc default_config
                    [Sample.malformed_p4; Sample.loss_p1] ∅ (Some ["p1"])) !! "p1"
     = Some (Sample.seeded Sample.jan1)
  /\ srs_after ∅ (run Iso.fromisoformat Iso.utc default_config
                    [Sample.malformed_p4; Sample.loss_p1] ∅ None) !! "p1"
     = None.
Proof. repeat split; vm_compute; reflexivity. Qed.

(** * Further properties of the code *)

(** ** What [_calc_update] and the decision return *)

Lemma calc_update_none_inv (cfg : config) (existing : option srs_row)
    (last_result : string) (d : date) (pid : string) :
  _calc_update cfg existing last_result d pid = Ok None ->
  String.eqb last_result "win" = true /\ TRACK_WINS cfg = false.
Proof.
  unfold _calc_update.
  destruct (String.eqb last_result "win"); destruct (TRACK_WINS cfg);
    destruct existing as [row |]; cbn [andb negb]; try (intros _; split; reflexivity);
    try discriminate;
    match goal with
    | |- context [_next_interval_days cfg ?s ?w] =>
        destruct (_next_interval_days cfg s w)
    end; cbn; discriminate.
Qed.

(** Outside the untracked win, a decision that returns is an upsert. *)
Lemma decide_action_upserts (cfg : config) (existing : option srs_row)
    (last_result : string) (d : date) (pid : string) (a : action) :
  (String.eqb last_result "win" && negb (TRACK_WINS cfg)) = false ->
  decide_action cfg existing last_result d pid = Ok a ->
  exists e, a = UPSERT e.
Proof.
  intros Hgate Ha. rewrite (decide_action_calc_update _ _ _ _ _ Hgate) in Ha.
  destruct (_calc_update cfg existing last_result d pid) as [[u |] | err] eqn:Hcu;
    cbn in Ha.
  - destruct u as [[[[streak interval] base] plus] w]. injection Ha as <-. eauto.
  - apply calc_update_none_inv in Hcu as [Hw Ht]. rewrite Hw, Ht in Hgate. discriminate.
  - discriminate.
Qed.

(** On the untracked win the decision reads nothing but the presence of a
    row. *)
Lemma decide_action_untracked (cfg : config) (existing : option srs_row)
    (last_result : string) (d : date) (pid : string) :
  (String.eqb last_result "win" && negb (TRACK_WINS cfg)) = true ->
  decide_action cfg existing last_result d pid
  = Ok (match existing with Some _ => DELETE | None => NOOP end).
Proof. intros Hgate. unfold decide_action. rewrite Hgate. reflexivity. Qed.

(** X1. [_calc_update] returns no update exactly for the untracked win: it
    returns [None] if and only if the latest result is "win" and
    [TRACK_WINS] is false, with or without a row; in every other case it
    returns a tuple whose date is the attempt's date and whose modifier
    carries the interval, or raises [IndexError]. *)
Theorem calc_update_none_iff (cfg : config) (existing : option srs_row)
    (last_result : string) (d : date) (pid : string) :
  (_calc_update cfg existing last_result d pid = Ok None
   <-> last_result = "win" /\ TRACK_WINS cfg = false)
  /\ (forall u, _calc_update cfg existing last_result d pid = Ok (Some u) ->
        exists streak interval,
          u = (streak, interval, d, PlusDay interval, String.eqb last_result "win"))
  /\ (forall err, _calc_update cfg existing last_result d pid = Raise err ->
        err = IndexError).
Proof.
  split; [| split].
  - split.
    + intros H. apply calc_update_none_inv in H as [Hw Ht].
      apply String.eqb_eq in Hw. split; assumption.
    + intros [-> Ht]. unfold _calc_update. rewrite Ht. cbn.
      destruct existing; reflexivity.
  - intros u. unfold _calc_update.
    destruct (String.eqb last_result "win"); destruct (TRACK_WINS cfg);
      destruct existing as [row |]; cbn [andb negb]; try discriminate;
      try (match goal with
           | |- context [_next_interval_days cfg ?s ?w] =>
               destruct (_next_interval_days cfg s w)
           end; cbn; [| discriminate]);
      cbn; intros H; injection H as <-; eauto.
  - intros err. unfold _calc_update.
    assert (Hidx : forall s w x, _next_interval_days cfg s w = Raise x -> x = IndexError).
    { intros s w x. rewrite next_interval_days_index. unfold Py.index.
      repeat match goal with
             | |- context [if ?b then _ else _] => destruct b
             | |- context [match ?o with Some _ => _ | None => _ end] => destruct o
             end; intros H; try discriminate; injection H as <-; reflexivity. }
    destruct (String.eqb last_result "win"); destruct (TRACK_WINS cfg);
      destruct existing as [row |]; cbn [andb negb]; try discriminate;
      try (match goal with
           | |- context [_next_interval_days cfg ?s ?w] =>
               destruct (_next_interval_days cfg s w) eqn:Hn
           end; cbn; [discriminate |];
           intros H; injection H as <-; eapply Hidx; exact Hn);
      cbn; discriminate.
Qed.


(** ** What a run touches *)

Lemma selected_skipped (changed_pids : option (list string)) (r : attempt_row) :
  selected changed_pids r = negb (skipped changed_pids (puzzle_id r)).
Proof. reflexivity. Qed.

(** The rows of puzzles that no processed record names are left alone. *)
Lemma run_rows_frame (fromisoformat : string -> option datetime)
    (local_utcoffset : Z -> Z) (cfg : config) (changed_pids : option (list string))
    (rows : list attempt_row) (pid : string) :
  (forall r, r ∈ rows -> selected changed_pids r = true -> puzzle_id r <> pid) ->
  forall st st' : run_state,
    run_rows fromisoformat local_utcoffset cfg changed_pids rows st = Ok st' ->
    srs st' !! pid = srs st !! pid.
Proof.
  induction rows as [| r rows IH]; intros Hpid st st' Hrun.
  - injection Hrun as <-. reflexivity.
  - rewrite run_rows_cons in Hrun.
    destruct (run_row fromisoformat local_utcoffset cfg changed_pids r st)
      as [st1 |] eqn:Hrow; [| discriminate].
    rewrite (IH (fun r' Hr' => Hpid r' (list_elem_of_further _ _ _ Hr')) _ _ Hrun).
    destruct (run_row_inv _ _ _ _ _ _ _ Hrow) as [[_ ->] | (Hsk & d & a & _ & _ & ->)];
      [reflexivity |].
    apply apply_action_other. apply Hpid; [apply list_elem_of_here |].
    unfold selected. rewrite Hsk. reflexivity.
Qed.

(** X3. A run reads and writes only the rows of the puzzles it processes:
    for a puzzle that no selected record of [SQL_LAST_ATTEMPT] names (it has
    no attempt, or [changed_pids] leaves it out), the table after the run,
    committed or rolled back, holds what it held before. *)
Theorem run_touches_selected_only (fromisoformat : string -> option datetime)
    (local_utcoffset : Z -> Z) (cfg : config) (rows : list attempt_row)
    (s0 : gmap string srs_row) (changed_pids : option (list string)) (pid : string) :
  (forall r, r ∈ rows -> selected changed_pids r = true -> puzzle_id r <> pid) ->
  srs_after s0 (run fromisoformat local_utcoffset cfg rows s0 changed_pids) !! pid
  = s0 !! pid.
Proof.
  intros Hpid. unfold run.
  destruct (run_rows fromisoformat local_utcoffset cfg changed_pids rows (mkState s0 0 0))
    as [st |] eqn:Hrun; [| reflexivity].
  exact (run_rows_frame _ _ _ _ _ _ Hpid _ _ Hrun).
Qed.

(** X4. An empty selection: when [changed_pids] selects none of the records
    (the empty list, or identifiers without attempts), the run commits with
    the table as it was and both counters at 0, whatever the timestamps and
    the cadences are. *)
Theorem run_without_selection (fromisoformat : string -> option datetime)
    (local_utcoffset : Z -> Z) (cfg : config) (rows : list attempt_row)
    (s0 : gmap string srs_row) (changed_pids : option (list string)) :
  (forall r, r ∈ rows -> selected changed_pids r = false) ->
  run fromisoformat local_utcoffset cfg rows s0 changed_pids
  = Committed (mkState s0 0 0).
Proof.
  intros Hnone. unfold run.
  assert (H : forall st,
             run_rows fromisoformat local_utcoffset cfg changed_pids rows st = Ok st).
  { induction rows as [| r rows IH]; intros st; [reflexivity |].
    rewrite run_rows_cons, run_row_skipped.
    - apply IH. intros r' Hr'. apply Hnone. right. exact Hr'.
    - specialize (Hnone r ltac:(left)). unfold selected in Hnone.
      destruct (skipped changed_pids (puzzle_id r)); [reflexivity | discriminate]. }
  rewrite H. reflexivity.
Qed.

(** ** The order of the records *)

Lemma run_rows_app (fromisoformat : string -> option datetime)
    (local_utcoffset : Z -> Z) (cfg : config) (changed_pids : option (list string))
    (l1 l2 : list attempt_row) (st : run_state) :
  run_rows fromisoformat local_utcoffset cfg changed_pids (l1 ++ l2)%list st
  = match run_rows fromisoformat local_utcoffset cfg changed_pids l1 st with
    | Ok st1 => run_rows fromisoformat local_utcoffset cfg changed_pids l2 st1
    | Raise e => Raise e
    end.
Proof.
  revert st. induction l1 as [| r l1 IH]; intros st; [reflexivity |].
  cbn [app]. rewrite !run_rows_cons.
  destruct (run_row fromisoformat local_utcoffset cfg changed_pids r st);
    [apply IH | reflexivity].
Qed.

Lemma agree_refl {A : Type} (x : res A) : agree x x.
Proof. destruct x; cbn; auto. Qed.

Lemma agree_trans {A : Type} (x y z : res A) : agree x y -> agree y z -> agree x z.
Proof. destruct x, y, z; cbn; intros; try contradiction; congruence. Qed.

(** Decisions for different puzzles commute on the table and the counters. *)
Lemma apply_action_comm (pid1 pid2 : string) (a1 a2 : action) (st : run_state) :
  pid1 <> pid2 ->
  apply_action pid2 a2 (apply_action pid1 a1 st)
  = apply_action pid1 a1 (apply_action pid2 a2 st).
Proof.
  intros Hne. destruct st as [m u dl]. destruct a1, a2; cbn; f_equal;
    try lia; try reflexivity.
  - apply insert_insert_ne. congruence.
  - apply delete_insert_ne. congruence.
  - symmetry. apply delete_insert_ne. exact Hne.
  - apply delete_delete.
Qed.

Lemma run_row_other (fromisoformat : string -> option datetime)
    (local_utcoffset : Z -> Z) (cfg : config) (changed_pids : option (list string))
    (r : attempt_row) (st st' : run_state) (pid : string) :
  run_row fromisoformat local_utcoffset cfg changed_pids r st = Ok st' ->
  puzzle_id r <> pid -> srs st' !! pid = srs st !! pid.
Proof.
  intros Hrow Hne.
  destruct (run_row_inv _ _ _ _ _ _ _ Hrow) as [[_ ->] | (_ & d & a & _ & _ & ->)];
    [reflexivity | apply apply_action_other; exact Hne].
Qed.

Lemma run_rows_swap (fromisoformat : string -> option datetime)
    (local_utcoffset : Z -> Z) (cfg : config) (changed_pids : option (list string))
    (x y : attempt_row) (st : run_state) :
  puzzle_id x <> puzzle_id y ->
  agree (run_rows fromisoformat local_utcoffset cfg changed_pids [x; y] st)
        (run_rows fromisoformat local_utcoffset cfg changed_pids [y; x] st).
Proof.
  intros Hne. rewrite !run_rows_cons. cbn [run_rows].
  destruct (run_row fromisoformat local_utcoffset cfg changed_pids x st)
    as [sx | ex] eqn:Hx;
    destruct (run_row fromisoformat local_utcoffset cfg changed_pids y st)
      as [sy | ey] eqn:Hy.
  - pose proof (run_row_congr fromisoformat local_utcoffset cfg changed_pids y st sx
                  (eq_sym (run_row_other _ _ _ _ _ _ _ _ Hx Hne))) as Hcy.
    pose proof (run_row_congr fromisoformat local_utcoffset cfg changed_pids x st sy
                  (eq_sym (run_row_other _ _ _ _ _ _ _ _ Hy (not_eq_sym Hne)))) as Hcx.
    rewrite Hy in Hcy. rewrite Hx in Hcx.
    destruct Hcy as [(_ & Hsy & Hy') | (ay & Hsy & Hy')];
      destruct Hcx as [(_ & Hsx & Hx') | (ax & Hsx & Hx')];
      rewrite Hy', Hx'; cbn; subst sx sy; try reflexivity.
    apply apply_action_comm. exact Hne.
  - pose proof (run_row_congr fromisoformat local_utcoffset cfg changed_pids y st sx
                  (eq_sym (run_row_other _ _ _ _ _ _ _ _ Hx Hne))) as Hcy.
    rewrite Hy in Hcy. rewrite Hcy. exact I.
  - pose proof (run_row_congr fromisoformat local_utcoffset cfg changed_pids x st sy
                  (eq_sym (run_row_other _ _ _ _ _ _ _ _ Hy (not_eq_sym Hne)))) as Hcx.
    rewrite Hx in Hcx. rewrite Hcx. exact I.
  - exact I.
Qed.

Lemma run_rows_permutation (fromisoformat : string -> option datetime)
    (local_utcoffset : Z -> Z) (cfg : config) (changed_pids : option (list string))
    (rows rows' : list attempt_row) :
  rows ≡ₚ rows' ->
  NoDup (puzzle_id <$> rows) ->
  forall st : run_state,
    agree (run_rows fromisoformat local_utcoffset cfg changed_pids rows st)
          (run_rows fromisoformat local_utcoffset cfg changed_pids rows' st).
Proof.
  induction 1 as [| x l l' Hp IH | x y l | l l' l'' Hp1 IH1 Hp2 IH2];
    intros Hnd st.
  - apply agree_refl.
  - rewrite !run_rows_cons.
    destruct (run_row fromisoformat local_utcoffset cfg changed_pids x st);
      [| exact I].
    apply IH. rewrite fmap_cons in Hnd. apply NoDup_cons in Hnd as [_ Hnd]. exact Hnd.
  - change (y :: x :: l) with (([y; x] ++ l)%list).
    change (x :: y :: l) with (([x; y] ++ l)%list).
    rewrite !run_rows_app.
    assert (Hne : puzzle_id y <> puzzle_id x).
    { rewrite !fmap_cons in Hnd. apply NoDup_cons in Hnd as [Hnin _].
      intros Heq. apply Hnin. rewrite Heq. left. }
    pose proof (run_rows_swap fromisoformat local_utcoffset cfg changed_pids y x st Hne)
      as Hsw.
    destruct (run_rows fromisoformat local_utcoffset cfg changed_pids [y; x] st);
      destruct (run_rows fromisoformat local_utcoffset cfg changed_pids [x; y] st);
      cbn in Hsw; try contradiction; [subst; apply agree_refl | exact I].
  - eapply agree_trans; [apply IH1; exact Hnd |].
    apply IH2. rewrite <- Hp1. exact Hnd.
Qed.

(** X5. The order of the records is irrelevant: [SQL_LAST_ATTEMPT] has no
    ORDER BY, and for records of distinct puzzles (what its GROUP BY gives)
    two runs over the same records in different orders commit the same
    table and the same counters, or both roll back. *)
Theorem run_order_irrelevant (fromisoformat : string -> option datetime)
    (local_utcoffset : Z -> Z) (cfg : config) (rows rows' : list attempt_row)
    (s0 : gmap string srs_row) (changed_pids : option (list string)) :
  rows ≡ₚ rows' ->
  NoDup (puzzle_id <$> rows) ->
  (forall st,
      run fromisoformat local_utcoffset cfg rows s0 changed_pids = Committed st
      <-> run fromisoformat local_utcoffset cfg rows' s0 changed_pids = Committed st)
  /\ srs_after s0 (run fromisoformat local_utcoffset cfg rows s0 changed_pids)
     = srs_after s0 (run fromisoformat local_utcoffset cfg rows' s0 changed_pids).
Proof.
  intros Hp Hnd.
  pose proof (run_rows_permutation fromisoformat local_utcoffset cfg changed_pids
                rows rows' Hp Hnd (mkState s0 0 0)) as Hag.
  unfold run.
  destruct (run_rows fromisoformat local_utcoffset cfg changed_pids rows (mkState s0 0 0));
    destruct (run_rows fromisoformat local_utcoffset cfg changed_pids rows' (mkState s0 0 0));
    cbn in Hag; try contradiction.
  - subst. split; [intros st; reflexivity | reflexivity].
  - split; [| reflexivity]. intros st. split; discriminate.
Qed.

(** ** The counters a run reports *)

Lemma run_rows_counters (fromisoformat : string -> option datetime)
    (local_utcoffset : Z -> Z) (cfg : config) (changed_pids : option (list string))
    (rows : list attempt_row) :
  forall st st' : run_state,
    run_rows fromisoformat local_utcoffset cfg changed_pids rows st = Ok st' ->
    updated st'
    = updated st
      + Z.of_nat (length (List.filter
                            (fun r => selected changed_pids r
                                      && negb (untracked_win cfg r)) rows))
    /\ deleted st <= deleted st'
       <= deleted st
          + Z.of_nat (length (List.filter
                                (fun r => selected changed_pids r
                                          && untracked_win cfg r) rows)).
Proof.
  induction rows as [| r rows IH]; intros st st' Hrun.
  - injection Hrun as <-. cbn. lia.
  - rewrite run_rows_cons in Hrun.
    destruct (run_row fromisoformat local_utcoffset cfg changed_pids r st)
      as [st1 |] eqn:Hrow; [| discriminate].
    destruct (IH _ _ Hrun) as [Hu Hd]. cbn [List.filter].
    rewrite (selected_skipped changed_pids r).
    destruct (run_row_inv _ _ _ _ _ _ _ Hrow) as [[Hsk ->] | (Hsk & d & a & _ & Ha & ->)];
      rewrite Hsk; cbn [negb andb].
    + lia.
    + fold (result_of r) in Ha.
      assert (Hu' : untracked_win cfg r
                    = String.eqb (result_of r) "win" && negb (TRACK_WINS cfg))
        by reflexivity.
      rewrite Hu'.
      destruct (String.eqb (result_of r) "win" && negb (TRACK_WINS cfg)) eqn:Hgate;
        cbn [negb length].
      * rewrite (decide_action_untracked _ _ _ _ _ Hgate) in Ha. injection Ha as <-.
        destruct (srs st !! puzzle_id r); cbn [apply_action updated deleted] in Hu, Hd; lia.
      * destruct (decide_action_upserts _ _ _ _ _ _ Hgate Ha) as [e ->].
        cbn [apply_action updated deleted] in Hu, Hd. lia.
Qed.

(** X6. The counters of a run that commits: [updated] is exactly the number
    of processed records whose latest result is not an untracked win
    (whether or not the upsert changes the row), [deleted] is at most the
    number of processed untracked wins, and it is 0 when wins are tracked. *)
Theorem run_counters (fromisoformat : string -> option datetime)
    (local_utcoffset : Z -> Z) (cfg : config) (rows : list attempt_row)
    (s0 : gmap string srs_row) (changed_pids : option (list string)) (st : run_state) :
  run fromisoformat local_utcoffset cfg rows s0 changed_pids = Committed st ->
  updated st
  = Z.of_nat (length (List.filter
                        (fun r => selected changed_pids r && negb (untracked_win cfg r))
                        rows))
  /\ 0 <= deleted st
     <= Z.of_nat (length (List.filter
                            (fun r => selected changed_pids r && untracked_win cfg r)
                            rows))
  /\ (TRACK_WINS cfg = true -> deleted st = 0).
Proof.
  unfold run. intros Hrun.
  destruct (run_rows fromisoformat local_utcoffset cfg changed_pids rows (mkState s0 0 0))
    as [st' |] eqn:Hrows; [| discriminate].
  injection Hrun as ->.
  destruct (run_rows_counters _ _ _ _ _ _ _ Hrows) as [Hu Hd]. cbn [updated deleted] in Hu, Hd.
  split; [lia |]. split; [lia |].
  intros Htw.
  assert (Hnil : List.filter (fun r => selected changed_pids r && untracked_win cfg r) rows
                 = []).
  { clear -Htw. induction rows as [| r rows IH]; [reflexivity |]. cbn [List.filter].
    assert (Hu' : untracked_win cfg r = false)
      by (unfold untracked_win; rewrite Htw; apply andb_false_r).
    rewrite Hu', andb_false_r. exact IH. }
  rewrite Hnil in Hd. cbn in Hd. lia.
Qed.

(** ** The table after a run *)

Lemma run_rows_pointwise (fromisoformat : string -> option datetime)
    (local_utcoffset : Z -> Z) (cfg : config) (changed_pids : option (list string))
    (rows : list attempt_row) :
  NoDup (puzzle_id <$> rows) ->
  forall st st' : run_state,
    run_rows fromisoformat local_utcoffset cfg changed_pids rows st = Ok st' ->
    forall r, r ∈ rows -> selected changed_pids r = true ->
      exists d a,
        _local_date_of_iso fromisoformat local_utcoffset (last_attempt r) = Ok d
        /\ decide_action cfg (srs st !! puzzle_id r) (result_of r) d (puzzle_id r) = Ok a
        /\ srs st' !! puzzle_id r
           = match a with
             | UPSERT e => Some e
             | DELETE => None
             | NOOP => srs st !! puzzle_id r
             end.
Proof.
  induction rows as [| r0 rows IH]; intros Hnd st st' Hrun r Hr Hsel.
  - inversion Hr.
  - rewrite fmap_cons in Hnd. apply NoDup_cons in Hnd as [Hnin Hnd].
    rewrite run_rows_cons in Hrun.
    destruct (run_row fromisoformat local_utcoffset cfg changed_pids r0 st)
      as [st1 |] eqn:Hrow; [| discriminate].
    apply elem_of_cons in Hr as [-> | Hr].
    + destruct (run_row_inv _ _ _ _ _ _ _ Hrow) as [[Hsk _] | (_ & d & a & Hd & Ha & ->)].
      { unfold selected in Hsel. rewrite Hsk in Hsel. discriminate. }
      exists d, a. split; [exact Hd |]. split; [exact Ha |].
      rewrite (run_rows_frame _ _ _ _ rows (puzzle_id r0)
                 (fun r' Hr' _ Heq => Hnin ltac:(rewrite <- Heq;
                     apply list_elem_of_fmap_2; exact Hr')) _ _ Hrun).
      apply apply_action_same.
    + assert (Hne : puzzle_id r0 <> puzzle_id r).
      { intros Heq. apply Hnin. rewrite Heq. apply list_elem_of_fmap_2. exact Hr. }
      assert (Hsame : srs st1 !! puzzle_id r = srs st !! puzzle_id r).
      { destruct (run_row_inv _ _ _ _ _ _ _ Hrow) as [[_ ->] | (_ & d & a & _ & _ & ->)];
          [reflexivity | apply apply_action_other; exact Hne]. }
      destruct (IH Hnd _ _ Hrun r Hr Hsel) as (d & a & Hd & Ha & Hlk).
      rewrite Hsame in Ha, Hlk. exists d, a. repeat split; assumption.
Qed.

(** X7. A row exists exactly for the trackable puzzles: after a run that
    commits over records of distinct puzzles, a processed puzzle whose
    latest result is an untracked win has no row, and every other processed
    puzzle has the row the decision computes from the row it had before the
    run, recording the latest result in lower case and the local date of
    the latest attempt. *)
Theorem run_leaves_trackable_rows (fromisoformat : string -> option datetime)
    (local_utcoffset : Z -> Z) (cfg : config) (rows : list attempt_row)
    (s0 : gmap string srs_row) (changed_pids : option (list string)) (st : run_state) :
  NoDup (puzzle_id <$> rows) ->
  run fromisoformat local_utcoffset cfg rows s0 changed_pids = Committed st ->
  forall r, r ∈ rows -> selected changed_pids r = true ->
    (untracked_win cfg r = true -> srs st !! puzzle_id r = None)
    /\ (untracked_win cfg r = false ->
        exists d e,
          _local_date_of_iso fromisoformat local_utcoffset (last_attempt r) = Ok d
          /\ decide_action cfg (s0 !! puzzle_id r) (result_of r) d (puzzle_id r)
             = Ok (UPSERT e)
          /\ srs st !! puzzle_id r = Some e
          /\ last_result e = result_of r
          /\ last_reviewed e = d).
Proof.
  unfold run. intros Hnd Hrun r Hr Hsel.
  destruct (run_rows fromisoformat local_utcoffset cfg changed_pids rows (mkState s0 0 0))
    as [st' |] eqn:Hrows; [| discriminate].
  injection Hrun as ->.
  destruct (run_rows_pointwise _ _ _ _ _ Hnd _ _ Hrows r Hr Hsel) as (d & a & Hd & Ha & Hlk).
  cbn [srs] in Ha, Hlk. split; intros Hgate; unfold untracked_win in Hgate.
  - rewrite (decide_action_untracked _ _ _ _ _ Hgate) in Ha. injection Ha as <-.
    rewrite Hlk. destruct (s0 !! puzzle_id r); reflexivity.
  - destruct (decide_action_upserts _ _ _ _ _ _ Hgate Ha) as [e ->].
    destruct (decide_action_upsert_inv _ _ _ _ _ _ Ha) as (s & i & -> & _).
    eexists d, _. split; [exact Hd |]. split; [exact Ha |]. split; [exact Hlk |].
    split; reflexivity.
Qed.

(** ** The hash of [_seed_offset_days] *)

Lemma seed_poly_congr (s : string) :
  forall x y : Z,
    x mod 2147483648 = y mod 2147483648 ->
    seed_poly x s mod 2147483648 = seed_poly y s mod 2147483648.
Proof.
  induction s as [| ch s IH]; intros x y Hxy; [exact Hxy |].
  cbn [seed_poly]. apply IH.
  rewrite (Z.add_mod (x * 131)), (Z.add_mod (y * 131)) by lia.
  rewrite (Z.mul_mod x), (Z.mul_mod y), Hxy by lia. reflexivity.
Qed.

Lemma seed_hash_poly (s : string) :
  forall base : Z,
    seed_hash base s mod 2147483648 = seed_poly base s mod 2147483648.
Proof.
  induction s as [| ch s IH]; intros base; [reflexivity |].
  cbn [seed_hash seed_poly]. rewrite land_mask, IH.
  apply seed_poly_congr. apply Z.mod_mod. lia.
Qed.

(** X11. The 31-bit mask of the stagger hash only reduces it: the value the
    loop of [_seed_offset_days] computes is the polynomial
    [c1 * 131^(n-1) + ... + cn] of the character codes of the identifier
    modulo [2^31]; it stays in [0 .. 2^31 - 1], and the stagger interval is
    that residue modulo the bucket count, with 0 read as 1. *)
Theorem seed_hash_is_polynomial (cfg : config) (puzzle_id : string) :
  seed_hash 0 puzzle_id = seed_poly 0 puzzle_id mod 2147483648
  /\ 0 <= seed_hash 0 puzzle_id < 2147483648
  /\ (SEED_MODE cfg = "stagger" ->
      _seed_offset_days cfg puzzle_id
      = or_int ((seed_poly 0 puzzle_id mod 2147483648)
                mod Z.max (STAGGER_BUCKETS cfg) 1) 1).
Proof.
  pose proof (seed_hash_range puzzle_id 0 ltac:(lia)) as Hr.
  assert (Heq : seed_hash 0 puzzle_id = seed_poly 0 puzzle_id mod 2147483648).
  { rewrite <- seed_hash_poly. symmetry. apply Z.mod_small. exact Hr. }
  split; [exact Heq |]. split; [exact Hr |].
  intros Hmode. unfold _seed_offset_days. rewrite Hmode, Heq. reflexivity.
Qed.

(** ** The streak of an upserted row *)

(** The streak of an upserted row, from the row it replaces. *)
Lemma decide_action_streak (cfg : config) (existing : option srs_row)
    (last_result : string) (d : date) (pid : string) (e : srs_row) :
  decide_action cfg existing last_result d pid = Ok (UPSERT e) ->
  success_streak e
  = Some (match existing with
          | Some row =>
              if String.eqb last_result "win"
              then or_none_int (success_streak row) 0 + 1
              else if RESET_ON_FAIL cfg then 0
                   else Z.max (or_none_int (success_streak row) 0 - 1) 0
          | None => if String.eqb last_result "win" then 1 else 0
          end).
Proof.
  intros Hdec.
  destruct (decide_action_upsert_inv _ _ _ _ _ _ Hdec) as (s & i & -> & Hgate & Hcu & _).
  cbn [success_streak]. f_equal. revert Hcu. unfold _calc_update.
  destruct (String.eqb last_result "win"); destruct (TRACK_WINS cfg);
    destruct existing as [row |]; cbn [andb negb] in *; try discriminate;
    try (match goal with
         | |- context [_next_interval_days cfg ?x ?w] =>
             destruct (_next_interval_days cfg x w)
         end; cbn; [| discriminate]);
    cbn; intros H; injection H as H _; congruence.
Qed.

(** ** When a run raises *)

Lemma next_interval_days_int64 (cfg : config) (s : Z) (for_win : bool) (x : Z) :
  int64_cadence (LOSS_CADENCE cfg) = true -> int64_cadence (WIN_CADENCE cfg) = true ->
  _next_interval_days cfg s for_win = Ok x -> int64 x = true.
Proof.
  intros Hl Hw Hx. rewrite next_interval_days_index in Hx.
  apply index_elem, list_elem_of_In in Hx.
  assert (Hc : int64_cadence (cadence cfg for_win) = true)
    by (unfold cadence; destruct (for_win && TRACK_WINS cfg); assumption).
  unfold int64_cadence in Hc. rewrite forallb_forall in Hc. exact (Hc _ Hx).
Qed.

(** The rows the engine upserts bind when the cadences and the streak it
    starts from do. *)
Lemma decide_action_binds (cfg : config) (existing : option srs_row)
    (last_result : string) (d : date) (pid : string) (e : srs_row) :
  int64_cadence (LOSS_CADENCE cfg) = true -> int64_cadence (WIN_CADENCE cfg) = true ->
  (forall row, existing = Some row -> streak_fits row = true) ->
  decide_action cfg existing last_result d pid = Ok (UPSERT e) ->
  upsert_binds e = true.
Proof.
  intros Hl Hw Hfit Hdec.
  pose proof (decide_action_streak _ _ _ _ _ _ Hdec) as Hstreak.
  destruct (decide_action_upsert_inv _ _ _ _ _ _ Hdec)
    as (n & i & He & _ & _ & Hi).
  unfold upsert_binds. rewrite Hstreak. rewrite He.
  cbn [interval_days default from_option id].
  apply andb_true_intro. split.
  - apply int64_spec. destruct existing as [row |].
    + specialize (Hfit row eq_refl). unfold streak_fits in Hfit.
      rewrite or_none_int_0.
      destruct (success_streak row) as [v |]; cbv iota beta.
      * apply andb_prop in Hfit as [Hv Hlt]. apply int64_spec in Hv.
        apply Z.ltb_lt in Hlt.
        destruct (String.eqb last_result "win"); [lia |].
        destruct (RESET_ON_FAIL cfg); lia.
      * destruct (String.eqb last_result "win"); [lia |].
        destruct (RESET_ON_FAIL cfg); lia.
    + destruct (String.eqb last_result "win"); lia.
  - destruct Hi as [-> | (s & w & Hs)].
    + apply seed_offset_days_int64.
    + exact (next_interval_days_int64 _ _ _ _ Hl Hw Hs).
Qed.

Lemma local_date_raises (fromisoformat : string -> option datetime)
    (local_utcoffset : Z -> Z) (iso_ts : option string) (err : exn) :
  _local_date_of_iso fromisoformat local_utcoffset iso_ts = Raise err ->
  err = AttributeError \/ err = ValueError \/ err = OverflowError.
Proof.
  unfold _local_date_of_iso. destruct iso_ts as [ts |].
  - destruct (fromisoformat (replace_Z ts)) as [dt |].
    + cbv zeta. destruct (in_datetime_range _); cbn [negb].
      * match goal with
        | |- context [in_datetime_range ?x] => destruct (in_datetime_range x)
        end; cbn [negb]; [discriminate |].
        intros H. injection H as <-. right. right. reflexivity.
      * intros H. injection H as <-. right. right. reflexivity.
    + intros H. injection H as <-. right. left. reflexivity.
  - intros H. injection H as <-. left. reflexivity.
Qed.

Lemma run_row_raise_inv (fromisoformat : string -> option datetime)
    (local_utcoffset : Z -> Z) (cfg : config) (changed_pids : option (list string))
    (r : attempt_row) (st : run_state) (err : exn) :
  run_row fromisoformat local_utcoffset cfg changed_pids r st = Raise err ->
  selected changed_pids r = true
  /\ (_local_date_of_iso fromisoformat local_utcoffset (last_attempt r) = Raise err
      \/ exists d,
          _local_date_of_iso fromisoformat local_utcoffset (last_attempt r) = Ok d
          /\ (decide_action cfg (srs st !! puzzle_id r) (result_of r) d (puzzle_id r)
              = Raise err
              \/ exists e,
                  decide_action cfg (srs st !! puzzle_id r) (result_of r) d
                    (puzzle_id r) = Ok (UPSERT e)
                  /\ upsert_binds e = false /\ err = OverflowError)).
Proof.
  rewrite run_row_unfold. unfold selected. fold (result_of r).
  destruct (skipped changed_pids (puzzle_id r)); [discriminate |].
  intros H. split; [reflexivity |].
  destruct (_local_date_of_iso fromisoformat local_utcoffset (last_attempt r)) as [d | e].
  - right. exists d. split; [reflexivity |].
    destruct (decide_action cfg (srs st !! puzzle_id r) (result_of r) d (puzzle_id r))
      as [a | e'].
    + right. apply execute_action_raise in H as (-> & e & -> & Hb).
      exists e. repeat split. exact Hb.
    + left. injection H as ->. reflexivity.
  - left. injection H as ->. reflexivity.
Qed.

(** The rows a run has yet to read keep the streaks they had. *)
Lemma run_row_keeps_others (fromisoformat : string -> option datetime)
    (local_utcoffset : Z -> Z) (cfg : config) (changed_pids : option (list string))
    (r : attempt_row) (st st' : run_state) (pid : string) :
  run_row fromisoformat local_utcoffset cfg changed_pids r st = Ok st' ->
  pid <> puzzle_id r -> srs st' !! pid = srs st !! pid.
Proof.
  intros Hrow Hne.
  destruct (run_row_inv _ _ _ _ _ _ _ Hrow) as [[_ ->] | (_ & d & a & _ & _ & ->)];
    [reflexivity |].
  apply apply_action_other. congruence.
Qed.

Lemma run_rows_raise_inv (fromisoformat : string -> option datetime)
    (local_utcoffset : Z -> Z) (cfg : config) (changed_pids : option (list string))
    (rows : list attempt_row) :
  LOSS_CADENCE cfg <> [] -> WIN_CADENCE cfg <> [] ->
  int64_cadence (LOSS_CADENCE cfg) = true -> int64_cadence (WIN_CADENCE cfg) = true ->
  NoDup (puzzle_id <$> rows) ->
  forall (st : run_state) (err : exn),
    (forall r row, r ∈ rows -> srs st !! puzzle_id r = Some row ->
                   streak_fits row = true) ->
    run_rows fromisoformat local_utcoffset cfg changed_pids rows st = Raise err ->
    exists before r after,
      rows = (before ++ r :: after)%list
      /\ selected changed_pids r = true
      /\ _local_date_of_iso fromisoformat local_utcoffset (last_attempt r) = Raise err
      /\ forall r', r' ∈ before -> selected changed_pids r' = true ->
           exists d, _local_date_of_iso fromisoformat local_utcoffset (last_attempt r')
                     = Ok d.
Proof.
  intros Hloss Hwin Hl64 Hw64.
  induction rows as [| r0 rows IH]; intros Hnd st err Hfit Hrun; [discriminate |].
  rewrite run_rows_cons in Hrun. rewrite fmap_cons in Hnd.
  apply NoDup_cons in Hnd as [Hfresh Hnd].
  destruct (run_row fromisoformat local_utcoffset cfg changed_pids r0 st)
    as [st1 |] eqn:Hrow.
  - destruct (IH Hnd st1 err) as (before & r & after & -> & Hsel & Hbad & Hgood);
      [| exact Hrun |].
    { intros r row Hr Hlk.
      rewrite (run_row_keeps_others _ _ _ _ _ _ _ _ Hrow) in Hlk.
      - exact (Hfit r row (list_elem_of_further _ _ _ Hr) Hlk).
      - intros Heq. apply Hfresh. rewrite <- Heq.
        apply list_elem_of_fmap. exists r. split; [reflexivity | exact Hr]. }
    exists (r0 :: before), r, after. split; [reflexivity |].
    split; [exact Hsel |]. split; [exact Hbad |].
    intros r' Hr' Hsel'. apply elem_of_cons in Hr' as [-> | Hr']; [| eauto].
    destruct (run_row_inv _ _ _ _ _ _ _ Hrow) as [[Hsk _] | (_ & d & _ & Hd & _)];
      [| eauto].
    unfold selected in Hsel'. rewrite Hsk in Hsel'. discriminate.
  - injection Hrun as ->.
    destruct (run_row_raise_inv _ _ _ _ _ _ _ Hrow)
      as [Hsel [Hbad | (d & _ & [Hdec | (e & Hdec & Hb & _)])]].
    + exists [], r0, rows. split; [reflexivity |]. split; [exact Hsel |].
      split; [exact Hbad |]. intros r' Hr'. inversion Hr'.
    + destruct (decide_action_total cfg (srs st !! puzzle_id r0) (result_of r0) d
                  (puzzle_id r0) Hloss Hwin) as [a Ha].
      congruence.
    + rewrite (decide_action_binds _ _ _ _ _ _ Hl64 Hw64
                 (fun row Hrow' => Hfit r0 row (list_elem_of_here _ _) Hrow') Hdec) in Hb.
      discriminate.
Qed.

Lemma run_rows_ok_parses (fromisoformat : string -> option datetime)
    (local_utcoffset : Z -> Z) (cfg : config) (changed_pids : option (list string))
    (rows : list attempt_row) :
  forall st st' : run_state,
    run_rows fromisoformat local_utcoffset cfg changed_pids rows st = Ok st' ->
    forall r, r ∈ rows -> selected changed_pids r = true ->
      exists d, _local_date_of_iso fromisoformat local_utcoffset (last_attempt r) = Ok d.
Proof.
  induction rows as [| r0 rows IH]; intros st st' Hrun r Hr Hsel.
  - inversion Hr.
  - rewrite run_rows_cons in Hrun.
    destruct (run_row fromisoformat local_utcoffset cfg changed_pids r0 st)
      as [st1 |] eqn:Hrow; [| discriminate].
    apply elem_of_cons in Hr as [-> | Hr]; [| exact (IH _ _ Hrun r Hr Hsel)].
    destruct (run_row_inv _ _ _ _ _ _ _ Hrow) as [[Hsk _] | (_ & d & _ & Hd & _)];
      [| eauto].
    unfold selected in Hsel. rewrite Hsk in Hsel. discriminate.
Qed.

(** X8. With cadences that are not empty and whose entries are integers of
    64 bits, one record per puzzle, and stored streaks that are NULL or
    integers of 64 bits below the largest, [_local_date_of_iso] is the only
    way a run fails: it commits if and only if [_local_date_of_iso] returns
    a date for the latest timestamp of every processed record, and when it
    rolls back the exception is the one [_local_date_of_iso] raises
    ([AttributeError], [ValueError] or [OverflowError]) on the first
    processed record for which it raises; it is never [IndexError]. *)
Theorem run_fails_on_first_bad_timestamp (fromisoformat : string -> option datetime)
    (local_utcoffset : Z -> Z) (cfg : config) (rows : list attempt_row)
    (s0 : gmap string srs_row) (changed_pids : option (list string)) :
  LOSS_CADENCE cfg <> [] -> WIN_CADENCE cfg <> [] ->
  int64_cadence (LOSS_CADENCE cfg) = true -> int64_cadence (WIN_CADENCE cfg) = true ->
  NoDup (puzzle_id <$> rows) ->
  (forall pid row, s0 !! pid = Some row -> streak_fits row = true) ->
  ((exists st, run fromisoformat local_utcoffset cfg rows s0 changed_pids = Committed st)
   <-> forall r, r ∈ rows -> selected changed_pids r = true ->
         exists d, _local_date_of_iso fromisoformat local_utcoffset (last_attempt r)
                   = Ok d)
  /\ (forall err,
        run fromisoformat local_utcoffset cfg rows s0 changed_pids = RolledBack err ->
        (err = AttributeError \/ err = ValueError \/ err = OverflowError)
        /\ exists before r after,
          rows = (before ++ r :: after)%list
          /\ selected changed_pids r = true
          /\ _local_date_of_iso fromisoformat local_utcoffset (last_attempt r)
             = Raise err
          /\ forall r', r' ∈ before -> selected changed_pids r' = true ->
               exists d, _local_date_of_iso fromisoformat local_utcoffset
                           (last_attempt r') = Ok d).
Proof.
  intros Hloss Hwin Hl64 Hw64 Hnd Hfit.
  assert (Hfit0 : forall r row, r ∈ rows ->
                    srs (mkState s0 0 0) !! puzzle_id r = Some row ->
                    streak_fits row = true)
    by (intros r row _ Hlk; exact (Hfit _ _ Hlk)).
  split; [split |].
  - intros [st Hrun]. unfold run in Hrun.
    destruct (run_rows fromisoformat local_utcoffset cfg changed_pids rows (mkState s0 0 0))
      as [st' |] eqn:Hrows; [| discriminate].
    exact (run_rows_ok_parses _ _ _ _ _ _ _ Hrows).
  - intros Hparse. unfold run.
    destruct (run_rows fromisoformat local_utcoffset cfg changed_pids rows (mkState s0 0 0))
      as [st' | err] eqn:Hrows; [eauto |].
    destruct (run_rows_raise_inv _ _ _ _ _ Hloss Hwin Hl64 Hw64 Hnd _ _ Hfit0 Hrows)
      as (before & r & after & -> & Hsel & Hbad & _).
    destruct (Hparse r) as [d Hd]; [| exact Hsel | congruence].
    apply elem_of_app. right. apply list_elem_of_here.
  - intros err Hrun. unfold run in Hrun.
    destruct (run_rows fromisoformat local_utcoffset cfg changed_pids rows (mkState s0 0 0))
      as [st' |] eqn:Hrows; [discriminate |].
    injection Hrun as ->.
    pose proof (run_rows_raise_inv _ _ _ _ _ Hloss Hwin Hl64 Hw64 Hnd _ _ Hfit0 Hrows)
      as Hinv.
    split; [| exact Hinv].
    destruct Hinv as (_ & r & _ & _ & _ & Hbad & _).
    exact (local_date_raises _ _ _ _ Hbad).
Qed.

(** ** Invariants of the tables the engine leaves *)

(** A property of rows that every upsert establishes holds of every row
    after the loop if it held of every row before. *)
Lemma run_rows_preserve (fromisoformat : string -> option datetime)
    (local_utcoffset : Z -> Z) (cfg : config) (changed_pids : option (list string))
    (P : string -> srs_row -> Prop) (rows : list attempt_row) :
  (forall (st : run_state) (r : attempt_row) (d : date) (e : srs_row),
      (forall pid row, srs st !! pid = Some row -> P pid row) ->
      _local_date_of_iso fromisoformat local_utcoffset (last_attempt r) = Ok d ->
      decide_action cfg (srs st !! puzzle_id r) (result_of r) d (puzzle_id r)
      = Ok (UPSERT e) ->
      upsert_binds e = true ->
      P (puzzle_id r) e) ->
  forall st st' : run_state,
    (forall pid row, srs st !! pid = Some row -> P pid row) ->
    run_rows fromisoformat local_utcoffset cfg changed_pids rows st = Ok st' ->
    forall pid row, srs st' !! pid = Some row -> P pid row.
Proof.
  intros Hstep. induction rows as [| r rows IH]; intros st st' HP Hrun.
  - injection Hrun as <-. exact HP.
  - rewrite run_rows_cons in Hrun.
    destruct (run_row fromisoformat local_utcoffset cfg changed_pids r st)
      as [st1 |] eqn:Hrow; [| discriminate].
    apply (IH st1 st'); [| exact Hrun].
    destruct (run_row_inv _ _ _ _ _ _ _ Hrow) as [[_ ->] | (Hsk & d & a & Hd & Ha & ->)];
      [exact HP |].
    intros pid row Hlk. destruct (decide (puzzle_id r = pid)) as [<- | Hne].
    + rewrite apply_action_same in Hlk. destruct a as [e | |].
      * injection Hlk as <-.
        exact (Hstep st r d e HP Hd Ha (run_row_binds _ _ _ _ _ _ _ _ _ Hrow Hsk Hd Ha)).
      * discriminate.
      * exact (HP _ _ Hlk).
    + rewrite apply_action_other in Hlk by exact Hne. exact (HP _ _ Hlk).
Qed.

Lemma table_under_preserve (fromisoformat : string -> option datetime)
    (local_utcoffset : Z -> Z) (ok : config -> Prop) (P : string -> srs_row -> Prop) :
  (forall (cfg : config) (st : run_state) (r : attempt_row) (d : date) (e : srs_row),
      ok cfg ->
      (forall pid row, srs st !! pid = Some row -> P pid row) ->
      _local_date_of_iso fromisoformat local_utcoffset (last_attempt r) = Ok d ->
      decide_action cfg (srs st !! puzzle_id r) (result_of r) d (puzzle_id r)
      = Ok (UPSERT e) ->
      upsert_binds e = true ->
      P (puzzle_id r) e) ->
  forall s, table_under fromisoformat local_utcoffset ok s ->
    forall pid row, s !! pid = Some row -> P pid row.
Proof.
  intros Hstep s Hs.
  induction Hs as [| cfg rows changed_pids s Hok Hs IH]; intros pid row Hlk.
  - rewrite lookup_empty in Hlk. discriminate.
  - unfold run in Hlk.
    destruct (run_rows fromisoformat local_utcoffset cfg changed_pids rows (mkState s 0 0))
      as [st' |] eqn:Hrows; cbn [srs_after] in Hlk; [| exact (IH _ _ Hlk)].
    exact (run_rows_preserve fromisoformat local_utcoffset cfg changed_pids P rows
             (fun st r d e => Hstep cfg st r d e Hok) (mkState s 0 0) st' IH Hrows
             pid row Hlk).
Qed.

Lemma lower_char_idempotent (ch : ascii) :
  Py.lower_char (Py.lower_char ch) = Py.lower_char ch.
Proof.
  destruct ch as [[] [] [] [] [] [] [] []]; reflexivity.
Qed.

Lemma lower_idempotent (s : string) : Py.lower (Py.lower s) = Py.lower s.
Proof.
  induction s as [| ch s IH]; [reflexivity |].
  cbn [Py.lower]. rewrite lower_char_idempotent, IH. reflexivity.
Qed.

(** X9. Every row of every table the engine leaves, under any sequence of
    configurations, runs and record sets from the empty table, is well
    formed: its streak is a number, never NULL nor negative, at most
    2^63 - 1, and at least 1 when the row records a win; its interval is an
    integer of 64 bits; [last_reviewed] is a date of the calendar in the
    years 1 to 9999; [due_date] is NULL or the date of the calendar
    [interval_days] days after [last_reviewed], the interval then not
    negative and the date not after 9999-12-31; [last_result] is in lower
    case. *)
Theorem engine_rows_wellformed (fromisoformat : string -> option datetime)
    (local_utcoffset : Z -> Z) (s : gmap string srs_row) :
  table_under fromisoformat local_utcoffset (fun _ => True) s ->
  forall pid row, s !! pid = Some row -> row_wellformed row.
Proof.
  apply (table_under_preserve fromisoformat local_utcoffset (fun _ => True)
           (fun _ row => row_wellformed row)).
  intros cfg st r d e _ HP Hd Hdec Hbinds.
  pose proof (decide_action_streak _ _ _ _ _ _ Hdec) as Hstreak.
  destruct (decide_action_upsert_inv _ _ _ _ _ _ Hdec) as (n & i & He & _).
  assert (Hprev : forall row, srs st !! puzzle_id r = Some row ->
                              0 <= or_none_int (success_streak row) 0).
  { intros row Hrow. destruct (HP _ _ Hrow) as [(m & -> & Hm & _) _].
    cbn. unfold or_int. destruct (Z.eqb_spec m 0); lia. }
  unfold upsert_binds in Hbinds. apply andb_prop in Hbinds as [Hb1 Hb2].
  rewrite Hstreak in Hb1. cbn [default from_option id] in Hb1.
  apply int64_spec in Hb1.
  destruct (local_date_of_iso_range _ _ _ _ Hd) as [Hvalid Hrange].
  split; [| split; [| split; [| split; [| split]]]].
  - eexists. split; [exact Hstreak |].
    assert (Hwin : last_result e = "win" -> String.eqb (result_of r) "win" = true).
    { intros Hw. rewrite He in Hw. cbn in Hw. rewrite Hw. reflexivity. }
    destruct (srs st !! puzzle_id r) as [row |] eqn:Hex.
    + specialize (Hprev row eq_refl).
      destruct (String.eqb (result_of r) "win") eqn:Hw.
      * split; [lia | intros _; lia].
      * split; [destruct (RESET_ON_FAIL cfg); lia |].
        intros Hc. apply Hwin in Hc. discriminate.
    + destruct (String.eqb (result_of r) "win") eqn:Hw.
      * split; [lia | intros _; lia].
      * split; [lia |]. intros Hc. apply Hwin in Hc. discriminate.
  - exact Hb2.
  - rewrite He. cbn. exact Hvalid.
  - rewrite He. cbn [last_reviewed]. exact Hrange.
  - rewrite He. cbn [due_date interval_days last_reviewed]. intros due Hdue.
    exact (sql_date_days _ _ _ Hdue).
  - rewrite He. cbn. unfold result_of. apply lower_idempotent.
Qed.

(** X10. The later entries of the loss cadence are dead configuration unless
    wins are tracked and losses do not reset: under one configuration with
    [TRACK_WINS] false or [RESET_ON_FAIL] true, every row the engine leaves
    for a loss has streak 0 and, as interval, the seed interval of its
    puzzle or [LOSS_CADENCE[0]]; and with [TRACK_WINS] false no row records
    a win. *)
Theorem loss_rows_use_first_cadence_entry (fromisoformat : string -> option datetime)
    (local_utcoffset : Z -> Z) (cfg : config) (s : gmap string srs_row) :
  TRACK_WINS cfg = false \/ RESET_ON_FAIL cfg = true ->
  table_under fromisoformat local_utcoffset (fun c => c = cfg) s ->
  forall pid row, s !! pid = Some row ->
    (TRACK_WINS cfg = false -> String.eqb (last_result row) "win" = false)
    /\ (String.eqb (last_result row) "win" = false ->
        success_streak row = Some 0
        /\ (interval_days row = _seed_offset_days cfg pid
            \/ Py.index (LOSS_CADENCE cfg) 0 = Ok (interval_days row))).
Proof.
  intros Hcfg.
  apply (table_under_preserve fromisoformat local_utcoffset (fun c => c = cfg)
           (fun pid row =>
              (TRACK_WINS cfg = false -> String.eqb (last_result row) "win" = false)
              /\ (String.eqb (last_result row) "win" = false ->
                  success_streak row = Some 0
                  /\ (interval_days row = _seed_offset_days cfg pid
                      \/ Py.index (LOSS_CADENCE cfg) 0 = Ok (interval_days row))))).
  intros c st r d e -> HP Hd Hdec _.
  pose proof (decide_action_streak _ _ _ _ _ _ Hdec) as Hstreak.
  destruct (decide_action_upsert_inv _ _ _ _ _ _ Hdec) as (n & i & He & Hgate & _ & _).
  assert (Hlr : last_result e = result_of r) by (rewrite He; reflexivity).
  rewrite Hlr. split.
  - intros Htw. rewrite Htw in Hgate. cbn in Hgate. rewrite andb_true_r in Hgate.
    exact Hgate.
  - intros Hloss. rewrite Hloss in Hstreak.
    destruct (srs st !! puzzle_id r) as [row |] eqn:Hex.
    + pose proof (decide_action_existing_loss cfg row (result_of r) d (puzzle_id r) Hloss)
        as Heq. cbv zeta in Heq.
      rewrite <- (or_none_int_0 (success_streak row)) in Heq. rewrite Heq in Hdec.
      assert (Hzero : (if RESET_ON_FAIL cfg then 0
                       else Z.max (or_none_int (success_streak row) 0 - 1) 0) = 0).
      { destruct (RESET_ON_FAIL cfg) eqn:Hreset; [reflexivity |].
        destruct Hcfg as [Htw | Hc]; [| discriminate].
        destruct (HP _ _ Hex) as [Hnowin Hrow].
        destruct (Hrow (Hnowin Htw)) as [-> _]. reflexivity. }
      rewrite Hzero in Hstreak, Hdec. split; [exact Hstreak |]. right.
      destruct (LOSS_CADENCE cfg) as [| x l] eqn:Hcad.
      * rewrite index_empty in Hdec. discriminate.
      * replace (Z.min (Z.max 0 1 - 1) (Z.of_nat (length (x :: l)) - 1)) with 0 in Hdec
          by (cbn [length]; lia).
        destruct (Py.index (x :: l) 0) as [iv |]; cbn in Hdec; [| discriminate].
        f_equal.
        apply (f_equal (fun o => match o with
                                 | Ok (UPSERT e') => interval_days e'
                                 | _ => 0
                                 end)) in Hdec.
        exact Hdec.
    + split; [exact Hstreak |]. left.
      unfold decide_action, _calc_update in Hdec. rewrite Hloss in Hdec. cbn in Hdec.
      apply (f_equal (fun o => match o with
                               | Ok (UPSERT e') => interval_days e'
                               | _ => 0
                               end)) in Hdec.
      cbn in Hdec. symmetry. exact Hdec.
Qed.

(** ** The local date of an attempt *)

(** X12. The local date of an attempt is a date of the calendar and is the
    UTC date of the attempt or one of its two neighbours: with a local
    offset of less than a day either way, the day number of what
    [_local_date_of_iso] returns differs by at most 1 from the one it
    returns in a process whose zone is UTC, at or after it for offsets east
    of Greenwich and at or before it for offsets west. *)
Theorem local_date_near_utc_date (fromisoformat : string -> option datetime)
    (local_utcoffset : Z -> Z) (iso_ts : option string) (d : date) :
  (forall instant, -86400 < local_utcoffset instant < 86400) ->
  _local_date_of_iso fromisoformat local_utcoffset iso_ts = Ok d ->
  valid d = true
  /\ exists d0,
      _local_date_of_iso fromisoformat (fun _ => 0) iso_ts = Ok d0
      /\ -1 <= days_from_civil d - days_from_civil d0 <= 1
      /\ ((forall instant, 0 <= local_utcoffset instant) ->
          days_from_civil d0 <= days_from_civil d)
      /\ ((forall instant, local_utcoffset instant <= 0) ->
          days_from_civil d <= days_from_civil d0).
Proof.
  intros Hoff Hd. split; [exact (local_date_of_iso_valid _ _ _ _ Hd) |].
  unfold _local_date_of_iso in *.
  destruct iso_ts as [ts |]; [| discriminate].
  destruct (fromisoformat (replace_Z ts)) as [dt |]; [| discriminate].
  cbv zeta in *.
  set (instant := wall dt - match tzinfo dt with None => 0 | Some o => o end) in *.
  destruct (in_datetime_range instant) eqn:Hin; cbn [negb] in *; [| discriminate].
  replace (instant + 0) with instant by lia. rewrite Hin. cbn [negb].
  destruct (in_datetime_range (instant + local_utcoffset instant));
    cbn [negb] in Hd; [| discriminate].
  injection Hd as <-.
  eexists. split; [reflexivity |].
  rewrite !days_from_civil_from_days.
  pose proof (Hoff instant) as Ho.
  repeat split; try (intros Hsign; specialize (Hsign instant));
    Z.div_mod_to_equations; lia.
Qed.

(** ** Texts of digits *)

Lemma decimal_digit_char (d : Z) :
  0 <= d <= 9 -> Py.decimal (digit_char d) = Some d.
Proof.
  intros Hd.
  assert (Hc : d = 0 \/ d = 1 \/ d = 2 \/ d = 3 \/ d = 4 \/ d = 5 \/ d = 6
               \/ d = 7 \/ d = 8 \/ d = 9) by lia.
  repeat (destruct Hc as [-> | Hc]); [.. | subst d]; reflexivity.
Qed.

Lemma decimal_range (ch : ascii) (d : Z) :
  Py.decimal ch = Some d ->
  0 <= d <= 9 /\ (48 <= nat_of_ascii ch <= 57)%nat.
Proof.
  unfold Py.decimal.
  destruct (Nat.leb 48 (nat_of_ascii ch) && Nat.leb (nat_of_ascii ch) 57)%bool eqn:H;
    [| discriminate].
  apply andb_prop in H as [H1 H2]. apply Nat.leb_le in H1, H2.
  intros Heq. injection Heq as <-. lia.
Qed.

Lemma decimal_not_space (ch : ascii) (d : Z) :
  Py.decimal ch = Some d ->
  Py.isspace ch = false /\ int_space ch = false /\ Ascii.eqb ch "#" = false
  /\ Ascii.eqb ch "," = false /\ Ascii.eqb ch "_" = false
  /\ Py.isdigit_char ch = true /\ ch <> "+"%char /\ ch <> "-"%char.
Proof.
  intros Hd. apply decimal_range in Hd as [_ Hc].
  destruct ch as [[] [] [] [] [] [] [] []]; vm_compute in Hc; try lia;
    repeat split; try reflexivity; discriminate.
Qed.

(** The digits [str_nat] writes read back as the number, whatever follows. *)
Lemma str_nat_reads (fuel : nat) :
  forall (n : Z) (acc : string),
    0 <= n < 2 ^ Z.of_nat (S fuel) ->
    exists k : Z,
      0 < k
      /\ (forall a, Py.digits_value a (str_nat (S fuel) n acc)
                    = Py.digits_value (a * 10 ^ k + n) acc)
      /\ (forall a p, int_body a p (str_nat (S fuel) n acc)
                      = int_body (a * 10 ^ k + n) true acc).
Proof.
  assert (Hone : forall n acc, 0 <= n < 10 ->
             (forall a, Py.digits_value a (String (digit_char (n mod 10)) acc)
                        = Py.digits_value (a * 10 ^ 1 + n) acc)
             /\ (forall a p, int_body a p (String (digit_char (n mod 10)) acc)
                             = int_body (a * 10 ^ 1 + n) true acc)).
  { intros n acc Hn.
    assert (Hdec : Py.decimal (digit_char (n mod 10)) = Some n).
    { rewrite Z.mod_small by lia. apply decimal_digit_char. lia. }
    split; intros a; [| intros p]; cbn [Py.digits_value int_body]; rewrite Hdec;
      f_equal; lia. }
  induction fuel as [| fuel IH]; intros n acc Hn.
  - assert (Hlt : (n <? 10) = true) by (change (2 ^ Z.of_nat 1) with 2 in Hn; lia).
    cbn [str_nat]. rewrite Hlt. exists 1. split; [lia |]. apply Hone. lia.
  - cbn [str_nat]. destruct (Z.ltb_spec n 10) as [Hlt | Hge].
    + exists 1. split; [lia |]. apply Hone. lia.
    + assert (Hq : 0 <= n / 10 < 2 ^ Z.of_nat (S fuel)).
      { rewrite (Nat2Z.inj_succ (S fuel)), Z.pow_succ_r in Hn by lia.
        Z.div_mod_to_equations. lia. }
      destruct (IH (n / 10) (String (digit_char (n mod 10)) acc) Hq) as (k & Hk & H1 & H2).
      exists (k + 1). split; [lia |].
      assert (Hdec : Py.decimal (digit_char (n mod 10)) = Some (n mod 10)).
      { apply decimal_digit_char. Z.div_mod_to_equations. lia. }
      assert (Hval : forall a, (a * 10 ^ k + n / 10) * 10 + n mod 10
                               = a * 10 ^ (k + 1) + n).
      { intros a. rewrite Z.pow_add_r by lia. Z.div_mod_to_equations. lia. }
      cbn [str_nat] in H1, H2.
      split; intros a; [| intros p].
      * rewrite H1. cbn [Py.digits_value]. rewrite Hdec, Hval. reflexivity.
      * rewrite H2. cbn [int_body]. rewrite Hdec, Hval. reflexivity.
Qed.

Lemma str_nat_digits (fuel : nat) :
  forall (n : Z) (acc : string),
    0 <= n -> digits_only acc = true ->
    digits_only (str_nat fuel n acc) = true.
Proof.
  induction fuel as [| fuel IH]; intros n acc Hn Hacc; [exact Hacc |].
  cbn [str_nat].
  assert (Hdec : Py.decimal (digit_char (n mod 10)) = Some (n mod 10)).
  { apply decimal_digit_char. Z.div_mod_to_equations. lia. }
  assert (Hacc' : digits_only (String (digit_char (n mod 10)) acc) = true).
  { cbn [digits_only]. rewrite Hdec, Hacc. reflexivity. }
  destruct (n <? 10); [exact Hacc' |].
  apply IH; [Z.div_mod_to_equations; lia | exact Hacc'].
Qed.

Lemma str_nat_nonempty (fuel : nat) (n : Z) (acc : string) :
  str_nat (S fuel) n acc <> EmptyString.
Proof.
  revert n acc. induction fuel as [| fuel IH]; intros n acc.
  - cbn. destruct (n <? 10); discriminate.
  - cbn [str_nat]. destruct (n <? 10); [discriminate |].
    apply (IH (n / 10)).
Qed.

Lemma log2_fuel (n : Z) : 0 <= n -> 0 <= n < 2 ^ Z.of_nat (S (Z.to_nat (Z.log2 n))).
Proof.
  intros Hn. split; [exact Hn |].
  rewrite Nat2Z.inj_succ, Z2Nat.id by apply Z.log2_nonneg.
  destruct (Z.eq_dec n 0) as [-> | Hne]; [cbn; lia |].
  apply Z.log2_spec. lia.
Qed.

(** [str(n)] for [n >= 0]: a text of digits that is not empty and reads
    back as [n]. *)
Lemma str_int_nonneg (n : Z) :
  0 <= n ->
  digits_only (str_int n) = true
  /\ str_int n <> EmptyString
  /\ Py.digits_value 0 (str_int n) = Ok n
  /\ int_body 0 false (str_int n) = Some n.
Proof.
  intros Hn. unfold str_int.
  assert (Hneg : (n <? 0) = false) by lia. rewrite Hneg.
  destruct (str_nat_reads _ n EmptyString (log2_fuel n Hn)) as (k & _ & H1 & H2).
  split; [apply str_nat_digits; [exact Hn | reflexivity] |].
  split; [apply str_nat_nonempty |].
  split.
  - rewrite H1. reflexivity.
  - rewrite H2. reflexivity.
Qed.

(** [str(n)] has as many digits as the size of [n] allows. *)
Lemma str_nat_count (fuel : nat) :
  forall (n : Z) (acc : string) (k : Z),
    1 <= k -> 0 <= n < 10 ^ k ->
    count_digits (str_nat fuel n acc) <= k + count_digits acc.
Proof.
  induction fuel as [| fuel IH]; intros n acc k Hk Hn; [cbn [str_nat]; lia |].
  cbn [str_nat].
  assert (Hdec : Py.decimal (digit_char (n mod 10)) = Some (n mod 10)).
  { apply decimal_digit_char. Z.div_mod_to_equations. lia. }
  assert (Hacc : count_digits (String (digit_char (n mod 10)) acc)
                 = 1 + count_digits acc).
  { cbn [count_digits]. rewrite Hdec. reflexivity. }
  destruct (Z.ltb_spec n 10) as [Hlt | Hge]; [rewrite Hacc; lia |].
  assert (Hk2 : 2 <= k).
  { destruct (Z.eq_dec k 1) as [-> | Hne]; [| lia].
    change (10 ^ 1) with 10 in Hn. lia. }
  assert (Hq : 0 <= n / 10 < 10 ^ (k - 1)).
  { replace k with (Z.succ (k - 1)) in Hn by lia.
    rewrite Z.pow_succ_r in Hn by lia.
    split; [apply Z.div_pos; lia |].
    apply Z.div_lt_upper_bound; lia. }
  pose proof (IH (n / 10) (String (digit_char (n mod 10)) acc) (k - 1)
                ltac:(lia) Hq) as Hc.
  rewrite Hacc in Hc. lia.
Qed.

Lemma str_int_count (n : Z) :
  0 <= n -> convertible n -> count_digits (str_int n) <= max_str_digits.
Proof.
  intros Hn Hc.
  unfold str_int. assert (Hneg : (n <? 0) = false) by lia. rewrite Hneg.
  pose proof (str_nat_count (S (Z.to_nat (Z.log2 n))) n EmptyString max_str_digits)
    as H.
  cbn [count_digits] in H. rewrite Z.add_0_r in H. apply H.
  - unfold max_str_digits. lia.
  - unfold convertible in Hc. rewrite Z.abs_eq in Hc by lia. lia.
Qed.

Lemma str_int_literal (n : Z) :
  0 <= n -> convertible n -> int_literal (str_int n) = Some n.
Proof.
  intros Hn Hc. unfold int_literal.
  pose proof (str_int_count n Hn Hc) as Hcount.
  assert (Hlt : (max_str_digits <? count_digits (str_int n)) = false) by lia.
  rewrite Hlt.
  exact (proj2 (proj2 (proj2 (str_int_nonneg n Hn)))).
Qed.

Lemma str_int_digits (n : Z) :
  0 <= n -> convertible n -> Py.int_digits (str_int n) = Ok n.
Proof.
  intros Hn Hc. unfold Py.int_digits.
  pose proof (str_int_count n Hn Hc) as Hcount.
  assert (Hlt : (max_str_digits <? count_digits (str_int n)) = false) by lia.
  rewrite Hlt.
  exact (proj1 (proj2 (proj2 (str_int_nonneg n Hn)))).
Qed.

(** What the operations of the readers do to a text of digits. *)
Lemma digits_only_first (s : string) :
  digits_only s = true -> s <> EmptyString ->
  exists ch r d, s = String ch r /\ Py.decimal ch = Some d /\ digits_only r = true.
Proof.
  destruct s as [| ch r]; [congruence |]. cbn [digits_only].
  intros H _. apply andb_prop in H as [H1 H2].
  apply bool_decide_eq_true in H1 as [d Hd]. exists ch, r, d. auto.
Qed.

Lemma digits_only_rstrip (p : ascii -> bool) (s : string) :
  (forall ch d, Py.decimal ch = Some d -> p ch = false) ->
  digits_only s = true -> rstrip_by p s = s.
Proof.
  intros Hp. induction s as [| ch r IH]; [reflexivity |].
  cbn [digits_only rstrip_by]. intros H. apply andb_prop in H as [H1 H2].
  apply bool_decide_eq_true in H1 as [d Hd].
  rewrite (IH H2). destruct r; [rewrite (Hp _ _ Hd) |]; reflexivity.
Qed.

Lemma rstrip_by_isspace (s : string) : rstrip_by Py.isspace s = Py.rstrip s.
Proof.
  induction s as [| ch r IH]; [reflexivity |].
  cbn [rstrip_by Py.rstrip]. rewrite IH. reflexivity.
Qed.

Lemma lstrip_by_isspace (s : string) : lstrip_by Py.isspace s = Py.lstrip s.
Proof.
  induction s as [| ch r IH]; [reflexivity |].
  cbn [lstrip_by Py.lstrip]. rewrite IH. reflexivity.
Qed.

Lemma digits_only_strip (s : string) :
  digits_only s = true ->
  Py.strip s = s /\ strip_by int_space s = s /\ before_hash s = s.
Proof.
  intros Hs. split; [| split].
  - unfold Py.strip. rewrite <- rstrip_by_isspace.
    assert (Hl : Py.lstrip s = s).
    { destruct s as [| ch r]; [reflexivity |]. cbn [digits_only] in Hs.
      apply andb_prop in Hs as [H1 _]. apply bool_decide_eq_true in H1 as [d Hd].
      cbn [Py.lstrip]. destruct (decimal_not_space _ _ Hd) as (-> & _). reflexivity. }
    rewrite Hl. apply digits_only_rstrip; [| exact Hs].
    intros ch d Hd. exact (proj1 (decimal_not_space _ _ Hd)).
  - unfold strip_by.
    assert (Hl : lstrip_by int_space s = s).
    { destruct s as [| ch r]; [reflexivity |]. cbn [digits_only] in Hs.
      apply andb_prop in Hs as [H1 _]. apply bool_decide_eq_true in H1 as [d Hd].
      cbn [lstrip_by]. destruct (decimal_not_space _ _ Hd) as (_ & -> & _). reflexivity. }
    rewrite Hl. apply digits_only_rstrip; [| exact Hs].
    intros ch d Hd. exact (proj1 (proj2 (decimal_not_space _ _ Hd))).
  - induction s as [| ch r IH]; [reflexivity |]. cbn [digits_only] in Hs.
    apply andb_prop in Hs as [H1 H2]. apply bool_decide_eq_true in H1 as [d Hd].
    cbn [before_hash]. destruct (decimal_not_space _ _ Hd) as (_ & _ & -> & _).
    rewrite (IH H2). reflexivity.
Qed.

Lemma digits_only_isdigit (s : string) :
  digits_only s = true -> s <> EmptyString -> Py.isdigit s = true.
Proof.
  intros Hs Hne. destruct s as [| ch r]; [congruence |]. unfold Py.isdigit.
  clear Hne. revert Hs. generalize (String ch r). clear ch r.
  induction s as [| ch r IH]; [reflexivity |]. cbn [digits_only].
  intros H. apply andb_prop in H as [H1 H2]. apply bool_decide_eq_true in H1 as [d Hd].
  cbn [list_ascii_of_string forallb].
  destruct (decimal_not_space _ _ Hd) as (_ & _ & _ & _ & _ & -> & _).
  exact (IH H2).
Qed.

(** ** Stripping and cutting texts *)

Lemma append_cons (ch : ascii) (a b : string) :
  String ch a ++ b = String ch (a ++ b).
Proof. reflexivity. Qed.

Lemma append_nil (b : string) : EmptyString ++ b = b.
Proof. reflexivity. Qed.

Lemma lstrip_blanks_app (ws t : string) :
  blanks ws = true -> Py.lstrip (ws ++ t) = Py.lstrip t.
Proof.
  induction ws as [| ch ws IH]; [reflexivity |]. cbn [blanks]. intros H.
  apply andb_prop in H as [H1 H2]. rewrite append_cons. cbn [Py.lstrip].
  rewrite H1. exact (IH H2).
Qed.

Lemma rstrip_blanks (ws : string) : blanks ws = true -> Py.rstrip ws = EmptyString.
Proof.
  induction ws as [| ch ws IH]; [reflexivity |]. cbn [blanks]. intros H.
  apply andb_prop in H as [H1 H2]. cbn [Py.rstrip]. rewrite (IH H2), H1. reflexivity.
Qed.

Lemma rstrip_app_blanks (t ws : string) :
  blanks ws = true -> Py.rstrip (t ++ ws) = Py.rstrip t.
Proof.
  intros Hws. induction t as [| ch t IH]; [exact (rstrip_blanks ws Hws) |].
  rewrite append_cons. cbn [Py.rstrip]. rewrite IH. reflexivity.
Qed.

(** A text that [strip] leaves as it is and that is not empty. *)
Lemma strip_padded (ws1 s ws2 : string) :
  blanks ws1 = true -> blanks ws2 = true ->
  s <> EmptyString -> Py.lstrip s = s -> Py.rstrip s = s ->
  Py.strip (ws1 ++ s ++ ws2) = s.
Proof.
  intros H1 H2 Hne Hl Hr. unfold Py.strip. rewrite (lstrip_blanks_app _ _ H1).
  assert (Hl' : Py.lstrip (s ++ ws2) = s ++ ws2).
  { destruct s as [| ch r]; [congruence |]. rewrite append_cons.
    cbn [Py.lstrip] in *.
    destruct (Py.isspace ch); [| reflexivity].
    exfalso. clear -Hl.
    assert (Hlen : forall t, (String.length (Py.lstrip t) <= String.length t)%nat).
    { induction t as [| c t IHt]; [cbn; lia |]. cbn [Py.lstrip].
      destruct (Py.isspace c); cbn [String.length] in *; lia. }
    specialize (Hlen r). rewrite Hl in Hlen. cbn [String.length] in Hlen. lia. }
  rewrite Hl', (rstrip_app_blanks _ _ H2). exact Hr.
Qed.

Lemma before_hash_app (a c : string) :
  before_hash (a ++ String "#" c) = before_hash a.
Proof.
  induction a as [| ch a IH]; [reflexivity |]. rewrite append_cons.
  cbn [before_hash].
  destruct (Ascii.eqb ch "#"); [reflexivity |]. rewrite IH. reflexivity.
Qed.

Lemma before_hash_app_id (a b : string) :
  before_hash a = a -> before_hash b = b -> before_hash (a ++ b) = a ++ b.
Proof.
  induction a as [| ch a IH]; intros Ha Hb; [exact Hb |].
  rewrite append_cons. cbn [before_hash] in *.
  destruct (Ascii.eqb ch "#"); [discriminate |].
  injection Ha as Ha. rewrite (IH Ha Hb). reflexivity.
Qed.

Lemma blanks_no_hash (ws : string) : blanks ws = true -> before_hash ws = ws.
Proof.
  induction ws as [| ch ws IH]; [reflexivity |]. cbn [blanks before_hash]. intros H.
  apply andb_prop in H as [H1 H2]. rewrite (IH H2).
  assert (Hh : Ascii.eqb ch "#" = false).
  { destruct (Ascii.eqb_spec ch "#") as [-> |]; [discriminate | reflexivity]. }
  rewrite Hh. reflexivity.
Qed.

(** ** [str] and [int] *)

(** What [strip], the cut at ["#"] and [int] do to [str(n)]. *)
Lemma str_int_reads (n : Z) :
  convertible n ->
  str_int n <> EmptyString
  /\ Py.lstrip (str_int n) = str_int n
  /\ Py.rstrip (str_int n) = str_int n
  /\ before_hash (str_int n) = str_int n
  /\ int_text (str_int n) = Some n.
Proof.
  intros Hconv.
  destruct (Z.ltb_spec n 0) as [Hneg | Hpos].
  - destruct (str_int_nonneg (- n) ltac:(lia)) as (Hds & Hne & _ & _).
    assert (Hbody : int_literal (str_int (- n)) = Some (- n)).
    { apply str_int_literal; [lia |]. unfold convertible in *.
      rewrite Z.abs_opp. exact Hconv. }
    destruct (digits_only_strip _ Hds) as (Hstrip & Hstrip' & Hhash).
    assert (Heq : str_int n = String "-" (str_int (- n))).
    { unfold str_int. assert (H1 : (n <? 0) = true) by lia.
      assert (H2 : (- n <? 0) = false) by lia. rewrite H1, H2. reflexivity. }
    rewrite Heq.
    assert (Hr : forall p, p "-"%char = false ->
                 rstrip_by p (str_int (- n)) = str_int (- n) ->
                 rstrip_by p (String "-" (str_int (- n))) = String "-" (str_int (- n))).
    { intros p Hp Hrs. cbn [rstrip_by]. rewrite Hrs.
      destruct (str_int (- n)); [congruence | reflexivity]. }
    split; [discriminate |]. split; [reflexivity |].
    split.
    { rewrite <- rstrip_by_isspace. apply Hr; [reflexivity |].
      apply digits_only_rstrip; [| exact Hds].
      intros ch d Hd. exact (proj1 (decimal_not_space _ _ Hd)). }
    split.
    { cbn [before_hash]. change (Ascii.eqb "-" "#") with false. cbv iota.
      rewrite Hhash. reflexivity. }
    unfold int_text, strip_by. cbn [lstrip_by]. change (int_space "-") with false.
    cbv iota. rewrite (Hr int_space eq_refl).
    + rewrite Hbody. cbn. f_equal. lia.
    + apply digits_only_rstrip; [| exact Hds].
      intros ch d Hd. exact (proj1 (proj2 (decimal_not_space _ _ Hd))).
  - destruct (str_int_nonneg n Hpos) as (Hds & Hne & _ & _).
    pose proof (str_int_literal n Hpos Hconv) as Hbody.
    destruct (digits_only_strip _ Hds) as (Hstrip & Hstrip' & Hhash).
    split; [exact Hne |].
    destruct (digits_only_first _ Hds Hne) as (ch & r & d & Heq & Hd & Hr).
    split.
    { rewrite Heq. cbn [Py.lstrip].
      rewrite (proj1 (decimal_not_space _ _ Hd)). reflexivity. }
    split.
    { rewrite <- rstrip_by_isspace. apply digits_only_rstrip; [| exact Hds].
      intros c e He. exact (proj1 (decimal_not_space _ _ He)). }
    split; [exact Hhash |].
    unfold int_text. rewrite Hstrip', <- Hbody, Heq.
    clear -Hd. apply decimal_range in Hd as [_ Hc].
    destruct ch as [[] [] [] [] [] [] [] []]; vm_compute in Hc; try lia; reflexivity.
Qed.

(** X13. [_env_int] reads back what [str] writes, for a default and
    numbers of a size [str] and [int] convert (at most 4300 digits): it
    returns the default when the variable is unset, and [n] when the
    variable holds [str(n)], negative or not, with blanks around it and with
    or without a comment after ["#"]; a value that [int] refuses after the
    cut and the strip gives the default. *)
Theorem env_int_reads (environ : gmap string string) (name : string) (default : Z) :
  convertible default ->
  (environ !! name = None -> _env_int environ name default = default)
  /\ (forall (n : Z) (ws1 ws2 comment : string),
        convertible n -> blanks ws1 = true -> blanks ws2 = true ->
        environ !! name = Some (ws1 ++ str_int n ++ ws2)
        \/ environ !! name = Some ((ws1 ++ str_int n ++ ws2) ++ String "#" comment) ->
        _env_int environ name default = n)
  /\ (forall v : string,
        environ !! name = Some v ->
        int_text (Py.strip (before_hash v)) = None ->
        _env_int environ name default = default).
Proof.
  intros Hdefault. split; [| split].
  - intros Hunset. unfold _env_int. rewrite Hunset. cbn [from_option].
    destruct (str_int_reads default Hdefault) as (Hne & Hl & Hr & Hh & Hint).
    rewrite Hh. unfold Py.strip. rewrite Hl, Hr, Hint. reflexivity.
  - intros n ws1 ws2 comment Hn H1 H2 Hset.
    destruct (str_int_reads n Hn) as (Hne & Hl & Hr & Hh & Hint).
    assert (Hcut : before_hash (ws1 ++ str_int n ++ ws2) = ws1 ++ str_int n ++ ws2).
    { apply before_hash_app_id; [apply blanks_no_hash; exact H1 |].
      apply before_hash_app_id; [exact Hh | apply blanks_no_hash; exact H2]. }
    unfold _env_int.
    destruct Hset as [-> | ->]; cbn [from_option id];
      rewrite ?before_hash_app, Hcut, (strip_padded _ _ _ H1 H2 Hne Hl Hr), Hint;
      reflexivity.
  - intros v Hset Hbad. unfold _env_int. rewrite Hset. cbn [from_option id].
    rewrite Hbad. reflexivity.
Qed.

(** ** [_parse_cadence] *)

Lemma split_comma_nonempty (s : string) : Py.split_comma s <> [].
Proof.
  induction s as [| ch s IH]; [discriminate |]. cbn [Py.split_comma].
  destruct (Py.split_comma s); [congruence |].
  destruct (Ascii.eqb ch ","); discriminate.
Qed.

Lemma split_comma_digits (s : string) :
  digits_only s = true ->
  Py.split_comma s = [s]
  /\ forall t, Py.split_comma (s ++ String "," t) = s :: Py.split_comma t.
Proof.
  induction s as [| ch r IH]; intros Hs.
  - split; [reflexivity |]. intros t. rewrite append_nil. cbn [Py.split_comma].
    destruct (Py.split_comma t) eqn:Ht; [exfalso; exact (split_comma_nonempty t Ht) |].
    reflexivity.
  - cbn [digits_only] in Hs. apply andb_prop in Hs as [H1 H2].
    apply bool_decide_eq_true in H1 as [d Hd].
    destruct (decimal_not_space _ _ Hd) as (_ & _ & _ & Hcomma & _).
    destruct (IH H2) as [IH1 IH2]. split.
    + cbn [Py.split_comma]. rewrite IH1, Hcomma. reflexivity.
    + intros t. rewrite append_cons. cbn [Py.split_comma]. rewrite IH2, Hcomma.
      reflexivity.
Qed.

Lemma split_comma_join (l : list Z) :
  l <> [] -> Forall (fun n => 0 <= n) l ->
  Py.split_comma (join_commas (str_int <$> l)) = str_int <$> l.
Proof.
  induction l as [| n l IH]; [congruence |]. intros _ Hall.
  apply Forall_cons in Hall as [Hn Hall].
  destruct (str_int_nonneg n Hn) as (Hds & _).
  destruct (split_comma_digits _ Hds) as [H1 H2].
  destruct l as [| m l]; [exact H1 |].
  change (join_commas (str_int <$> n :: m :: l))
    with (str_int n ++ String "," (join_commas (str_int <$> m :: l))).
  rewrite H2, IH by (congruence || exact Hall). reflexivity.
Qed.

Lemma parse_cadence_parts_str (l : list Z) :
  Forall (fun n => 0 <= n /\ convertible n) l ->
  parse_cadence_parts (str_int <$> l) = Ok l.
Proof.
  induction l as [| n l IH]; intros Hall; [reflexivity |].
  apply Forall_cons in Hall as [[Hn Hc] Hall].
  destruct (str_int_nonneg n Hn) as (Hds & Hne & _).
  rewrite fmap_cons. cbn [parse_cadence_parts].
  rewrite (proj1 (digits_only_strip _ Hds)), (digits_only_isdigit _ Hds Hne),
    (str_int_digits n Hn Hc).
  cbn. rewrite (IH Hall). reflexivity.
Qed.

(** X14. [_parse_cadence] reads back a cadence written with [str] and commas:
    for a list of integers that are not negative (and of a size [str] and
    [int] convert), joined by commas, it returns that list, and the fallback
    only for the empty list. *)
Theorem parse_cadence_round_trip (l fallback : list Z) :
  Forall (fun n => 0 <= n /\ convertible n) l ->
  _parse_cadence (Some (join_commas (str_int <$> l))) fallback
  = Ok (match l with [] => fallback | _ => l end).
Proof.
  intros Hall.
  assert (Hnn : Forall (fun n => 0 <= n) l).
  { eapply Forall_impl; [exact Hall |]. intros n [Hn _]. exact Hn. }
  destruct l as [| n l]; [reflexivity |].
  unfold _parse_cadence.
  change (default "" (Some (join_commas (str_int <$> n :: l))))
    with (join_commas (str_int <$> n :: l)).
  rewrite (split_comma_join (n :: l)) by (congruence || exact Hnn).
  rewrite (parse_cadence_parts_str _ Hall). reflexivity.
Qed.

Lemma ascii_only_lstrip (s : string) :
  ascii_only s = true -> ascii_only (Py.lstrip s) = true.
Proof.
  induction s as [| ch s IH]; [reflexivity |]. intros H. cbn [Py.lstrip].
  destruct (Py.isspace ch); [| exact H].
  cbn [ascii_only] in H. apply andb_prop in H as [_ H]. exact (IH H).
Qed.

Lemma ascii_only_rstrip (s : string) :
  ascii_only s = true -> ascii_only (Py.rstrip s) = true.
Proof.
  induction s as [| ch s IH]; [reflexivity |]. intros H. cbn [ascii_only] in H.
  apply andb_prop in H as [H1 H2]. cbn [Py.rstrip]. specialize (IH H2).
  destruct (Py.rstrip s) as [| c t].
  - destruct (Py.isspace ch); [reflexivity |]. cbn [ascii_only]. rewrite H1. reflexivity.
  - cbn [ascii_only] in *. rewrite H1. exact IH.
Qed.

Lemma ascii_only_split_comma (s : string) :
  ascii_only s = true -> Forall (fun p => ascii_only p = true) (Py.split_comma s).
Proof.
  induction s as [| ch s IH]; intros H.
  - repeat constructor.
  - cbn [ascii_only] in H. apply andb_prop in H as [H1 H2]. specialize (IH H2).
    cbn [Py.split_comma]. destruct (Py.split_comma s) as [| hd tl].
    + repeat constructor. cbn [ascii_only]. rewrite H1. reflexivity.
    + apply Forall_cons in IH as [Hhd Htl].
      destruct (Ascii.eqb ch ",").
      * repeat constructor; assumption.
      * constructor; [| exact Htl]. cbn [ascii_only]. rewrite H1. exact Hhd.
Qed.

(** Among the ASCII characters the digits of [isdigit] are the decimal
    digits. *)
Lemma isdigit_ascii_decimal (ch : ascii) :
  Py.isdigit_char ch = true -> Nat.ltb (nat_of_ascii ch) 128 = true ->
  is_Some (Py.decimal ch).
Proof.
  destruct ch as [[] [] [] [] [] [] [] []]; vm_compute; intros H1 H2;
    try discriminate; eauto.
Qed.

Lemma int_digits_ascii (s : string) :
  forallb Py.isdigit_char (list_ascii_of_string s) = true ->
  ascii_only s = true ->
  forall acc, exists n, Py.digits_value acc s = Ok n.
Proof.
  induction s as [| ch s IH]; intros Hd Ha acc; [cbn; eauto |].
  cbn [list_ascii_of_string forallb ascii_only] in Hd, Ha.
  apply andb_prop in Hd as [Hd1 Hd2]. apply andb_prop in Ha as [Ha1 Ha2].
  destruct (isdigit_ascii_decimal ch Hd1 Ha1) as [d Hdec].
  cbn [Py.digits_value]. rewrite Hdec. apply IH; assumption.
Qed.

Lemma count_digits_length (s : string) :
  count_digits s <= Z.of_nat (String.length s).
Proof.
  induction s as [| ch s IH]; [cbn; lia |].
  cbn [count_digits String.length]. destruct (Py.decimal ch); lia.
Qed.

Lemma strip_length (s : string) :
  (String.length (Py.strip s) <= String.length s)%nat.
Proof.
  assert (Hl : forall t, (String.length (Py.lstrip t) <= String.length t)%nat).
  { induction t as [| ch t IH]; [cbn; lia |]. cbn [Py.lstrip].
    destruct (Py.isspace ch); cbn [String.length] in *; lia. }
  assert (Hr : forall t, (String.length (Py.rstrip t) <= String.length t)%nat).
  { induction t as [| ch t IH]; [cbn; lia |]. cbn [Py.rstrip].
    destruct (Py.rstrip t); [destruct (Py.isspace ch) |];
      cbn [String.length] in *; lia. }
  unfold Py.strip. specialize (Hl s). specialize (Hr (Py.lstrip s)). lia.
Qed.

Lemma split_comma_length (s : string) :
  Forall (fun p => (String.length p <= String.length s)%nat) (Py.split_comma s).
Proof.
  induction s as [| ch s IH]; [constructor; [cbn; lia | constructor] |].
  cbn [Py.split_comma]. destruct (Py.split_comma s) as [| hd tl].
  - constructor; [cbn [String.length]; lia | constructor].
  - apply Forall_cons in IH as [Hhd Htl].
    assert (Htl' : Forall (fun p => (String.length p <= String.length (String ch s))%nat)
                     tl).
    { eapply Forall_impl; [exact Htl |]. cbn [String.length]. intros p Hp. lia. }
    destruct (Ascii.eqb ch ",").
    + constructor; [cbn [String.length]; lia |].
      constructor; [cbn [String.length]; lia | exact Htl'].
    + constructor; [cbn [String.length]; lia | exact Htl'].
Qed.

Lemma parse_cadence_parts_ascii (parts : list string) :
  Forall (fun p => ascii_only p = true) parts ->
  Forall (fun p => (String.length p <= 4300)%nat) parts ->
  exists out, parse_cadence_parts parts = Ok out.
Proof.
  induction parts as [| part parts IH]; intros Hall Hlen; [cbn; eauto |].
  apply Forall_cons in Hall as [Hp Hall]. apply Forall_cons in Hlen as [Hl Hlen].
  destruct (IH Hall Hlen) as [out Hout].
  cbn [parse_cadence_parts].
  destruct (Py.isdigit (Py.strip part)) eqn:Hdig; [| eauto].
  assert (Hascii : ascii_only (Py.strip part) = true)
    by (apply ascii_only_rstrip, ascii_only_lstrip; exact Hp).
  assert (Hall' : forallb Py.isdigit_char (list_ascii_of_string (Py.strip part)) = true).
  { unfold Py.isdigit in Hdig. destruct (Py.strip part); [discriminate | exact Hdig]. }
  destruct (int_digits_ascii _ Hall' Hascii 0) as [n Hn].
  assert (Hcount : (max_str_digits <? count_digits (Py.strip part)) = false).
  { pose proof (count_digits_length (Py.strip part)) as H1.
    pose proof (strip_length part) as H2. unfold max_str_digits. lia. }
  unfold Py.int_digits. rewrite Hcount, Hn, Hout. cbn. eauto.
Qed.

(** X15. On ASCII text [_parse_cadence] never raises: for a variable that is
    unset or holds only ASCII characters (at most 4300 of them, so that no
    part has more digits than [int] converts) it returns a cadence, which
    is not empty when the fallback is not, and whose entries are those of
    the fallback or are not negative.  (The guard [isdigit] lets through the
    superscript digits, which [int] refuses: such text raises.) *)
Theorem parse_cadence_ascii (s : option string) (fallback : list Z) :
  (forall t, s = Some t -> ascii_only t = true /\ (String.length t <= 4300)%nat) ->
  exists cad,
    _parse_cadence s fallback = Ok cad
    /\ (fallback <> [] -> cad <> [])
    /\ (cad = fallback \/ Forall (fun n => 0 <= n) cad).
Proof.
  intros Hs.
  assert (Hparts : exists out,
             parse_cadence_parts (Py.split_comma (default "" s)) = Ok out).
  { destruct s as [t |].
    - destruct (Hs t eq_refl) as [Hascii Hlen].
      apply parse_cadence_parts_ascii; [apply ascii_only_split_comma; exact Hascii |].
      eapply Forall_impl; [apply split_comma_length |].
      cbn beta. intros p Hp. change (default "" (Some t)) with t in Hp. lia.
    - apply parse_cadence_parts_ascii; (constructor; [| constructor]);
        [reflexivity | cbn; lia]. }
  destruct Hparts as [out Hout]. unfold _parse_cadence. rewrite Hout. cbn.
  eexists. split; [reflexivity |]. split.
  - intros Hfb. destruct out; [exact Hfb | discriminate].
  - destruct out as [| n out]; [left; reflexivity |]. right.
    exact (parse_cadence_parts_nonneg _ _ Hout).
Qed.

(** ** The configuration the module loads *)







(** ** Incremental runs and the caller in [serve.py] *)

(** X18. The incremental mode is the full mode over the selected records:
    a run with [changed_pids] ends exactly as a full run over only those
    records of [SQL_LAST_ATTEMPT] whose puzzle is in [changed_pids] (same
    table, same counters, same exception); the records left out are not
    even parsed. *)
Theorem run_incremental_is_filtered_full (fromisoformat : string -> option datetime)
    (local_utcoffset : Z -> Z) (cfg : config) (rows : list attempt_row)
    (s0 : gmap string srs_row) (changed_pids : list string) :
  run fromisoformat local_utcoffset cfg rows s0 (Some changed_pids)
  = run fromisoformat local_utcoffset cfg
      (List.filter (fun r => Py.contains changed_pids (puzzle_id r)) rows) s0 None.
Proof.
  unfold run. rewrite run_rows_filter. reflexivity.
Qed.

(** X19. What logging an attempt recomputes: [_recompute_srs_single] with an
    identifier that is not empty ends as a full run over the records of
    that puzzle alone, so it leaves the row of every other puzzle as it was
    and is not affected by the timestamps of other puzzles; with no
    identifier, or the empty one, it is the full recomputation; when
    [compute_srs] could not be imported nothing runs. *)
Theorem recompute_single_is_local (fromisoformat : string -> option datetime)
    (local_utcoffset : Z -> Z) (cfg : config) (rows : list attempt_row)
    (s0 : gmap string srs_row) :
  (forall (pid : string) (o : outcome),
      pid <> "" ->
      _recompute_srs_single fromisoformat local_utcoffset cfg true rows s0 (Some pid)
      = Some o ->
      o = run fromisoformat local_utcoffset cfg
            (List.filter (fun r => String.eqb (puzzle_id r) pid) rows) s0 None
      /\ forall pid', pid' <> pid -> srs_after s0 o !! pid' = s0 !! pid')
  /\ _recompute_srs_single fromisoformat local_utcoffset cfg true rows s0 None
     = Some (run fromisoformat local_utcoffset cfg rows s0 None)
  /\ _recompute_srs_single fromisoformat local_utcoffset cfg true rows s0 (Some "")
     = Some (run fromisoformat local_utcoffset cfg rows s0 None)
  /\ (forall pid, _recompute_srs_single fromisoformat local_utcoffset cfg false rows s0 pid
                  = None).
Proof.
  split; [| repeat split; reflexivity].
  intros pid o Hne Hcall. destruct pid as [| ch rest]; [congruence |].
  cbn [_recompute_srs_single] in Hcall. injection Hcall as <-.
  split.
  - unfold run. rewrite run_rows_filter.
    replace (List.filter (fun r => Py.contains [String ch rest] (puzzle_id r)) rows)
      with (List.filter (fun r => String.eqb (puzzle_id r) (String ch rest)) rows);
      [reflexivity |].
    apply List.filter_ext. intros r. unfold Py.contains.
    cbn [existsb]. symmetry. apply orb_false_r.
  - intros pid' Hpid'. unfold run.
    destruct (run_rows fromisoformat local_utcoffset cfg (Some [String ch rest]) rows
                (mkState s0 0 0)) as [st |] eqn:Hrun; [| reflexivity].
    refine (run_rows_frame _ _ _ _ _ pid' _ _ _ Hrun).
    intros r _ Hsel Heq. unfold selected, skipped, Py.contains in Hsel.
    rewrite negb_involutive in Hsel. cbn [existsb] in Hsel. rewrite orb_false_r in Hsel.
    apply String.eqb_eq in Hsel. congruence.
Qed.

(** ** [load_dotenv] *)

Lemma dotenv_lines_cons (line : string) (rest : list string)
    (environ : gmap string string) :
  dotenv_lines (line :: rest) environ
  = match dotenv_assignment line with
    | None => dotenv_lines rest environ
    | Some (k, v) =>
        match environ !! k with
        | Some _ => dotenv_lines rest environ
        | None =>
            if Dotenv.has_nul k || Dotenv.has_nul v then Raise ValueError
            else dotenv_lines rest (<[k := v]> environ)
        end
    end.
Proof.
  cbn [dotenv_lines]. unfold dotenv_assignment.
  destruct (match Py.strip line with
            | EmptyString => true
            | String _ _ => Dotenv.startswith_hash (Py.strip line)
            end); [reflexivity |].
  destruct (negb (Dotenv.has_eq (Py.strip line))); [reflexivity |].
  destruct (Dotenv.split_eq (Py.strip line)) as [k v].
  destruct (Py.strip k) as [| ch k']; [reflexivity |].
  destruct (environ !! String ch k'); reflexivity.
Qed.

Lemma dotenv_assignment_name (line k v : string) :
  dotenv_assignment line = Some (k, v) -> k <> EmptyString.
Proof.
  unfold dotenv_assignment.
  destruct (match Py.strip line with
            | EmptyString => true
            | String _ _ => Dotenv.startswith_hash (Py.strip line)
            end); [discriminate |].
  destruct (negb (Dotenv.has_eq (Py.strip line))); [discriminate |].
  destruct (Dotenv.split_eq (Py.strip line)) as [k0 v0].
  destruct (Py.strip k0); [discriminate |].
  intros H. injection H as <- _. discriminate.
Qed.

Lemma dotenv_lines_extends (lines : list string) :
  forall environ environ' : gmap string string,
    dotenv_lines lines environ = Ok environ' -> environ ⊆ environ'.
Proof.
  induction lines as [| line rest IH]; intros environ environ' Hrun.
  - injection Hrun as <-. reflexivity.
  - rewrite dotenv_lines_cons in Hrun.
    destruct (dotenv_assignment line) as [[k v] |]; [| exact (IH _ _ Hrun)].
    destruct (environ !! k) eqn:Hk; [exact (IH _ _ Hrun) |].
    destruct (Dotenv.has_nul k || Dotenv.has_nul v); [discriminate |].
    transitivity (<[k := v]> environ); [| exact (IH _ _ Hrun)].
    apply insert_subseteq. exact Hk.
Qed.

Lemma dotenv_lines_stable (lines : list string) :
  forall environ environ' environ'' : gmap string string,
    dotenv_lines lines environ = Ok environ' ->
    environ' ⊆ environ'' ->
    dotenv_lines lines environ'' = Ok environ''.
Proof.
  induction lines as [| line rest IH]; intros environ environ' environ'' Hrun Hsub.
  - reflexivity.
  - rewrite dotenv_lines_cons in Hrun. rewrite dotenv_lines_cons.
    destruct (dotenv_assignment line) as [[k v] |]; [| exact (IH _ _ _ Hrun Hsub)].
    assert (Hset : is_Some (environ'' !! k)).
    { destruct (environ !! k) as [x |] eqn:Hk.
      - exists x. eapply lookup_weaken; [exact Hk |].
        transitivity environ'; [exact (dotenv_lines_extends _ _ _ Hrun) | exact Hsub].
      - destruct (Dotenv.has_nul k || Dotenv.has_nul v); [discriminate |].
        exists v. eapply lookup_weaken; [apply (lookup_insert_eq environ) |].
        transitivity environ'; [exact (dotenv_lines_extends _ _ _ Hrun) | exact Hsub]. }
    destruct Hset as [x ->].
    destruct (environ !! k); [exact (IH _ _ _ Hrun Hsub) |].
    destruct (Dotenv.has_nul k || Dotenv.has_nul v); [discriminate |].
    exact (IH _ _ _ Hrun Hsub).
Qed.

(** What the loop leaves under a name: the value the environment had, else
    the value of the first assignment of the name among the lines. *)
Lemma dotenv_lines_first (lines : list string) :
  forall environ environ' : gmap string string,
    dotenv_lines lines environ = Ok environ' ->
    forall name,
      environ' !! name
      = match environ !! name with
        | Some value => Some value
        | None => first_assignment lines name
        end.
Proof.
  induction lines as [| line rest IH]; intros environ environ' Hrun name.
  - injection Hrun as <-. cbn [first_assignment].
    destruct (environ !! name); reflexivity.
  - rewrite dotenv_lines_cons in Hrun. cbn [first_assignment].
    destruct (dotenv_assignment line) as [[k v] |]; [| exact (IH _ _ Hrun name)].
    destruct (environ !! k) as [x |] eqn:Hk.
    + rewrite (IH _ _ Hrun name).
      destruct (environ !! name) eqn:Hn; [reflexivity |].
      destruct (String.eqb_spec k name) as [<- | Hne]; [congruence | reflexivity].
    + destruct (Dotenv.has_nul k || Dotenv.has_nul v); [discriminate |].
      rewrite (IH _ _ Hrun name).
      destruct (String.eqb_spec k name) as [<- | Hne].
      * rewrite lookup_insert_eq, Hk. reflexivity.
      * rewrite lookup_insert_ne by exact Hne. reflexivity.
Qed.

(** X20. [load_dotenv] only adds variables: when it returns, every variable
    the environment held keeps its value (the file never overrides the
    environment), and a variable the environment did not hold gets the
    value of the first assignment of its name in the file (within the file
    the first assignment of a name wins) or stays unset when the file does
    not assign it; loading the same file again changes nothing, and a file
    that does not exist leaves the environment as it is. *)
Theorem load_dotenv_only_adds (content : option string)
    (environ environ' : gmap string string) :
  load_dotenv content environ = Ok environ' ->
  environ ⊆ environ'
  /\ (forall name value, environ !! name = Some value -> environ' !! name = Some value)
  /\ (forall text name,
        content = Some text -> environ !! name = None ->
        environ' !! name = first_assignment (Dotenv.splitlines text) name)
  /\ load_dotenv content environ' = Ok environ'
  /\ (content = None -> environ' = environ).
Proof.
  intros Hload.
  assert (Hsub : environ ⊆ environ').
  { destruct content as [text |]; [exact (dotenv_lines_extends _ _ _ Hload) |].
    injection Hload as <-. reflexivity. }
  split; [exact Hsub |]. split; [| split; [| split]].
  - intros name value Hn. exact (lookup_weaken _ _ _ _ Hn Hsub).
  - intros text name -> Hn. cbn [load_dotenv] in Hload.
    rewrite (dotenv_lines_first _ _ _ Hload name), Hn. reflexivity.
  - destruct content as [text |]; [| reflexivity].
    exact (dotenv_lines_stable _ _ _ _ Hload (reflexivity _)).
  - intros ->. injection Hload as <-. reflexivity.
Qed.

Lemma append_empty_r (s : string) : s ++ EmptyString = s.
Proof.
  induction s as [| ch s IH]; [reflexivity |]. rewrite append_cons, IH. reflexivity.
Qed.

Lemma append_assoc (a b c : string) : (a ++ b) ++ c = a ++ b ++ c.
Proof.
  induction a as [| ch a IH]; [reflexivity |]. rewrite !append_cons, IH. reflexivity.
Qed.

Lemma lstrip_by_length (p : ascii -> bool) (s : string) :
  (String.length (lstrip_by p s) <= String.length s)%nat.
Proof.
  induction s as [| ch s IH]; [cbn; lia |]. cbn [lstrip_by].
  destruct (p ch); cbn [String.length] in *; lia.
Qed.

Lemma rstrip_by_length (p : ascii -> bool) (s : string) :
  (String.length (rstrip_by p s) <= String.length s)%nat.
Proof.
  induction s as [| ch s IH]; [cbn; lia |]. cbn [rstrip_by].
  destruct (rstrip_by p s); [destruct (p ch) |]; cbn [String.length] in *; lia.
Qed.

Lemma lstrip_by_fixed_head (p : ascii -> bool) (ch : ascii) (r : string) :
  lstrip_by p (String ch r) = String ch r -> p ch = false.
Proof.
  cbn [lstrip_by]. destruct (p ch); [| reflexivity]. intros H. exfalso.
  pose proof (lstrip_by_length p r) as Hlen. rewrite H in Hlen.
  cbn [String.length] in Hlen. lia.
Qed.

Lemma lstrip_by_app_fixed (p : ascii -> bool) (s t : string) :
  s <> EmptyString -> lstrip_by p s = s -> lstrip_by p (s ++ t) = s ++ t.
Proof.
  destruct s as [| ch r]; [congruence |]. intros _ H.
  rewrite append_cons. cbn [lstrip_by].
  rewrite (lstrip_by_fixed_head _ _ _ H). reflexivity.
Qed.

Lemma strip_by_fixed_inv (p : ascii -> bool) (s : string) :
  strip_by p s = s -> lstrip_by p s = s /\ rstrip_by p s = s.
Proof.
  unfold strip_by. intros H.
  assert (Hl : lstrip_by p s = s).
  { destruct s as [| ch r]; [reflexivity |]. cbn [lstrip_by] in *.
    destruct (p ch); [| reflexivity]. exfalso.
    pose proof (rstrip_by_length p (lstrip_by p r)) as H1.
    pose proof (lstrip_by_length p r) as H2.
    rewrite H in H1. cbn [String.length] in H1. lia. }
  split; [exact Hl |]. rewrite Hl in H. exact H.
Qed.

Lemma rstrip_by_app_fixed (p : ascii -> bool) (a b : string) :
  b <> EmptyString -> rstrip_by p b = b -> rstrip_by p (a ++ b) = a ++ b.
Proof.
  intros Hne Hb. induction a as [| ch a IH]; [exact Hb |].
  rewrite append_cons. cbn [rstrip_by]. rewrite IH.
  destruct (a ++ b) eqn:Hab; [| reflexivity].
  destruct a; [rewrite append_nil in Hab; congruence | discriminate].
Qed.

Lemma rstrip_by_app_last (p : ascii -> bool) (a : string) (ch : ascii) :
  p ch = true -> rstrip_by p (a ++ String ch EmptyString) = rstrip_by p a.
Proof.
  intros Hp. induction a as [| c a IH];
    [rewrite append_nil; cbn [rstrip_by]; rewrite Hp; reflexivity |].
  rewrite append_cons. cbn [rstrip_by]. rewrite IH. reflexivity.
Qed.

Lemma rstrip_by_single (p : ascii -> bool) (ch : ascii) :
  p ch = false -> rstrip_by p (String ch EmptyString) = String ch EmptyString.
Proof. intros Hp. cbn. rewrite Hp. reflexivity. Qed.

(** A value between two quotes of the same kind: the two [strip] calls take
    the quotes off. *)
Lemma strip_by_quoted (p : ascii -> bool) (qc : ascii) (v : string) :
  p qc = true -> strip_by p v = v ->
  strip_by p (String qc (v ++ String qc EmptyString)) = v.
Proof.
  intros Hq Hv. apply strip_by_fixed_inv in Hv as [Hl Hr].
  unfold strip_by. cbn [lstrip_by]. rewrite Hq.
  destruct v as [| c r].
  - rewrite append_nil. cbn [lstrip_by rstrip_by]. rewrite Hq. reflexivity.
  - rewrite (lstrip_by_app_fixed p (String c r) _ ltac:(discriminate) Hl).
    rewrite (rstrip_by_app_last p _ _ Hq). exact Hr.
Qed.

Lemma strip_by_other_quoted (p : ascii -> bool) (qc : ascii) (v : string) :
  p qc = false ->
  strip_by p (String qc (v ++ String qc EmptyString))
  = String qc (v ++ String qc EmptyString).
Proof.
  intros Hq. unfold strip_by. cbn [lstrip_by]. rewrite Hq.
  change (String qc (v ++ String qc EmptyString))
    with (String qc v ++ String qc EmptyString).
  apply rstrip_by_app_fixed; [discriminate | exact (rstrip_by_single p qc Hq)].
Qed.

Lemma blanks_no_eq (ws : string) :
  blanks ws = true ->
  Dotenv.has_eq ws = false.
Proof.
  induction ws as [| ch ws IH]; [reflexivity |]. cbn [blanks Dotenv.has_eq]. intros H.
  apply andb_prop in H as [H1 H2]. rewrite (IH H2).
  destruct (Ascii.eqb_spec ch "=") as [-> |]; [discriminate | reflexivity].
Qed.

Lemma has_eq_app (a b : string) :
  Dotenv.has_eq (a ++ b) = Dotenv.has_eq a || Dotenv.has_eq b.
Proof.
  induction a as [| ch a IH]; [reflexivity |]. rewrite append_cons.
  cbn [Dotenv.has_eq]. rewrite IH, orb_assoc. reflexivity.
Qed.

Lemma split_eq_app (a b : string) :
  Dotenv.has_eq a = false ->
  Dotenv.split_eq (a ++ String "=" b) = (a, b).
Proof.
  induction a as [| ch a IH]; [reflexivity |]. cbn [Dotenv.has_eq]. intros H.
  apply orb_false_elim in H as [H1 H2]. rewrite append_cons. cbn [Dotenv.split_eq].
  rewrite H1, (IH H2). reflexivity.
Qed.

Lemma one_line_app (a b : string) :
  one_line (a ++ b) = one_line a && one_line b.
Proof.
  induction a as [| ch a IH]; [reflexivity |]. rewrite append_cons.
  cbn [one_line]. rewrite IH, andb_assoc. reflexivity.
Qed.

Lemma splitlines_from_one_line (line rest : string) :
  one_line line = true ->
  forall cur,
    Dotenv.splitlines_from cur (line ++ String "010" rest)
    = string_of_list_ascii (rev cur ++ list_ascii_of_string line)
      :: Dotenv.splitlines rest.
Proof.
  induction line as [| ch line IH]; intros Hone cur.
  - rewrite append_nil, app_nil_r. cbn [Dotenv.splitlines_from].
    change (Dotenv.linebreak "010") with true. cbn match.
    destruct rest; reflexivity.
  - cbn [one_line] in Hone. apply andb_prop in Hone as [Hch Hone].
    apply negb_true_iff in Hch. rewrite append_cons. cbn [Dotenv.splitlines_from].
    rewrite Hch, (IH Hone). cbn [rev list_ascii_of_string].
    rewrite <- app_assoc. reflexivity.
Qed.

Lemma splitlines_from_last_line (line : string) :
  one_line line = true ->
  forall cur,
    (cur <> [] \/ line <> EmptyString) ->
    Dotenv.splitlines_from cur line
    = [string_of_list_ascii (rev cur ++ list_ascii_of_string line)].
Proof.
  induction line as [| ch line IH]; intros Hone cur Hne.
  - cbn [Dotenv.splitlines_from]. rewrite app_nil_r.
    destruct cur; [destruct Hne; congruence | reflexivity].
  - cbn [one_line] in Hone. apply andb_prop in Hone as [Hch Hone].
    apply negb_true_iff in Hch. cbn [Dotenv.splitlines_from].
    rewrite Hch, (IH Hone); [| left; discriminate]. cbn [rev list_ascii_of_string].
    rewrite <- app_assoc. reflexivity.
Qed.

(** The first line of a file, and a file of one line. *)
Lemma load_dotenv_first_line (line rest : string) (environ : gmap string string) :
  one_line line = true ->
  load_dotenv (Some (line ++ String "010" rest)) environ
  = dotenv_lines (line :: Dotenv.splitlines rest) environ.
Proof.
  intros Hone. unfold load_dotenv, Dotenv.splitlines at 1.
  rewrite (splitlines_from_one_line _ _ Hone). cbn [rev app].
  rewrite string_of_list_ascii_of_string. reflexivity.
Qed.

Lemma load_dotenv_one_line (line : string) (environ : gmap string string) :
  one_line line = true -> line <> EmptyString ->
  load_dotenv (Some line) environ = dotenv_lines [line] environ.
Proof.
  intros Hone Hne. unfold load_dotenv, Dotenv.splitlines.
  rewrite (splitlines_from_last_line _ Hone); [| right; exact Hne]. cbn [rev app].
  rewrite string_of_list_ascii_of_string. reflexivity.
Qed.

Lemma dotenv_quoted_value (q v : string) :
  dotenv_value v ->
  q = EmptyString \/ q = String "'" EmptyString \/ q = String "034" EmptyString ->
  let w := q ++ v ++ q in
  strip_by Dotenv.dquote (strip_by Dotenv.squote w) = v
  /\ (w = EmptyString \/ w <> EmptyString /\ Py.lstrip w = w /\ Py.rstrip w = w).
Proof.
  intros (Hs & Hsq & Hdq & _) Hq. cbn zeta.
  assert (Hsp : Py.lstrip v = v /\ Py.rstrip v = v).
  { rewrite <- lstrip_by_isspace, <- rstrip_by_isspace.
    apply strip_by_fixed_inv. unfold strip_by.
    rewrite lstrip_by_isspace, rstrip_by_isspace. exact Hs. }
  destruct Hq as [-> | [-> | ->]].
  - rewrite append_nil, append_empty_r. split; [rewrite Hsq; exact Hdq |].
    destruct v; [left; reflexivity | right].
    split; [discriminate | exact Hsp].
  - rewrite append_cons, append_nil. split.
    + rewrite (strip_by_quoted Dotenv.squote "'" v eq_refl Hsq). exact Hdq.
    + right. split; [discriminate |]. split; [reflexivity |].
      rewrite <- rstrip_by_isspace.
      exact (proj2 (strip_by_fixed_inv _ _
                      (strip_by_other_quoted Py.isspace "'" v eq_refl))).
  - rewrite append_cons, append_nil. split.
    + rewrite (strip_by_other_quoted Dotenv.squote "034" v eq_refl).
      exact (strip_by_quoted Dotenv.dquote "034" v eq_refl Hdq).
    + right. split; [discriminate |]. split; [reflexivity |].
      rewrite <- rstrip_by_isspace.
      exact (proj2 (strip_by_fixed_inv _ _
                      (strip_by_other_quoted Py.isspace "034" v eq_refl))).
Qed.

Lemma dotenv_assignment_reads (k v q ws1 ws2 : string) :
  dotenv_name k -> dotenv_value v ->
  blanks ws1 = true -> blanks ws2 = true ->
  q = EmptyString \/ q = String "'" EmptyString \/ q = String "034" EmptyString ->
  dotenv_assignment (k ++ ws1 ++ String "=" (ws2 ++ q ++ v ++ q)) = Some (k, v).
Proof.
  intros (Hne & Hks & Hkeq & Hkh & _) Hv H1 H2 Hq.
  destruct (dotenv_quoted_value q v Hv Hq) as [Hval Hw].
  set (w := q ++ v ++ q) in *.
  assert (Hk : Py.lstrip k = k /\ Py.rstrip k = k).
  { rewrite <- lstrip_by_isspace, <- rstrip_by_isspace.
    apply strip_by_fixed_inv. unfold strip_by.
    rewrite lstrip_by_isspace, rstrip_by_isspace. exact Hks. }
  destruct Hk as [Hkl Hkr].
  assert (Hstrip : exists t, Py.strip (k ++ ws1 ++ String "=" (ws2 ++ w))
                             = (k ++ ws1) ++ String "=" t
                             /\ Py.strip t = w).
  { unfold Py.strip at 1. rewrite <- lstrip_by_isspace.
    rewrite (lstrip_by_app_fixed Py.isspace k _ Hne);
      [| rewrite lstrip_by_isspace; exact Hkl].
    destruct Hw as [Hw | (Hwne & Hwl & Hwr)].
    - exists EmptyString. rewrite Hw, append_empty_r. split; [| reflexivity].
      replace (k ++ ws1 ++ String "=" ws2)
        with (((k ++ ws1) ++ String "=" EmptyString) ++ ws2).
      2:{ rewrite !append_assoc. rewrite append_cons, append_nil. reflexivity. }
      rewrite (rstrip_app_blanks _ _ H2), <- rstrip_by_isspace.
      apply rstrip_by_app_fixed; [discriminate | reflexivity].
    - exists (ws2 ++ w). split.
      + replace (k ++ ws1 ++ String "=" (ws2 ++ w))
          with (((k ++ ws1) ++ String "=" ws2) ++ w).
        2:{ rewrite !append_assoc. rewrite append_cons. reflexivity. }
        rewrite <- rstrip_by_isspace.
        rewrite (rstrip_by_app_fixed Py.isspace _ w Hwne);
          [| rewrite rstrip_by_isspace; exact Hwr].
        rewrite !append_assoc. rewrite append_cons. reflexivity.
      + pose proof (strip_padded ws2 w EmptyString H2 eq_refl Hwne Hwl Hwr) as Hp.
        rewrite append_empty_r in Hp. exact Hp. }
  destruct Hstrip as (t & Hline & Ht).
  unfold dotenv_assignment. rewrite Hline.
  assert (Hkw : Dotenv.has_eq (k ++ ws1) = false).
  { rewrite has_eq_app, Hkeq, (blanks_no_eq _ H1). reflexivity. }
  rewrite (split_eq_app _ t Hkw).
  assert (Hke : Dotenv.has_eq ((k ++ ws1) ++ String "=" t) = true).
  { rewrite has_eq_app. cbn [Dotenv.has_eq].
    change (Ascii.eqb "=" "=") with true. apply orb_true_r. }
  rewrite Hke. cbn [negb].
  pose proof (strip_padded EmptyString k ws1 eq_refl H1 Hne Hkl Hkr) as Hkp.
  rewrite append_nil in Hkp. rewrite Hkp, Ht, Hval.
  destruct k as [| c k']; [congruence |].
  rewrite !append_cons. cbn [Dotenv.startswith_hash] in Hkh |- *.
  rewrite Hkh. reflexivity.
Qed.

(** X21. A line [NAME=value] of the file, with blanks allowed around the
    ["="] and the value optionally between two single or two double quotes,
    sets [NAME] to the value without the quotes when the environment does
    not define [NAME], and changes nothing when it does; the rest of the
    file is then loaded into that environment. *)
Theorem load_dotenv_reads_assignment (k v q ws1 ws2 rest : string)
    (environ : gmap string string) :
  dotenv_name k -> dotenv_value v ->
  blanks ws1 = true -> blanks ws2 = true ->
  q = EmptyString \/ q = String "'" EmptyString \/ q = String "034" EmptyString ->
  let line := k ++ ws1 ++ String "=" (ws2 ++ q ++ v ++ q) in
  let environ1 :=
    match environ !! k with
    | Some _ => environ
    | None => <[k := v]> environ
    end in
  one_line line = true ->
  load_dotenv (Some line) environ = Ok environ1
  /\ load_dotenv (Some (line ++ String "010" rest)) environ
     = load_dotenv (Some rest) environ1
  /\ forall environ',
       load_dotenv (Some (line ++ String "010" rest)) environ = Ok environ' ->
       environ' !! k = Some (default v (environ !! k)).
Proof.
  intros Hk Hv H1 H2 Hq line environ1 Hone.
  pose proof (dotenv_assignment_reads k v q ws1 ws2 Hk Hv H1 H2 Hq) as Hassign.
  fold line in Hassign.
  assert (Hnul : Dotenv.has_nul k || Dotenv.has_nul v = false).
  { destruct Hk as (_ & _ & _ & _ & ->). destruct Hv as (_ & _ & _ & ->).
    reflexivity. }
  assert (Hline : line <> EmptyString).
  { destruct Hk as (Hne & _). subst line. destruct k; [congruence | discriminate]. }
  assert (Hstep : forall rest' : list string,
             dotenv_lines (line :: rest') environ = dotenv_lines rest' environ1).
  { intros rest'. rewrite dotenv_lines_cons, Hassign. subst environ1.
    destruct (environ !! k); [reflexivity |]. rewrite Hnul. reflexivity. }
  assert (Hrest : load_dotenv (Some (line ++ String "010" rest)) environ
                  = load_dotenv (Some rest) environ1).
  { rewrite (load_dotenv_first_line _ _ _ Hone), Hstep. reflexivity. }
  split; [| split].
  - rewrite (load_dotenv_one_line _ _ Hone Hline), Hstep. reflexivity.
  - exact Hrest.
  - intros environ' Hload. rewrite Hrest in Hload.
    apply dotenv_lines_extends in Hload.
    eapply lookup_weaken; [| exact Hload]. subst environ1.
    destruct (environ !! k) as [x |] eqn:Hx; [exact Hx |].
    apply lookup_insert_eq.
Qed.

(** ** The properties on sample data *)

(** X1, on an untracked win over a row, and on a tracked first win. *)
Lemma calc_update_none_iff_witness :
  _calc_update default_config (Some Sample.streak5) "win" Sample.jan2 "p1" = Ok None
  /\ exists streak interval,
      (1, 2, Sample.jan2, PlusDay 2, true)
      = (streak, interval, Sample.jan2, PlusDay interval, String.eqb "win" "win").
Proof.
  split.
  - apply (proj1 (calc_update_none_iff default_config (Some Sample.streak5) "win"
                    Sample.jan2 "p1")).
    split; reflexivity.
  - apply (proj1 (proj2 (calc_update_none_iff Sample.tracking None "win"
                           Sample.jan2 "p1"))).
    vm_compute; reflexivity.
Defined.


(** X3, on a full run over "p1" and "p2" and the row of "p3". *)
Lemma run_touches_selected_only_witness :
  (forall r, r ∈ [Sample.loss_p1; Sample.loss_p2] -> selected None r = true ->
             puzzle_id r <> "p3")
  /\ srs_after SampleEnv.p3_table
       (run Iso.fromisoformat Iso.utc default_config [Sample.loss_p1; Sample.loss_p2]
          SampleEnv.p3_table None) !! "p3"
     = Some (Sample.seeded Sample.jan5).
Proof.
  assert (H : forall r, r ∈ [Sample.loss_p1; Sample.loss_p2] -> selected None r = true ->
                        puzzle_id r <> "p3").
  { intros r Hr _. rewrite !elem_of_cons, elem_of_nil in Hr.
    destruct Hr as [-> | [-> | []]]; discriminate. }
  split; [exact H |].
  rewrite (run_touches_selected_only Iso.fromisoformat Iso.utc default_config
             [Sample.loss_p1; Sample.loss_p2] SampleEnv.p3_table None "p3" H).
  reflexivity.
Defined.

(** X4, on identifiers without attempts, one record being malformed. *)
Lemma run_without_selection_witness :
  (forall r, r ∈ [Sample.loss_p1; Sample.malformed_p4] ->
             selected (Some ["p9"]) r = false)
  /\ run Iso.fromisoformat Iso.utc default_config [Sample.loss_p1; Sample.malformed_p4]
       SampleEnv.p3_table (Some ["p9"])
     = Committed (mkState SampleEnv.p3_table 0 0).
Proof.
  assert (H : forall r, r ∈ [Sample.loss_p1; Sample.malformed_p4] ->
                        selected (Some ["p9"]) r = false).
  { intros r Hr. rewrite !elem_of_cons, elem_of_nil in Hr.
    destruct Hr as [-> | [-> | []]]; reflexivity. }
  split; [exact H |].
  exact (run_without_selection Iso.fromisoformat Iso.utc default_config _ _ _ H).
Defined.

(** X5, on two records in both orders. *)
Lemma run_order_irrelevant_witness :
  [Sample.loss_p1; Sample.loss_p2] ≡ₚ [Sample.loss_p2; Sample.loss_p1]
  /\ NoDup (puzzle_id <$> [Sample.loss_p1; Sample.loss_p2])
  /\ srs_after ∅ (run Iso.fromisoformat Iso.utc default_config
                    [Sample.loss_p1; Sample.loss_p2] ∅ None)
     = srs_after ∅ (run Iso.fromisoformat Iso.utc default_config
                      [Sample.loss_p2; Sample.loss_p1] ∅ None).
Proof.
  assert (Hp : [Sample.loss_p1; Sample.loss_p2] ≡ₚ [Sample.loss_p2; Sample.loss_p1])
    by apply perm_swap.
  assert (Hn : NoDup (puzzle_id <$> [Sample.loss_p1; Sample.loss_p2])).
  { apply NoDup_cons_2; [| apply NoDup_singleton].
    rewrite list_elem_of_singleton. discriminate. }
  split; [exact Hp |]. split; [exact Hn |].
  exact (proj2 (run_order_irrelevant Iso.fromisoformat Iso.utc default_config _ _ ∅ None
                  Hp Hn)).
Defined.

(** X6, on the first losses of three puzzles. *)
Lemma run_counters_witness :
  run Iso.fromisoformat Iso.utc default_config
    [Sample.loss_p1; Sample.loss_p2; Sample.null_p3] ∅ None
  = Committed Sample.three_seeded
  /\ updated Sample.three_seeded = 3
  /\ 0 <= deleted Sample.three_seeded <= 0.
Proof.
  assert (Hrun : run Iso.fromisoformat Iso.utc default_config
                   [Sample.loss_p1; Sample.loss_p2; Sample.null_p3] ∅ None
                 = Committed Sample.three_seeded) by (vm_compute; reflexivity).
  split; [exact Hrun |].
  destruct (run_counters Iso.fromisoformat Iso.utc default_config _ ∅ None _ Hrun)
    as (Hu & Hd & _).
  split; [rewrite Hu; reflexivity |].
  exact Hd.
Defined.

(** X7, on the first losses of three puzzles and the row of "p1". *)
Lemma run_leaves_trackable_rows_witness :
  NoDup (puzzle_id <$> [Sample.loss_p1; Sample.loss_p2; Sample.null_p3])
  /\ untracked_win default_config Sample.loss_p1 = false
  /\ exists d e,
      _local_date_of_iso Iso.fromisoformat Iso.utc (last_attempt Sample.loss_p1) = Ok d
      /\ decide_action default_config ((∅ : gmap string srs_row) !! "p1")
           (result_of Sample.loss_p1) d "p1" = Ok (UPSERT e)
      /\ srs Sample.three_seeded !! "p1" = Some e
      /\ last_result e = "loss"
      /\ last_reviewed e = d.
Proof.
  assert (Hn : NoDup (puzzle_id <$> [Sample.loss_p1; Sample.loss_p2; Sample.null_p3])).
  { apply NoDup_cons_2.
    - rewrite !elem_of_cons, elem_of_nil. intros [H | [H | []]]; discriminate.
    - apply NoDup_cons_2; [| apply NoDup_singleton].
      rewrite list_elem_of_singleton. discriminate. }
  assert (Hrun : run Iso.fromisoformat Iso.utc default_config
                   [Sample.loss_p1; Sample.loss_p2; Sample.null_p3] ∅ None
                 = Committed Sample.three_seeded) by (vm_compute; reflexivity).
  split; [exact Hn |]. split; [reflexivity |].
  exact (proj2 (run_leaves_trackable_rows Iso.fromisoformat Iso.utc default_config _ ∅
                  None _ Hn Hrun Sample.loss_p1 (list_elem_of_here _ _) eq_refl)
           eq_refl).
Defined.

(** X8, on a malformed timestamp between two good records. *)
Lemma run_fails_on_first_bad_timestamp_witness :
  LOSS_CADENCE default_config <> [] /\ WIN_CADENCE default_config <> []
  /\ int64_cadence (LOSS_CADENCE default_config) = true
  /\ int64_cadence (WIN_CADENCE default_config) = true
  /\ NoDup (puzzle_id <$> [Sample.loss_p1; Sample.malformed_p4; Sample.loss_p2])
  /\ (forall pid row, (∅ : gmap string srs_row) !! pid = Some row ->
                      streak_fits row = true)
  /\ exists before r after,
      [Sample.loss_p1; Sample.malformed_p4; Sample.loss_p2]
      = (before ++ r :: after)%list
      /\ selected None r = true
      /\ _local_date_of_iso Iso.fromisoformat Iso.utc (last_attempt r)
         = Raise ValueError.
Proof.
  assert (Hl : LOSS_CADENCE default_config <> []) by discriminate.
  assert (Hw : WIN_CADENCE default_config <> []) by discriminate.
  assert (Hl64 : int64_cadence (LOSS_CADENCE default_config) = true) by reflexivity.
  assert (Hw64 : int64_cadence (WIN_CADENCE default_config) = true) by reflexivity.
  assert (Hn : NoDup (puzzle_id <$> [Sample.loss_p1; Sample.malformed_p4;
                                     Sample.loss_p2])).
  { apply NoDup_cons_2.
    - rewrite !elem_of_cons, elem_of_nil. intros [H | [H | []]]; discriminate.
    - apply NoDup_cons_2; [| apply NoDup_singleton].
      rewrite list_elem_of_singleton. discriminate. }
  assert (Hfit : forall pid row, (∅ : gmap string srs_row) !! pid = Some row ->
                                 streak_fits row = true).
  { intros pid row Hlk. rewrite lookup_empty in Hlk. discriminate. }
  assert (Hrun : run Iso.fromisoformat Iso.utc default_config
                   [Sample.loss_p1; Sample.malformed_p4; Sample.loss_p2] ∅ None
                 = RolledBack ValueError) by (vm_compute; reflexivity).
  split; [exact Hl |]. split; [exact Hw |]. split; [exact Hl64 |].
  split; [exact Hw64 |]. split; [exact Hn |]. split; [exact Hfit |].
  destruct (proj2 (run_fails_on_first_bad_timestamp Iso.fromisoformat Iso.utc
                     default_config
                     [Sample.loss_p1; Sample.malformed_p4; Sample.loss_p2] ∅ None
                     Hl Hw Hl64 Hw64 Hn Hfit)
              ValueError Hrun)
    as (_ & before & r & after & Hrows & Hsel & Hdate & _).
  exists before, r, after. split; [exact Hrows |]. split; [exact Hsel | exact Hdate].
Defined.

(** X9, on the table after the first losses of three puzzles. *)
Lemma engine_rows_wellformed_witness :
  table_under Iso.fromisoformat Iso.utc (fun _ => True) (srs Sample.three_seeded)
  /\ forall pid row, srs Sample.three_seeded !! pid = Some row -> row_wellformed row.
Proof.
  assert (Hrun : run Iso.fromisoformat Iso.utc default_config
                   [Sample.loss_p1; Sample.loss_p2; Sample.null_p3] ∅ None
                 = Committed Sample.three_seeded) by (vm_compute; reflexivity).
  assert (Htable : table_under Iso.fromisoformat Iso.utc (fun _ => True)
                     (srs Sample.three_seeded)).
  { change (srs Sample.three_seeded)
      with (srs_after ∅ (Committed Sample.three_seeded)).
    rewrite <- Hrun. apply under_run; [exact I | apply under_empty]. }
  split; [exact Htable |].
  exact (engine_rows_wellformed Iso.fromisoformat Iso.utc _ Htable).
Defined.

(** X10, on the default configuration and the same table. *)
Lemma loss_rows_use_first_cadence_entry_witness :
  (TRACK_WINS default_config = false \/ RESET_ON_FAIL default_config = true)
  /\ table_under Iso.fromisoformat Iso.utc (fun c => c = default_config)
       (srs Sample.three_seeded)
  /\ forall pid row, srs Sample.three_seeded !! pid = Some row ->
       String.eqb (last_result row) "win" = false
       /\ success_streak row = Some 0.
Proof.
  assert (Hrun : run Iso.fromisoformat Iso.utc default_config
                   [Sample.loss_p1; Sample.loss_p2; Sample.null_p3] ∅ None
                 = Committed Sample.three_seeded) by (vm_compute; reflexivity).
  assert (Htable : table_under Iso.fromisoformat Iso.utc (fun c => c = default_config)
                     (srs Sample.three_seeded)).
  { change (srs Sample.three_seeded)
      with (srs_after ∅ (Committed Sample.three_seeded)).
    rewrite <- Hrun. apply under_run; [reflexivity | apply under_empty]. }
  split; [left; reflexivity |]. split; [exact Htable |].
  intros pid row Hrow.
  destruct (loss_rows_use_first_cadence_entry Iso.fromisoformat Iso.utc default_config _
              (or_introl eq_refl) Htable pid row Hrow) as [Hnw Hloss].
  split; [exact (Hnw eq_refl) |]. exact (proj1 (Hloss (Hnw eq_refl))).
Defined.

(** X11, on seven buckets. *)
Lemma seed_hash_is_polynomial_witness :
  SEED_MODE Sample.staggered = "stagger"
  /\ _seed_offset_days Sample.staggered "p4"
     = or_int ((seed_poly 0 "p4" mod 2147483648)
               mod Z.max (STAGGER_BUCKETS Sample.staggered) 1) 1.
Proof.
  split; [reflexivity |].
  exact (proj2 (proj2 (seed_hash_is_polynomial Sample.staggered "p4")) eq_refl).
Defined.

(** X12, on an attempt one hour before midnight UTC, read two hours east. *)
Lemma local_date_near_utc_date_witness :
  (forall instant, -86400 < SampleEnv.east2 instant < 86400)
  /\ _local_date_of_iso Iso.fromisoformat SampleEnv.east2
       (Some "2024-01-01T23:00:00Z") = Ok Sample.jan2
  /\ exists d0,
      _local_date_of_iso Iso.fromisoformat (fun _ => 0) (Some "2024-01-01T23:00:00Z")
      = Ok d0
      /\ -1 <= days_from_civil Sample.jan2 - days_from_civil d0 <= 1.
Proof.
  assert (Hoff : forall instant, -86400 < SampleEnv.east2 instant < 86400)
    by (intros instant; unfold SampleEnv.east2; lia).
  assert (Hd : _local_date_of_iso Iso.fromisoformat SampleEnv.east2
                 (Some "2024-01-01T23:00:00Z") = Ok Sample.jan2)
    by (vm_compute; reflexivity).
  split; [exact Hoff |]. split; [exact Hd |].
  destruct (proj2 (local_date_near_utc_date Iso.fromisoformat SampleEnv.east2 _ _
                     Hoff Hd)) as (d0 & H0 & Hnear & _).
  exists d0. split; [exact H0 | exact Hnear].
Defined.

(** X13, on [SRS_STAGGER_BUCKETS= 5 # buckets]. *)
Lemma env_int_reads_witness :
  convertible 7 /\ convertible 5
  /\ _env_int SampleEnv.buckets_env "SRS_STAGGER_BUCKETS" 7 = 5
  /\ _env_int SampleEnv.home_env "SRS_STAGGER_BUCKETS" 7 = 7.
Proof.
  assert (H7 : convertible 7) by (vm_compute; reflexivity).
  assert (H5 : convertible 5) by (vm_compute; reflexivity).
  split; [exact H7 |]. split; [exact H5 |]. split.
  - apply (proj1 (proj2 (env_int_reads SampleEnv.buckets_env "SRS_STAGGER_BUCKETS" 7 H7))
             5 " " " " " buckets" H5 eq_refl eq_refl).
    right. vm_compute; reflexivity.
  - apply (proj1 (env_int_reads SampleEnv.home_env "SRS_STAGGER_BUCKETS" 7 H7)).
    vm_compute; reflexivity.
Defined.

(** X14, on the cadence [1,3,9]. *)
Lemma parse_cadence_round_trip_witness :
  Forall (fun n => 0 <= n /\ convertible n) [1; 3; 9]
  /\ _parse_cadence (Some "1,3,9") [1; 2] = Ok [1; 3; 9].
Proof.
  assert (H : Forall (fun n => 0 <= n /\ convertible n) [1; 3; 9]).
  { repeat apply Forall_cons_2; [| | | apply Forall_nil_2];
      (split; [lia | vm_compute; reflexivity]). }
  split; [exact H |].
  exact (parse_cadence_round_trip [1; 3; 9] [1; 2] H).
Defined.

(** X15, on a value with a part that is not a number. *)
Lemma parse_cadence_ascii_witness :
  ascii_only "1, x,3" = true
  /\ exists cad,
      _parse_cadence (Some "1, x,3") [1; 2] = Ok cad
      /\ cad <> [].
Proof.
  split; [reflexivity |].
  destruct (parse_cadence_ascii (Some "1, x,3") [1; 2]) as (cad & Hc & Hne & _).
  { intros t Ht. injection Ht as <-. split; [reflexivity | vm_compute; lia]. }
  exists cad. split; [exact Hc | apply Hne; discriminate].
Defined.



(** X19, on logging an attempt of "p1" while "p2" has attempts too. *)
Lemma recompute_single_is_local_witness :
  "p1" <> ""
  /\ _recompute_srs_single Iso.fromisoformat Iso.utc default_config true
       [Sample.loss_p1; Sample.loss_p2] ∅ (Some "p1")
     = Some (Committed SampleEnv.p1_seeded)
  /\ Committed SampleEnv.p1_seeded
     = run Iso.fromisoformat Iso.utc default_config
         (List.filter (fun r => String.eqb (puzzle_id r) "p1")
            [Sample.loss_p1; Sample.loss_p2]) ∅ None
  /\ srs_after ∅ (Committed SampleEnv.p1_seeded) !! "p2"
     = (∅ : gmap string srs_row) !! "p2".
Proof.
  assert (Hne : "p1" <> "") by discriminate.
  assert (Hrun : _recompute_srs_single Iso.fromisoformat Iso.utc default_config true
                   [Sample.loss_p1; Sample.loss_p2] ∅ (Some "p1")
                 = Some (Committed SampleEnv.p1_seeded)) by (vm_compute; reflexivity).
  split; [exact Hne |]. split; [exact Hrun |].
  destruct (proj1 (recompute_single_is_local Iso.fromisoformat Iso.utc default_config
                     [Sample.loss_p1; Sample.loss_p2] ∅) "p1" _ Hne Hrun)
    as [Ho Hother].
  split; [exact Ho |]. apply Hother. discriminate.
Defined.

(** X20, on a file of two assignments and an environment that defines the
    second, and on a file that assigns a name twice. *)
Lemma load_dotenv_only_adds_witness :
  load_dotenv (Some SampleEnv.two_lines) SampleEnv.b_old = Ok SampleEnv.a_added
  /\ SampleEnv.b_old ⊆ SampleEnv.a_added
  /\ SampleEnv.a_added !! "B" = Some "old"
  /\ load_dotenv (Some SampleEnv.two_lines) SampleEnv.a_added = Ok SampleEnv.a_added
  /\ load_dotenv (Some SampleEnv.a_twice) ∅ = Ok SampleEnv.a_first
  /\ SampleEnv.a_first !! "A"
     = first_assignment (Dotenv.splitlines SampleEnv.a_twice) "A".
Proof.
  assert (H : load_dotenv (Some SampleEnv.two_lines) SampleEnv.b_old
              = Ok SampleEnv.a_added) by (vm_compute; reflexivity).
  assert (H' : load_dotenv (Some SampleEnv.a_twice) ∅ = Ok SampleEnv.a_first)
    by (vm_compute; reflexivity).
  destruct (load_dotenv_only_adds _ _ _ H) as (Hsub & Hkeep & _ & Hagain & _).
  destruct (load_dotenv_only_adds _ _ _ H') as (_ & _ & Hfirst & _).
  split; [exact H |]. split; [exact Hsub |].
  split; [apply Hkeep; vm_compute; reflexivity |].
  split; [exact Hagain |]. split; [exact H' |].
  apply Hfirst; [reflexivity | apply lookup_empty].
Defined.

(** X21, on the line [DB_PATH = './db/x.sqlite3']. *)
Lemma load_dotenv_reads_assignment_witness :
  dotenv_name "DB_PATH" /\ dotenv_value "./db/x.sqlite3"
  /\ one_line "DB_PATH = './db/x.sqlite3'" = true
  /\ load_dotenv (Some "DB_PATH = './db/x.sqlite3'") ∅ = Ok SampleEnv.db_path_env.
Proof.
  assert (Hk : dotenv_name "DB_PATH").
  { split; [discriminate |]. repeat split; vm_compute; reflexivity. }
  assert (Hv : dotenv_value "./db/x.sqlite3").
  { repeat split; vm_compute; reflexivity. }
  assert (Hone : one_line "DB_PATH = './db/x.sqlite3'" = true) by reflexivity.
  split; [exact Hk |]. split; [exact Hv |]. split; [exact Hone |].
  exact (proj1 (load_dotenv_reads_assignment "DB_PATH" "./db/x.sqlite3" "'" " " " "
                  "" ∅ Hk Hv eq_refl eq_refl (or_intror (or_introl eq_refl)) Hone)).
Defined.
